(** * ms-trace: query normalisation, federated search and fallback summary

    A shallow embedding of the Python sources of the [trace] and [traceit]
    packages, and the properties of their specification proved (or refuted)
    on it.

    Conventions of the embedding.
    - A Python [str] is a [string].  [PyStr.lower], [SummaryText.upper]
      and [SummaryText.strip] are [str.lower], [str.upper] and [str.strip]
      on ASCII text, where the first two only map the letters and the
      third only removes the six ASCII white-space characters and the four
      separators 28 to 31; a property that depends on what they do to a
      text assumes that the text is ASCII ([IsAscii]).
    - A Python [int] is a [Z]; a [len] is a [nat].
    - A [dict] with string keys is a [gmap string _].
    - [try]/[except] is an explicit sum: [inl] carries the raised
      exception, [inr] the returned value.
    - A [pathlib.Path] is the list of its [parts]. *)

From Stdlib Require Import ZArith Ascii String List Bool Lia.
From Stdlib Require Import DecimalString Decimal.
From stdpp Require Import base option strings gmap list.

Set Warnings "-register-all".
Local Open Scope string_scope.
Local Open Scope list_scope.

(* ================================================================== *)
(** * Part I: the programs                                             *)
(* ================================================================== *)

(** ** Python string primitives *)

Module PyStr.

(** [s.startswith(p)] *)
Fixpoint startswith (s p : string) {struct p} : bool :=
  match p with
  | EmptyString => true
  | String c p' =>
      match s with
      | EmptyString => false
      | String d s' => if Ascii.eqb c d then startswith s' p' else false
      end
  end.

(** [s[n:]] for a non-negative literal [n] *)
Fixpoint slice_from (n : nat) (s : string) : string :=
  match n with
  | O => s
  | S n' => match s with
            | EmptyString => EmptyString
            | String _ s' => slice_from n' s'
            end
  end.

(** [s.split(sep)] for a separator of one character.  The result is never
    empty: a string without separator is returned whole, in a list of
    one. *)
Fixpoint split (sep : ascii) (s : string) : list string :=
  match s with
  | EmptyString => [EmptyString]
  | String c s' =>
      if Ascii.eqb c sep then EmptyString :: split sep s'
      else match split sep s' with
           | [] => [String c EmptyString]
           | h :: t => String c h :: t
           end
  end.

(** [l[-1]]: the last element; [IndexError] on the empty list. *)
Fixpoint index_last (l : list string) : option string :=
  match l with
  | [] => None
  | [x] => Some x
  | _ :: t => index_last t
  end.

(** [c.lower()] on one ASCII character: the letters A to Z are moved to
    a to z, no other ASCII character changes *)
Definition lower_char (c : ascii) : ascii :=
  let n := nat_of_ascii c in
  if (65 <=? n)%nat && (n <=? 90)%nat then ascii_of_nat (n + 32) else c.

(** [s.lower()] for an ASCII [s] *)
Fixpoint lower (s : string) : string :=
  match s with
  | EmptyString => EmptyString
  | String c s' => String (lower_char c) (lower s')
  end.

(** [sub in s]: substring test *)
Fixpoint contains (sub s : string) : bool :=
  startswith s sub ||
  match s with
  | EmptyString => false
  | String _ s' => contains sub s'
  end.

(** [str(n)] for a length *)
Definition str_of_nat (n : nat) : string :=
  NilEmpty.string_of_uint (Nat.to_uint n).

End PyStr.

(** ** The filesystem seen by [os.walk] *)

(** A path is the tuple of its parts, as [pathlib.Path.parts] gives it. *)
Definition Path := list string.

(** A directory entry is a file or a directory; a directory that cannot
    be listed ([os.scandir] raises [OSError]) has [readable = false]. *)
Inductive Node :=
| File
| Dir (readable : bool) (entries : list (string * Node)).

Definition is_dir (n : Node) : bool :=
  match n with File => false | Dir _ _ => true end.

(** Names of the sub-directories and of the other entries of a listing,
    in listing order: the [dirs] and [files] that [os.walk] yields. *)
Definition dir_names (es : list (string * Node)) : list string :=
  map fst (List.filter (fun e => is_dir (snd e)) es).

Definition file_names (es : list (string * Node)) : list string :=
  map fst (List.filter (fun e => negb (is_dir (snd e))) es).

(** [os.walk(top)], top-down, with the caller's in-place edit of [dirs]
    ([dirs[:] = [d for d in dirs if keep root d]]) given as [keep].  Each
    element is a yielded [(root, dirs, files)] with [dirs] as the caller
    left it.  A directory that cannot be listed yields nothing ([onerror]
    is [None]); so does a [top] that is not a directory. *)
Fixpoint os_walk (keep : Path -> string -> bool) (top : Path) (n : Node)
  : list (Path * list string * list string) :=
  match n with
  | File => []
  | Dir false _ => []
  | Dir true es =>
      (top, List.filter (keep top) (dir_names es), file_names es)
      :: (fix sub (l : list (string * Node)) :=
            match l with
            | [] => []
            | (name, child) :: r =>
                if is_dir child && keep top name
                then os_walk keep (top ++ [name]) child ++ sub r
                else sub r
            end) es
  end.

(** A compiled regular expression, seen through its [search] method:
    [p name = true] when [pattern.search(name)] finds a match. *)
Definition Pattern := string -> bool.

(** [any(pattern.search(file) for pattern in self.compiled_patterns)] *)
Definition any_pattern (ps : list Pattern) (file : string) : bool :=
  existsb (fun p => p file) ps.

(** [s.endswith(suffix)]: some tail of [s] is [suffix] *)
Fixpoint endswith (s suffix : string) : bool :=
  String.eqb s suffix ||
  match s with
  | EmptyString => false
  | String _ s' => endswith s' suffix
  end.

(** The default patterns [".*\\.py$"], [".*\\.sql$"], [".*\\.ipynb$"]:
    [search] succeeds when the name ends with the extension, or with the
    extension followed by one newline (Python's [$]). *)
Definition ext_pattern (ext : string) : Pattern :=
  fun name => endswith name ext
              || endswith name (ext ++ String (ascii_of_nat 10) EmptyString).

Definition default_patterns : list Pattern :=
  [ext_pattern ".py"; ext_pattern ".sql"; ext_pattern ".ipynb"].

(** A reference as the filesystem client builds it:
    [{"path": ..., "last_modified": ..., "type": "afs"}]. *)
Record AfsRef := {
  afs_path : Path;
  afs_last_modified : string;
  afs_type : string
}.

(** What the two statements in the inner [try] of [search] do for one
    matching file, [stat_info = file_path.stat()] and
    [datetime.fromtimestamp(stat_info.st_mtime).isoformat()]:
    - [Modified t]: both return, [t] is the time in ISO format;
    - [StatFails]: one of them raises [OSError] (or its subclass
      [PermissionError]), which the inner [except] clause catches;
    - [TimeFails]: [stat] returns, and [fromtimestamp] raises [ValueError]
      or [OverflowError] on a modification time out of its range, which
      the inner clause does not catch. *)
Inductive StatOutcome :=
| Modified (last_modified : string)
| StatFails
| TimeFails.

(** The storage as one search sees it: whether [Path.exists] on the root
    raises instead of answering ([PermissionError], which [pathlib]
    re-raises up to Python 3.12); the node at the root path, if any (none
    when [exists] answers [False]); and the outcome of [stat] and of the
    time conversion for each path. *)
Record Storage := {
  exists_raises : bool;
  root_node : option Node;
  stat_iso : Path -> StatOutcome
}.

(** Exceptions, by class.  [RequestException] stands for the whole
    [requests.exceptions] hierarchy; the others are built-in. *)
Inductive Exception :=
| Timeout
| ConnectionError
| HTTPError (status : Z)
| InvalidJSONError
| AttributeError
| TypeError
| OtherError (name : string).

(** ** [trace/search_afs.py] *)

Module Trace.

Record AFSSearcher := {
  root_path : Path;
  compiled_patterns : list Pattern
}.

(** [search_patterns or [defaults]] *)
Definition init (root : Path) (search_patterns : option (list Pattern))
  : AFSSearcher :=
  {| root_path := root;
     compiled_patterns :=
       match search_patterns with
       | None | Some [] => default_patterns
       | Some ps => ps
       end |}.

Definition _extract_base_name (query : string) : string :=
  if PyStr.startswith query "job:" then
    PyStr.slice_from 4 query
  else if PyStr.startswith query "table:" then
    let table_name := PyStr.slice_from 6 query in
    default EmptyString (PyStr.index_last (PyStr.split "." table_name))
  else
    query.

(** the in-place edit of [dirs]: hidden directories are dropped *)
Definition keep_dir (root : Path) (d : string) : bool :=
  negb (PyStr.startswith d ".").

(** the body of [for file in files] *)
Definition matches_of (self : AFSSearcher) (base_name : string)
    (item : Path * list string * list string) : list Path :=
  let '(root, _, files) := item in
  flat_map
    (fun file =>
       if PyStr.contains (PyStr.lower base_name) (PyStr.lower file) then
         if any_pattern (compiled_patterns self) file
         then [root ++ [file]] else []
       else [])
    files.

Definition _find_matching_files (self : AFSSearcher) (tree : Node)
    (base_name : string) : list Path :=
  flat_map (matches_of self base_name)
           (os_walk keep_dir (root_path self) tree).

(** the loop [for file_path in matching_files], started with the list
    [references]: a file caught by the inner [except] is skipped; any
    other exception leaves the loop.  The result is the list as the loop
    left it, and whether an exception left the loop. *)
Fixpoint refs_loop (st : Storage) (matching_files : list Path)
    (references : list AfsRef) : list AfsRef * bool :=
  match matching_files with
  | [] => (references, false)
  | file_path :: rest =>
      match stat_iso st file_path with
      | Modified last_modified =>
          refs_loop st rest
            (references ++ [{| afs_path := file_path;
                               afs_last_modified := last_modified;
                               afs_type := "afs" |}])
      | StatFails => refs_loop st rest references
      | TimeFails => (references, true)
      end
  end.

(** [search]: [exists] is called before the [try], so what it raises
    leaves [search]; an exception inside the [try] is logged by the outer
    [except Exception] clause, and [references] is returned as it is. *)
Definition search (self : AFSSearcher) (st : Storage) (query : string)
  : Exception + list AfsRef :=
  if exists_raises st then inl (OtherError "PermissionError")
  else
    match root_node st with
    | None => inr []
    | Some tree =>
        let base_name := _extract_base_name query in
        let matching_files := _find_matching_files self tree base_name in
        inr (fst (refs_loop st matching_files []))
    end.

End Trace.

(** ** [traceit/search_afs.py] *)

Module Traceit.

Record AFSSearcher := {
  root_path : Path;
  compiled_patterns : list Pattern
}.

Definition init (root : Path) (search_patterns : option (list Pattern))
  : AFSSearcher :=
  {| root_path := root;
     compiled_patterns :=
       match search_patterns with
       | None | Some [] => default_patterns
       | Some ps => ps
       end |}.

Definition _extract_base_name (query : string) : string :=
  if PyStr.startswith query "job:" then
    PyStr.slice_from 4 query
  else if PyStr.startswith query "table:" then
    let table_name := PyStr.slice_from 6 query in
    default EmptyString (PyStr.index_last (PyStr.split "." table_name))
  else
    query.

(** [current_depth = len(Path(root).parts) - root_depth] *)
Definition current_depth (self : AFSSearcher) (root : Path) : Z :=
  (Z.of_nat (length root) - Z.of_nat (length (root_path self)))%Z.

(** the in-place edit of [dirs]: emptied at [max_depth], otherwise
    hidden directories are dropped *)
Definition keep_dir (self : AFSSearcher) (max_depth : Z)
    (root : Path) (d : string) : bool :=
  if (current_depth self root >=? max_depth)%Z then false
  else negb (PyStr.startswith d ".").

Definition matches_of (self : AFSSearcher) (base_name : string)
    (item : Path * list string * list string) : list Path :=
  let '(root, _, files) := item in
  flat_map
    (fun file =>
       if PyStr.contains (PyStr.lower base_name) (PyStr.lower file) then
         if any_pattern (compiled_patterns self) file
         then [root ++ [file]] else []
       else [])
    files.

Definition _find_matching_files (self : AFSSearcher) (tree : Node)
    (base_name : string) (max_depth : Z) : list Path :=
  flat_map (matches_of self base_name)
           (os_walk (keep_dir self max_depth) (root_path self) tree).

(** [_ping_afs_location]: the root exists, is a directory and can be
    listed; whatever is raised on the way is caught and gives [False] *)
Definition _ping_afs_location (st : Storage) : bool :=
  if exists_raises st then false
  else
    match root_node st with
    | Some (Dir true _) => true
    | _ => false
    end.

(** the loop [for file_path in matching_files], started with the list
    [refs]: the result is the list as the loop left it, and whether an
    exception that the inner [except] does not catch left the loop *)
Fixpoint refs_loop (st : Storage) (matching_files : list Path)
    (refs : list AfsRef) : list AfsRef * bool :=
  match matching_files with
  | [] => (refs, false)
  | file_path :: rest =>
      match stat_iso st file_path with
      | Modified last_modified =>
          refs_loop st rest
            (refs ++ [{| afs_path := file_path;
                         afs_last_modified := last_modified;
                         afs_type := "afs" |}])
      | StatFails => refs_loop st rest refs
      | TimeFails => (refs, true)
      end
  end.

(** what [search_worker] puts on the queue: [refs] when the loop ends,
    [[]] when the outer [except Exception] clause is reached *)
Definition search_worker (self : AFSSearcher) (st : Storage)
    (query : string) (max_depth : Z) : list AfsRef :=
  if negb (_ping_afs_location st) then []
  else
    match root_node st with
    | None => []
    | Some tree =>
        let base_name := _extract_base_name query in
        let matching_files :=
          _find_matching_files self tree base_name max_depth in
        let '(refs, raised) := refs_loop st matching_files [] in
        if raised then [] else refs
    end.

(** [search]: [still_alive] is [t.is_alive()] after [t.join(timeout)],
    that is, whether the worker overran the timeout. *)
Definition search (self : AFSSearcher) (st : Storage) (still_alive : bool)
    (query : string) (max_depth : Z) : list AfsRef :=
  if still_alive then []
  else search_worker self st query max_depth.

(** the default [max_depth] of [search] and [_find_matching_files] *)
Definition default_max_depth : Z := 1.

End Traceit.

(** ** Python values, as [json] and [yaml.safe_load] produce them *)

Inductive PyVal :=
| VNone
| VBool (b : bool)
| VInt (z : Z)
| VStr (s : string)
| VList (l : list PyVal)
| VDict (m : gmap string PyVal).

(** [isinstance(e, requests.exceptions.RequestException)] *)
Definition is_RequestException (e : Exception) : bool :=
  match e with
  | Timeout | ConnectionError | HTTPError _ | InvalidJSONError => true
  | AttributeError | TypeError | OtherError _ => false
  end.

(** [v.get(k, d)]: only a [dict] has the method *)
Definition py_get (v : PyVal) (k : string) (d : PyVal)
  : Exception + PyVal :=
  match v with
  | VDict m => inr (default d (m !! k))
  | _ => inl AttributeError
  end.

(** [for x in v]: the elements [v] iterates over *)
Definition py_iter (v : PyVal) : Exception + list PyVal :=
  match v with
  | VList l => inr l
  | VDict m => inr (map (fun kv => VStr (fst kv)) (map_to_list m))
  | VStr s =>
      inr (map (fun c => VStr (String c EmptyString))
               (list_ascii_of_string s))
  | _ => inl TypeError
  end.

(** [v == s] for a string literal [s] *)
Definition eq_str (v : PyVal) (s : string) : bool :=
  match v with
  | VStr t => String.eqb t s
  | _ => false
  end.

(** [k in v] *)
Definition py_in (k : string) (v : PyVal) : Exception + bool :=
  match v with
  | VDict m => inr (bool_decide (is_Some (m !! k)))
  | VStr s => inr (PyStr.contains k s)
  | VList l => inr (existsb (fun x => eq_str x k) l)
  | _ => inl TypeError
  end.

(** [v[k] = x] for a string key [k] *)
Definition py_setitem (v : PyVal) (k : string) (x : PyVal)
  : Exception + PyVal :=
  match v with
  | VDict m => inr (VDict (<[k := x]> m))
  | _ => inl TypeError
  end.

(** ** [trace/search_sourcegraph.py] *)

Module Sourcegraph.

(** the double-quote character of the f-strings *)
Definition dquote : string := String (ascii_of_nat 34) EmptyString.

Definition _build_search_query (query : string) : string :=
  if PyStr.startswith query "job:" then
    let job_name := PyStr.slice_from 4 query in
    "type:file " ++ dquote ++ job_name ++ dquote
      ++ " (lang:python OR lang:yaml OR lang:json)"
  else if PyStr.startswith query "table:" then
    let table_name := PyStr.slice_from 6 query in
    "type:file " ++ dquote ++ table_name ++ dquote
      ++ " (lang:sql OR lang:python)"
  else
    "type:file " ++ dquote ++ query ++ dquote.

(** What [requests.post] hands back: a status code and the outcome of
    [response.json()], which raises on a body that is not JSON. *)
Record Response := {
  status_code : Z;
  json : Exception + PyVal
}.

(** The network: the outcome of the n-th call of [requests.post]
    (counting from 0), an exception raised by the call or a response. *)
Definition Transport := nat -> Exception + Response.

(** [response.raise_for_status(); return response.json()] *)
Definition attempt_once (reply : Exception + Response)
  : Exception + PyVal :=
  match reply with
  | inl e => inl e
  | inr response =>
      if (400 <=? status_code response)%Z && (status_code response <? 600)%Z
      then inl (HTTPError (status_code response))
      else json response
  end.

(** The state threaded through [_make_request]: the delays passed to
    [time.sleep], in order, and the number of requests posted. *)
Record Effects := {
  sleeps : list Z;
  posts : nat
}.

(** The [for attempt in range(self.max_retries)] loop, [remaining]
    iterations from [attempt] on. *)
Fixpoint request_loop (max_retries : Z) (net : Transport)
    (remaining attempt : nat) (eff : Effects)
  : (Exception + PyVal) * Effects :=
  match remaining with
  | O => (inr (VDict ∅), eff)
  | S remaining' =>
      let eff1 := {| sleeps := sleeps eff; posts := S (posts eff) |} in
      match attempt_once (net (posts eff)) with
      | inr data => (inr data, eff1)
      | inl e =>
          if is_RequestException e then
            if (Z.of_nat attempt <? max_retries - 1)%Z then
              let wait_time := (2 ^ Z.of_nat attempt)%Z in
              request_loop max_retries net remaining' (S attempt)
                {| sleeps := sleeps eff1 ++ [wait_time];
                   posts := posts eff1 |}
            else (inl e, eff1)
          else (inl e, eff1)
      end
  end.

Definition _make_request (max_retries : Z) (net : Transport)
  : (Exception + PyVal) * Effects :=
  request_loop max_retries net (Z.to_nat max_retries) 0
               {| sleeps := []; posts := 0 |}.

(** A reference as the parser builds it.  [path], [repo] and [url] are
    whatever the response holds under these keys; [last_modified] and
    [author] are [None]. *)
Record CodeRef := {
  path : PyVal;
  repo : PyVal;
  url : PyVal;
  last_modified : PyVal;
  author : PyVal;
  type : string
}.

(** One turn of [for result in search_results]: an exception, nothing
    (not a [FileMatch]) or the reference to append. *)
Definition parse_result (result : PyVal) : Exception + option CodeRef :=
  match py_get result "__typename" VNone with
  | inl e => inl e
  | inr typename =>
      if eq_str typename "FileMatch" then
        match py_get result "file" (VDict ∅) with
        | inl e => inl e
        | inr file_info =>
            match py_get result "repository" (VDict ∅) with
            | inl e => inl e
            | inr repo_info =>
                match py_get file_info "path" (VStr EmptyString) with
                | inl e => inl e
                | inr p =>
                    match py_get repo_info "name" (VStr EmptyString) with
                    | inl e => inl e
                    | inr r =>
                        match py_get file_info "url" (VStr EmptyString) with
                        | inl e => inl e
                        | inr u =>
                            inr (Some {| path := p; repo := r; url := u;
                                         last_modified := VNone;
                                         author := VNone;
                                         type := "code" |})
                        end
                    end
                end
            end
        end
      else inr None
  end.

(** The loop, with [references] as accumulated so far.  An exception
    leaves the loop; the [except] clause logs it and the function returns
    the list as it stands. *)
Fixpoint parse_loop (search_results : list PyVal)
    (references : list CodeRef) : list CodeRef :=
  match search_results with
  | [] => references
  | result :: rest =>
      match parse_result result with
      | inl _ => references
      | inr None => parse_loop rest references
      | inr (Some ref) => parse_loop rest (references ++ [ref])
      end
  end.

(** [response.get("data", {}).get("search", {}).get("results", {})
    .get("results", [])] *)
Definition results_of (response : PyVal) : Exception + PyVal :=
  match py_get response "data" (VDict ∅) with
  | inl e => inl e
  | inr data =>
      match py_get data "search" (VDict ∅) with
      | inl e => inl e
      | inr search =>
          match py_get search "results" (VDict ∅) with
          | inl e => inl e
          | inr results => py_get results "results" (VList [])
          end
      end
  end.

Definition _parse_search_results (response : PyVal) : list CodeRef :=
  match results_of response with
  | inl _ => []
  | inr search_results =>
      match py_iter search_results with
      | inl _ => []
      | inr items => parse_loop items []
      end
  end.

(** [search_references]: any exception of the request is logged and
    gives the empty list. *)
Definition search_references (max_retries : Z) (net : Transport)
  : list CodeRef :=
  match fst (_make_request max_retries net) with
  | inl _ => []
  | inr response => _parse_search_results response
  end.

End Sourcegraph.

(** ** [traceit/summarize_impact.py] and the summary step of
    [traceit/cli.py] *)

Record Summary := {
  risk_level : string;
  impact_summary : string;
  suggested_next_steps : list string
}.

Section Summarizer.

(** The reference lists only matter here through their lengths and
    through the prompt built from them. *)
Context {CodeRefT AfsRefT : Type}.

(** [_build_prompt] and [_parse_summary] are plain text processing on the
    way to and from the model; the properties below do not depend on
    what they compute. *)
Variable _build_prompt : string -> list CodeRefT -> list AfsRefT -> string.
Variable _parse_summary : string -> Summary.

(** The [OpenAI] client, seen through [chat.completions.create]: given
    the model name and the user prompt, the text of the first choice, or
    an exception with its message. *)
Definition Client := string -> string -> string + string.

Record ImpactSummarizer := {
  provider : string;
  model : string;
  client : option Client
}.

(** [__init__]: a client is constructed only for the provider
    ["openai"], and only if the [openai] package could be imported. *)
Definition ImpactSummarizer_init (OPENAI_AVAILABLE : bool)
    (OpenAI : Client) (provider model : string) : ImpactSummarizer :=
  {| provider := provider;
     model := model;
     client := if String.eqb provider "openai" && OPENAI_AVAILABLE
               then Some OpenAI else None |}.

(** [summarize], with the prompts sent over the network as second
    component. *)
Definition summarize (self : ImpactSummarizer) (query : string)
    (code_references : list CodeRefT) (afs_references : list AfsRefT)
  : Summary * list string :=
  match client self with
  | None =>
      ({| risk_level := "UNKNOWN";
          impact_summary := "LLM summarization not available";
          suggested_next_steps := [] |}, [])
  | Some create =>
      let prompt := _build_prompt query code_references afs_references in
      match create (model self) prompt with
      | inr summary_text => (_parse_summary summary_text, [prompt])
      | inl e =>
          ({| risk_level := "UNKNOWN";
              impact_summary := "Error generating summary: " ++ e;
              suggested_next_steps := [] |}, [prompt])
      end
  end.

(** The summary step of [main], lines 173 to 194 of [cli.py], as a
    function of what the lines before it computed: [llm_enabled] is
    [cfg.is_llm_enabled()], [summarizer] the [ImpactSummarizer] built from
    the configuration.  [main] below puts the step in its place. *)
Definition summary_step (generate_summary output_json llm_enabled : bool)
    (summarizer : ImpactSummarizer) (query : string)
    (code_refs : list CodeRefT) (afs_refs : list AfsRefT)
  : option Summary * list string :=
  let should_generate_summary := generate_summary || negb output_json in
  if should_generate_summary then
    if llm_enabled then
      let '(summary, sent) := summarize summarizer query code_refs afs_refs in
      (Some summary, sent)
    else
      (Some {| risk_level := "UNKNOWN";
               impact_summary :=
                 "Found " ++ PyStr.str_of_nat (length code_refs)
                 ++ " code references and "
                 ++ PyStr.str_of_nat (length afs_refs)
                 ++ " AFS references";
               suggested_next_steps := [] |}, [])
  else (None, []).

End Summarizer.

(** ** [traceit/cli.py]: [main] *)

Module Cli.

(** The parameters of [AFSSearcher.__init__] in [traceit/search_afs.py],
    [self] apart: [root_path] and [search_patterns]. *)
Definition AFSSearcher_parameters : list string :=
  ["root_path"; "search_patterns"].

(** A call whose arguments are all given by keyword: Python raises
    [TypeError] when a keyword is not the name of a parameter. *)
Definition unexpected_keyword (parameters keywords : list string) : bool :=
  negb (forallb (fun k => existsb (String.eqb k) parameters) keywords).

(** [AFSSearcher(k1=..., k2=..., ...)] with the keywords [keywords]; the
    values that [__init__] uses are [root_path] and [search_patterns]. *)
Definition construct_AFSSearcher (keywords : list string) (root_path : Path)
    (search_patterns : option (list Pattern))
  : Exception + Traceit.AFSSearcher :=
  if unexpected_keyword AFSSearcher_parameters keywords then inl TypeError
  else inr (Traceit.init root_path search_patterns).

Section Main.

Context {CodeRefT : Type}.
Variable _build_prompt : string -> list CodeRefT -> list AfsRef -> string.
Variable _parse_summary : string -> Summary.

(** [main], from the construction of the filesystem searcher on (line
    160).  The lines before it use [traceit.config] and
    [traceit.search_gf], which are not among the sources; they are taken
    to return, and what [main] reads from them is given: [root_path],
    [search_patterns] and [llm_enabled] from the configuration,
    [summarizer] the [ImpactSummarizer] that line 181 would build,
    [code_refs] the result of the code search.  [st] and [still_alive] are
    the storage and the timeout as [Traceit.search] sees them.  The result
    is what [main] hands to the formatter (the reference lists and the
    summary) with the prompts sent, or the exception that leaves [main]. *)
Definition main (query : string) (output_json generate_summary : bool)
    (depth : option Z) (verbose : bool)
    (root_path : Path) (search_patterns : option (list Pattern))
    (llm_enabled : bool) (summarizer : ImpactSummarizer)
    (code_refs : list CodeRefT) (st : Storage) (still_alive : bool)
  : Exception
    + (list CodeRefT * list AfsRef * option Summary * list string) :=
  match construct_AFSSearcher ["root_path"; "search_patterns"; "verbose"]
          root_path search_patterns with
  | inl e => inl e
  | inr afs_searcher =>
      let max_depth :=
        match depth with
        | Some d => if (d =? 0)%Z then 1%Z else d
        | None => 1%Z
        end in
      let afs_refs :=
        Traceit.search afs_searcher st still_alive query max_depth in
      let '(summary, sent) :=
        summary_step _build_prompt _parse_summary generate_summary
          output_json llm_enabled summarizer query code_refs afs_refs in
      inr (code_refs, afs_refs, summary, sent)
  end.

End Main.

End Cli.

(** ** [trace/config.py] *)

Module Config.

(** [defaults], in source order; [llm_api_key] is
    [os.getenv("LLM_API_KEY", "")]. *)
Definition defaults (llm_api_key : string) : list (string * PyVal) :=
  [ ("sourcegraph",
      VDict (list_to_map
        [ ("endpoint", VStr "https://sourcegraph.example.com/.api/graphql");
          ("token", VStr EmptyString) ]));
    ("afs",
      VDict (list_to_map
        [ ("root_path", VStr "/afs/project");
          ("search_patterns",
             VList [VStr ".*\.py$"; VStr ".*\.sql$"; VStr ".*\.ipynb$"]) ]));
    ("llm",
      VDict (list_to_map
        [ ("enabled", VBool false);
          ("provider", VStr "openai");
          ("model", VStr "gpt-4");
          ("api_key", VStr llm_api_key);
          ("base_url", VStr EmptyString) ]));
    ("logging",
      VDict (list_to_map
        [ ("level", VStr "INFO");
          ("format",
             VStr "%(asctime)s - %(name)s - %(levelname)s - %(message)s") ]));
    ("performance",
      VDict (list_to_map
        [ ("max_workers", VInt 4);
          ("request_timeout", VInt 30);
          ("max_retries", VInt 3) ])) ].

(** [for subkey, subvalue in default_value.items()]: [section] is
    [self._config[key]], updated in place. *)
Fixpoint merge_section (subdefaults : list (string * PyVal))
    (section : PyVal) : Exception + PyVal :=
  match subdefaults with
  | [] => inr section
  | (subkey, subvalue) :: rest =>
      match py_in subkey section with
      | inl e => inl e
      | inr true => merge_section rest section
      | inr false =>
          match py_setitem section subkey subvalue with
          | inl e => inl e
          | inr section' => merge_section rest section'
          end
      end
  end.

(** [for key, default_value in defaults.items()] *)
Fixpoint merge_defaults (defs : list (string * PyVal))
    (config : gmap string PyVal) : Exception + gmap string PyVal :=
  match defs with
  | [] => inr config
  | (key, default_value) :: rest =>
      match config !! key with
      | None => merge_defaults rest (<[key := default_value]> config)
      | Some section =>
          match default_value with
          | VDict d =>
              match merge_section (map_to_list d) section with
              | inl e => inl e
              | inr section' =>
                  merge_defaults rest (<[key := section']> config)
              end
          | _ => merge_defaults rest config
          end
      end
  end.

Definition _set_defaults (llm_api_key : string)
    (config : gmap string PyVal) : Exception + gmap string PyVal :=
  merge_defaults (defaults llm_api_key) config.

(** [get]: the value under a dotted key, or [default] *)
Fixpoint get_path (keys : list string) (value : PyVal) (default : PyVal)
  : PyVal :=
  match keys with
  | [] => value
  | k :: rest =>
      match value with
      | VDict m =>
          match m !! k with
          | Some v => get_path rest v default
          | None => default
          end
      | _ => default
      end
  end.

Definition get (config : gmap string PyVal) (key : string)
    (default : PyVal) : PyVal :=
  get_path (PyStr.split "." key) (VDict config) default.

End Config.

(** ** [trace/config.py]: the constructor and the getters *)

Module ConfigLoad.

(** Python's truth value of a loaded document: [bool(v)] *)
Definition truthy (v : PyVal) : bool :=
  match v with
  | VNone => false
  | VBool b => b
  | VInt z => negb (z =? 0)%Z
  | VStr s => negb (String.eqb s EmptyString)
  | VList l => match l with [] => false | _ => true end
  | VDict m => negb (bool_decide (m = ∅))
  end.

(** The files that exist: for a path, what [yaml.safe_load] reads from
    the file there, or [None] when [Path.exists] is false.  The files are
    taken to hold valid YAML. *)
Definition Files := string -> option PyVal.

(** The path that [__init__] settles on: the argument when it is not
    [None], else [config.yaml] of the current directory, else the one of
    the home directory, each if it exists. *)
Definition resolve (files : Files) (current_dir_config home_config : string)
    (config_path : option string) : option string :=
  match config_path with
  | Some p => Some p
  | None =>
      if bool_decide (is_Some (files current_dir_config))
      then Some current_dir_config
      else if bool_decide (is_Some (files home_config))
           then Some home_config
           else None
  end.

(** [self._config] before the defaults are set:
    [yaml.safe_load(f) or {}] when the path is non-empty and exists,
    the empty dictionary otherwise. *)
Definition load (files : Files) (config_path : option string) : PyVal :=
  match config_path with
  | Some p =>
      if String.eqb p EmptyString then VDict ∅
      else match files p with
           | Some v => if truthy v then v else VDict ∅
           | None => VDict ∅
           end
  | None => VDict ∅
  end.

(** [__init__].  A loaded document that is not a mapping (a list, a
    string, a number) makes [_set_defaults] raise [TypeError] on its
    first key, whether by [in], by item assignment or by indexing. *)
Definition init (llm_api_key : string) (files : Files)
    (current_dir_config home_config : string) (config_path : option string)
  : Exception + gmap string PyVal :=
  match load files (resolve files current_dir_config home_config config_path)
  with
  | VDict config => Config._set_defaults llm_api_key config
  | _ => inl TypeError
  end.

Definition get_sourcegraph_endpoint (config : gmap string PyVal) : PyVal :=
  Config.get config "sourcegraph.endpoint"
    (VStr "https://sourcegraph.example.com/.api/graphql").

Definition get_sourcegraph_token (config : gmap string PyVal) : PyVal :=
  Config.get config "sourcegraph.token" (VStr EmptyString).

Definition get_afs_root_path (config : gmap string PyVal) : PyVal :=
  Config.get config "afs.root_path" (VStr "/afs/project").

Definition get_afs_search_patterns (config : gmap string PyVal) : PyVal :=
  Config.get config "afs.search_patterns"
    (VList [VStr ".*\.py$"; VStr ".*\.sql$"; VStr ".*\.ipynb$"]).

Definition is_llm_enabled (config : gmap string PyVal) : PyVal :=
  Config.get config "llm.enabled" (VBool false).

Definition get_llm_config (config : gmap string PyVal) : PyVal :=
  Config.get config "llm" (VDict ∅).

Definition get_log_level (config : gmap string PyVal) : PyVal :=
  Config.get config "logging.level" (VStr "INFO").

Definition get_max_workers (config : gmap string PyVal) : PyVal :=
  Config.get config "performance.max_workers" (VInt 4).

Definition get_request_timeout (config : gmap string PyVal) : PyVal :=
  Config.get config "performance.request_timeout" (VInt 30).

Definition get_max_retries (config : gmap string PyVal) : PyVal :=
  Config.get config "performance.max_retries" (VInt 3).

End ConfigLoad.

(** ** [traceit/summarize_impact.py]: the prompt and the reply *)

Module SummaryText.

(** the newline character *)
Definition nl : string := String (ascii_of_nat 10) EmptyString.

(** [c.isspace()] on one ASCII character: tab, line feed, vertical tab,
    form feed, carriage return, the four separators 28 to 31, space *)
Definition is_space (c : ascii) : bool :=
  let n := nat_of_ascii c in
  ((9 <=? n)%nat && (n <=? 13)%nat) || ((28 <=? n)%nat && (n <=? 32)%nat).

(** [s.lstrip()] for an ASCII [s] *)
Fixpoint lstrip (s : string) : string :=
  match s with
  | EmptyString => EmptyString
  | String c s' => if is_space c then lstrip s' else s
  end.

(** [s.rstrip()] for an ASCII [s] *)
Fixpoint rstrip (s : string) : string :=
  match s with
  | EmptyString => EmptyString
  | String c s' =>
      match rstrip s' with
      | EmptyString => if is_space c then EmptyString
                       else String c EmptyString
      | r => String c r
      end
  end.

(** [s.strip()] for an ASCII [s] *)
Definition strip (s : string) : string := rstrip (lstrip s).

(** [c.upper()] on one ASCII character: the letters a to z are moved to
    A to Z, no other ASCII character changes *)
Definition upper_char (c : ascii) : ascii :=
  let n := nat_of_ascii c in
  if (97 <=? n)%nat && (n <=? 122)%nat then ascii_of_nat (n - 32) else c.

(** [s.upper()] for an ASCII [s] *)
Fixpoint upper (s : string) : string :=
  match s with
  | EmptyString => EmptyString
  | String c s' => String (upper_char c) (upper s')
  end.

(** [s.replace(old, new)] for a non-empty [old]: the occurrences of
    [old] are replaced from left to right, without overlap.  [skip]
    counts the characters of a replaced occurrence still to pass. *)
Fixpoint replace_from (old new : string) (skip : nat) (s : string)
  : string :=
  match s with
  | EmptyString => EmptyString
  | String c s' =>
      match skip with
      | S k => replace_from old new k s'
      | O =>
          if PyStr.startswith s old
          then new +:+ replace_from old new (String.length old - 1) s'
          else String c (replace_from old new 0 s')
      end
  end.

Definition replace (old new s : string) : string :=
  replace_from old new 0 s.

(** [[s.strip() for s in steps_text.split(";") if s.strip()]] *)
Definition steps_of (steps_text : string) : list string :=
  flat_map
    (fun s => match strip s with
              | EmptyString => []
              | stripped => [stripped]
              end)
    (PyStr.split ";" steps_text).

(** the body of [for line in lines] *)
Definition parse_line (acc : Summary) (line : string) : Summary :=
  if PyStr.startswith line "RISK_LEVEL:" then
    {| risk_level := upper (strip (replace "RISK_LEVEL:" EmptyString line));
       impact_summary := impact_summary acc;
       suggested_next_steps := suggested_next_steps acc |}
  else if PyStr.startswith line "IMPACT:" then
    {| risk_level := risk_level acc;
       impact_summary := strip (replace "IMPACT:" EmptyString line);
       suggested_next_steps := suggested_next_steps acc |}
  else if PyStr.startswith line "STEPS:" then
    let steps_text := strip (replace "STEPS:" EmptyString line) in
    {| risk_level := risk_level acc;
       impact_summary := impact_summary acc;
       suggested_next_steps := steps_of steps_text |}
  else acc.

Definition _parse_summary (summary_text : string) : Summary :=
  fold_left parse_line
    (PyStr.split (ascii_of_nat 10) summary_text)
    {| risk_level := "UNKNOWN";
       impact_summary := summary_text;
       suggested_next_steps := [] |}.

Section Prompt.

(** Python's [str()], which the f-strings apply to the values of a
    reference. *)
Variable str_of : PyVal -> string.

(** [ref.get(key, '')], formatted *)
Definition field (ref : gmap string PyVal) (key : string) : string :=
  str_of (default (VStr EmptyString) (ref !! key)).

Definition code_line (ref : gmap string PyVal) : string :=
  "- " +:+ field ref "path" +:+ " in repo " +:+ field ref "repo" +:+ nl.

Definition afs_line (ref : gmap string PyVal) : string :=
  "- " +:+ field ref "path" +:+ nl.

(** [prompt += line] for each reference of [refs] *)
Definition append_lines (line : gmap string PyVal -> string)
    (refs : list (gmap string PyVal)) (prompt : string) : string :=
  fold_left (fun acc ref => acc +:+ line ref) refs prompt.

Definition instructions : string :=
  nl +:+ "Please provide:" +:+ nl
  +:+ "1. Risk level (LOW, MEDIUM, HIGH) based on the number and criticality of dependencies"
  +:+ nl
  +:+ "2. A brief impact summary (1-2 sentences)" +:+ nl
  +:+ "3. Suggested next steps (2-3 actionable items)" +:+ nl
  +:+ nl
  +:+ "Format your response as:" +:+ nl
  +:+ "RISK_LEVEL: <level>" +:+ nl
  +:+ "IMPACT: <summary>" +:+ nl
  +:+ "STEPS: <step1>; <step2>; <step3>" +:+ nl.

Definition _build_prompt (query : string)
    (code_references afs_references : list (gmap string PyVal)) : string :=
  let prompt :=
    "Analyze the impact of modifying '" +:+ query
    +:+ "' based on the following references:" +:+ nl +:+ nl
    +:+ "CODE REFERENCES:" +:+ nl in
  let prompt := append_lines code_line (firstn 20 code_references) prompt in
  let prompt := prompt +:+ nl +:+ "AFS FILE REFERENCES:" +:+ nl in
  let prompt := append_lines afs_line (firstn 20 afs_references) prompt in
  prompt +:+ instructions.

End Prompt.

End SummaryText.

(* ================================================================== *)
(** * Part II: vocabulary of the specification                         *)
(* ================================================================== *)

(** The kind of a query.  The sources do not build a value for it: it is
    the branch that the [if]/[elif]/[else] chain on the prefixes takes,
    the same chain in [_extract_base_name] and [_build_search_query]. *)
Inductive Kind := FileName | Job | Table.

Definition kind_of (query : string) : Kind :=
  if PyStr.startswith query "job:" then Job
  else if PyStr.startswith query "table:" then Table
  else FileName.

(** [s] holds no ['.'] *)
Definition NoDot (s : string) : Prop :=
  forall pre post, s <> pre +:+ String "." post.

(** The rules of query normalisation, for a base-name function
    [extract] and a query [q]: after [job:] the remainder; after [table:]
    the part behind the last ['.'] of the remainder, or all of it when it
    has none; otherwise the query itself, of kind [FileName]. *)
Definition BaseNameRules (extract : string -> string) (q : string) : Prop :=
  (forall r, q = "job:" +:+ r ->
     kind_of q = Job /\ extract q = r) /\
  (forall r, q = "table:" +:+ r ->
     kind_of q = Table /\
     (NoDot r -> extract q = r) /\
     (forall pre b, r = pre +:+ String "." b -> NoDot b -> extract q = b)) /\
  ((forall r, q <> "job:" +:+ r) -> (forall r, q <> "table:" +:+ r) ->
     kind_of q = FileName /\ extract q = q).

(** [sub] occurs in [s] *)
Definition Substring (sub s : string) : Prop :=
  exists pre post, s = pre +:+ sub +:+ post.

(** [file], in the directory [dir], is met by a walk: some yielded
    [(root, dirs, files)] has [root = dir] and [file] among [files]. *)
Definition Encountered (walk : list (Path * list string * list string))
    (dir : Path) (file : string) : Prop :=
  exists dirs files, In (dir, dirs, files) walk /\ In file files.

(** [p] lies [n] directory levels below [root]: [p] is [root] followed
    by [n] directory names. *)
Definition LevelsBelow (root p : Path) (n : nat) : Prop :=
  exists names, p = root ++ names /\ length names = n.

(** The nominal backoff schedule: the first [k] delays 1, 2, 4, ... *)
Definition backoff (k : nat) : list Z :=
  map (fun i => (2 ^ Z.of_nat i)%Z) (seq 0 k).

(** The templated fallback text of the summary step. *)
Definition count_template (ncode nafs : nat) : string :=
  "Found " +:+ PyStr.str_of_nat ncode +:+ " code references and "
  +:+ PyStr.str_of_nat nafs +:+ " AFS references".

(** Induction on a tree, with the hypothesis for every entry of a
    directory. *)
Fixpoint Node_nested_ind (P : Node -> Prop) (HF : P File)
    (HD : forall rd es, Forall (fun e => P (snd e)) es -> P (Dir rd es))
    (n : Node) : P n :=
  match n with
  | File => HF
  | Dir rd es =>
      HD rd es
        ((fix go (l : list (string * Node)) : Forall (fun e => P (snd e)) l :=
            match l with
            | [] => @List.Forall_nil _ _
            | e :: r =>
                @List.Forall_cons _ _ e r
                  (Node_nested_ind P HF HD (snd e)) (go r)
            end) es)
  end.

(** The walks of the kept sub-directories, in listing order. *)
Definition walk_children (keep : Path -> string -> bool) (top : Path)
    (es : list (string * Node)) : list (Path * list string * list string) :=
  flat_map
    (fun e => if is_dir (snd e) && keep top (fst e)
              then os_walk keep (top ++ [fst e]) (snd e) else [])
    es.

(** A root holding [Test_File.py], [test_file.txt] and a directory [a]
    with [x.py]. *)
Definition example_entries : list (string * Node) :=
  [("Test_File.py", File); ("test_file.txt", File);
   ("a", Dir true [("x.py", File)])].

Definition example_storage : Storage :=
  {| exists_raises := false;
     root_node := Some (Dir true example_entries);
     stat_iso := fun _ => Modified "2024-01-01T00:00:00" |}.

(** The references of the files of [files] whose [stat] and time
    conversion succeed, in the order of [files]. *)
Definition references_of (st : Storage) (files : list Path) : list AfsRef :=
  flat_map
    (fun file_path =>
       match stat_iso st file_path with
       | Modified last_modified =>
           [{| afs_path := file_path;
               afs_last_modified := last_modified;
               afs_type := "afs" |}]
       | _ => []
       end)
    files.

(** A root holding [a.py], [b.py], [c.py] and [d.py], where [stat] fails
    on [b.py] and the time conversion fails on [c.py]. *)
Definition failing_storage : Storage :=
  {| exists_raises := false;
     root_node := Some (Dir true [("a.py", File); ("b.py", File);
                                  ("c.py", File); ("d.py", File)]);
     stat_iso := fun p =>
       if String.eqb (List.last p EmptyString) "b.py" then StatFails
       else if String.eqb (List.last p EmptyString) "c.py" then TimeFails
       else Modified "2024-01-01T00:00:00" |}.

(** A root on which [exists] raises. *)
Definition forbidden_storage : Storage :=
  {| exists_raises := true;
     root_node := None;
     stat_iso := fun _ => StatFails |}.

(** [s] is ASCII text: every character has a code below 128. *)
Definition is_ascii (s : string) : bool :=
  forallb (fun c => (nat_of_ascii c <? 128)%nat) (list_ascii_of_string s).

Definition IsAscii (s : string) : Prop := is_ascii s = true.

(** Two characters are the same up to case: they are equal, or one is a
    capital letter, A (65) to Z (90), and the other the small letter 32
    codes after it.  This is stated on the codes, not through
    [PyStr.lower]. *)
Definition SameLetter (c d : ascii) : Prop :=
  c = d \/
  ((65 <= nat_of_ascii c <= 90)%nat /\
   nat_of_ascii d = (nat_of_ascii c + 32)%nat) \/
  ((65 <= nat_of_ascii d <= 90)%nat /\
   nat_of_ascii c = (nat_of_ascii d + 32)%nat).

(** Two strings are the same up to case: same length, and the same
    letter up to case at every position. *)
Inductive SameIgnoringCase : string -> string -> Prop :=
| Same_empty : SameIgnoringCase EmptyString EmptyString
| Same_letter (c d : ascii) (s t : string) :
    SameLetter c d -> SameIgnoringCase s t ->
    SameIgnoringCase (String c s) (String d t).


(** The reference built from a result's [file] and [repository]
    dictionaries: a missing key gives the empty string. *)
Definition reference_of (file_info repo_info : gmap string PyVal) : Sourcegraph.CodeRef :=
  {| Sourcegraph.path := default (VStr EmptyString) (file_info !! "path");
     Sourcegraph.repo := default (VStr EmptyString) (repo_info !! "name");
     Sourcegraph.url := default (VStr EmptyString) (file_info !! "url");
     Sourcegraph.last_modified := VNone;
     Sourcegraph.author := VNone;
     Sourcegraph.type := "code" |}.

(** A result is typed as a file match. *)
Definition IsFileMatch (result : PyVal) : Prop :=
  exists m, result = VDict m /\ m !! "__typename" = Some (VStr "FileMatch").

(** The response of the repository's parser test. *)
Definition test_entry : gmap string PyVal :=
  <["__typename" := VStr "FileMatch"]>
    (<["file" := VDict (<["path" := VStr "test/file.py"]>
                          {["url" := VStr "https://sourcegraph.com/test/file.py"]})]>
       {["repository" := VDict {["name" := VStr "test-repo"]}]}).

Definition test_response : gmap string PyVal :=
  {["data" := VDict {["search" := VDict {["results" :=
      VDict {["results" := VList [VDict test_entry]]}]}]}]}.

(** The names of the default sections, in source order. *)
Definition section_names : list string :=
  ["sourcegraph"; "afs"; "llm"; "logging"; "performance"].

(** [config[key][subkey]], when [config[key]] is a dictionary holding
    [subkey] *)
Definition lookup2 (config : gmap string PyVal) (key subkey : string)
  : option PyVal :=
  match config !! key with
  | Some (VDict m) => m !! subkey
  | _ => None
  end.

(** What the merge leaves under a default section [key] with defaults
    [d]: the defaults if the user has no such section, else the user's
    section completed by the defaults. *)
Definition merged_section (config : gmap string PyVal) (key : string)
    (d : gmap string PyVal) : PyVal :=
  match config !! key with
  | Some (VDict m) => VDict (m ∪ d)
  | _ => VDict d
  end.

(** The user file of the repository's configuration test: an endpoint
    and a root path, nothing else. *)
Definition test_config : gmap string PyVal :=
  <["sourcegraph" :=
      VDict {["endpoint" :=
                VStr "https://custom.sourcegraph.com/.api/graphql"]}]>
    {["afs" := VDict {["root_path" := VStr "/custom/afs/path"]}]}.

(** [Listing tree names es]: from [tree], the directory names [names],
    followed in order through directories that can be listed, lead to a
    directory that can be listed and whose entries are [es]. *)
Inductive Listing : Node -> list string -> list (string * Node) -> Prop :=
| Listing_here (es : list (string * Node)) :
    Listing (Dir true es) [] es
| Listing_step (es : list (string * Node)) (name : string) (child : Node)
    (names : list string) (es' : list (string * Node)) :
    In (name, child) es -> Listing child names es' ->
    Listing (Dir true es) (name :: names) es'.

(** Every step of [names], taken from [top], passes the caller's edit of
    [dirs]. *)
Fixpoint all_kept (keep : Path -> string -> bool) (top : Path)
    (names : list string) : bool :=
  match names with
  | [] => true
  | name :: rest => keep top name && all_kept keep (top ++ [name]) rest
  end.

(** A name is hidden: it begins with ['.']. *)
Definition hidden (name : string) : bool := PyStr.startswith name ".".

(** The number of directory levels of a tree: 0 for a file, 1 for a
    directory without sub-directory. *)
Fixpoint height (n : Node) : nat :=
  match n with
  | File => 0
  | Dir _ es =>
      S ((fix go (l : list (string * Node)) : nat :=
            match l with
            | [] => 0
            | e :: r => Nat.max (height (snd e)) (go r)
            end) es)
  end.

(** [result.get("__typename") == "FileMatch"] on a dictionary *)
Definition is_file_match (m : gmap string PyVal) : bool :=
  eq_str (default VNone (m !! "__typename")) "FileMatch".

(** The dictionary under [key], empty when the key is missing. *)
Definition sub_dict (m : gmap string PyVal) (key : string)
  : gmap string PyVal :=
  match m !! key with
  | Some (VDict d) => d
  | _ => ∅
  end.

(** [m !! key] is a dictionary or is missing. *)
Definition DictOrMissing (m : gmap string PyVal) (key : string) : Prop :=
  m !! key = None \/ exists d, m !! key = Some (VDict d).

(** An element of the results on which the loop raises: it is not a
    dictionary, or it is a file match whose [file] or [repository] is
    present and not a dictionary. *)
Definition Malformed (result : PyVal) : Prop :=
  (forall m, result <> VDict m) \/
  exists m, result = VDict m /\ is_file_match m = true /\
            (~ DictOrMissing m "file" \/ ~ DictOrMissing m "repository").

(** A response holding [results] at [data.search.results.results]. *)
Definition response_of (results : PyVal) : PyVal :=
  VDict {["data" := VDict {["search" := VDict {["results" :=
    VDict {["results" := results]}]}]}]}.

(** A result of another type than [FileMatch]. *)
Definition repository_entry : gmap string PyVal :=
  <["__typename" := VStr "Repository"]> {["name" := VStr "test-repo"]}.

(** A file match without [file] and without [repository]. *)
Definition bare_match : gmap string PyVal :=
  {["__typename" := VStr "FileMatch"]}.

(** A file match whose [file] is present and is [None]. *)
Definition null_file_match : gmap string PyVal :=
  <["__typename" := VStr "FileMatch"]> {["file" := VNone]}.

(** A value that is neither a string, a list nor a dictionary: [in] on
    it raises [TypeError]. *)
Definition Scalar (v : PyVal) : Prop :=
  match v with
  | VNone | VBool _ | VInt _ => True
  | VStr _ | VList _ | VDict _ => False
  end.

(** The sections the defaults name are mappings where the user's
    configuration has them. *)
Definition SectionsAreDicts (config : gmap string PyVal) : Prop :=
  forall key v,
    In key section_names -> config !! key = Some v -> exists m, v = VDict m.

(** Only the [config.yaml] of the current directory exists, and holds
    the user file of the repository's configuration test. *)
Definition test_files : ConfigLoad.Files :=
  fun p => if String.eqb p "./config.yaml"
           then Some (VDict test_config) else None.

(** The character [c] is not among those of [s]. *)
Definition Lacks (c : ascii) (s : string) : Prop :=
  ~ In c (list_ascii_of_string s).

(** [sep.join(l)] *)
Fixpoint join (sep : string) (l : list string) : string :=
  match l with
  | [] => EmptyString
  | [x] => x
  | x :: rest => x +:+ sep +:+ join sep rest
  end.

(** A text on one line, without blank at either end. *)
Definition OneLineStripped (s : string) : Prop :=
  Lacks (ascii_of_nat 10) s /\ SummaryText.strip s = s.

(** A step as the reply format lists it: non-empty, on one line, without
    [;] and without blank at either end. *)
Definition CleanStep (s : string) : Prop :=
  s <> EmptyString /\ OneLineStripped s /\ Lacks ";" s.

(* ================================================================== *)
(** * Part III: properties                                             *)
(* ================================================================== *)

(** ** Strings *)

(** [simpl] is to unfold string concatenation on a constructor. *)
#[local] Arguments String.append !s1 s2 / : simpl nomatch.

Section StringFacts.

Lemma app_assoc_s (a b c : string) : (a +:+ b) +:+ c = a +:+ (b +:+ c).
Proof. induction a as [|x a IH]; simpl; [reflexivity | now rewrite IH]. Qed.

Lemma app_empty_r (a : string) : a +:+ EmptyString = a.
Proof. induction a as [|x a IH]; simpl; [reflexivity | now rewrite IH]. Qed.

Lemma startswith_spec (s p : string) :
  PyStr.startswith s p = true <-> exists r, s = p +:+ r.
Proof.
  revert s. induction p as [|c p IH]; intros s; simpl.
  - split; [intros _; now exists s | reflexivity].
  - destruct s as [|d s].
    + split; [discriminate | intros [r Hr]; discriminate].
    + destruct (Ascii.eqb_spec c d) as [->|Hne].
      * rewrite IH. split; intros [r Hr]; exists r.
        -- now rewrite Hr.
        -- now injection Hr.
      * split; [discriminate | intros [r Hr]; injection Hr; congruence].
Qed.

Lemma startswith_app (p r : string) : PyStr.startswith (p +:+ r) p = true.
Proof. apply startswith_spec. now exists r. Qed.

Lemma startswith_false (s p : string) :
  (forall r, s <> p +:+ r) -> PyStr.startswith s p = false.
Proof.
  intros H. destruct (PyStr.startswith s p) eqn:E; [|reflexivity].
  apply startswith_spec in E as [r Hr]. now destruct (H r).
Qed.

Lemma slice_from_app (p r : string) :
  PyStr.slice_from (String.length p) (p +:+ r) = r.
Proof. induction p as [|c p IH]; simpl; [reflexivity | exact IH]. Qed.

Lemma contains_spec (sub s : string) :
  PyStr.contains sub s = true <-> Substring sub s.
Proof.
  unfold Substring. induction s as [|c s IH]; simpl.
  - rewrite orb_false_r, startswith_spec. split.
    + intros [r Hr]. exists EmptyString, r. exact Hr.
    + intros [pre [post H]]. destruct pre; [now exists post|discriminate].
  - rewrite orb_true_iff, IH, startswith_spec. split.
    + intros [[r Hr]|[pre [post H]]].
      * exists EmptyString, r. exact Hr.
      * exists (String c pre), post. simpl. now rewrite H.
    + intros [pre [post H]]. destruct pre as [|d pre]; simpl in H.
      * left. now exists post.
      * right. exists pre, post. now injection H.
Qed.

Lemma contains_empty (s : string) : PyStr.contains EmptyString s = true.
Proof. destruct s; reflexivity. Qed.

Lemma NoDot_cons (c : ascii) (s : string) :
  NoDot (String c s) -> c <> "."%char /\ NoDot s.
Proof.
  intros H. split.
  - intros ->. exact (H EmptyString s eq_refl).
  - intros pre post ->. exact (H (String c pre) post eq_refl).
Qed.

Lemma split_nonempty (sep : ascii) (s : string) : PyStr.split sep s <> [].
Proof.
  destruct s as [|c s]; simpl; [discriminate|].
  destruct (Ascii.eqb c sep); [discriminate|].
  destruct (PyStr.split sep s); discriminate.
Qed.

Lemma split_NoDot (s : string) : NoDot s -> PyStr.split "." s = [s].
Proof.
  induction s as [|c s IH]; intros H; simpl; [reflexivity|].
  apply NoDot_cons in H as [Hc Hs].
  destruct (Ascii.eqb_spec c "."%char) as [->|_]; [congruence|].
  now rewrite (IH Hs).
Qed.

Lemma index_last_cons (x : string) (l : list string) :
  l <> [] -> PyStr.index_last (x :: l) = PyStr.index_last l.
Proof. destruct l; [congruence | reflexivity]. Qed.

Lemma split_app_two (sep : ascii) (pre b : string) :
  (2 <= length (PyStr.split sep (pre +:+ String sep b)))%nat.
Proof.
  induction pre as [|c pre IH]; simpl.
  - rewrite Ascii.eqb_refl. simpl.
    pose proof (split_nonempty sep b).
    destruct (PyStr.split sep b); simpl; [congruence | lia].
  - destruct (Ascii.eqb c sep); simpl; [lia|].
    destruct (PyStr.split sep (pre +:+ String sep b)); simpl in *; lia.
Qed.

Lemma index_last_split_app (sep : ascii) (pre b : string) :
  PyStr.index_last (PyStr.split sep (pre +:+ String sep b))
  = PyStr.index_last (PyStr.split sep b).
Proof.
  induction pre as [|c pre IH]; simpl.
  - rewrite Ascii.eqb_refl. apply index_last_cons, split_nonempty.
  - destruct (Ascii.eqb c sep).
    + rewrite index_last_cons by apply split_nonempty. exact IH.
    + pose proof (split_app_two sep pre b) as H2. rewrite <- IH.
      destruct (PyStr.split sep (pre +:+ String sep b)) as [|h [|h' t]];
        simpl in *; try lia. reflexivity.
Qed.

End StringFacts.

Lemma NoDot_of_contains (s : string) :
  PyStr.contains "." s = false -> NoDot s.
Proof.
  intros H pre post E.
  assert (PyStr.contains "." s = true) as C; [|congruence].
  apply contains_spec. exists pre, post. exact E.
Qed.

Lemma not_prefix_of_startswith (s p : string) :
  PyStr.startswith s p = false -> forall r, s <> p +:+ r.
Proof.
  intros H r ->. now rewrite startswith_app in H.
Qed.

(** ** Query normalisation *)

Section Normalisation.

Lemma extract_job (r : string) : Trace._extract_base_name ("job:" +:+ r) = r.
Proof. reflexivity. Qed.

Lemma extract_table (r : string) :
  Trace._extract_base_name ("table:" +:+ r)
  = default EmptyString (PyStr.index_last (PyStr.split "." r)).
Proof. reflexivity. Qed.

Lemma extract_other (q : string) :
  PyStr.startswith q "job:" = false ->
  PyStr.startswith q "table:" = false ->
  Trace._extract_base_name q = q.
Proof. intros Hj Ht. unfold Trace._extract_base_name. now rewrite Hj, Ht. Qed.

Lemma extract_table_nodot (r : string) :
  NoDot r -> Trace._extract_base_name ("table:" +:+ r) = r.
Proof. intros H. rewrite extract_table, split_NoDot by exact H. reflexivity. Qed.

Lemma extract_table_last (pre b : string) :
  NoDot b -> Trace._extract_base_name ("table:" +:+ pre +:+ String "." b) = b.
Proof.
  intros H. rewrite extract_table, index_last_split_app, split_NoDot by exact H.
  reflexivity.
Qed.

Lemma extract_agree (q : string) :
  Trace._extract_base_name q = Traceit._extract_base_name q.
Proof. reflexivity. Qed.

Lemma base_name_rules_trace (q : string) :
  BaseNameRules Trace._extract_base_name q.
Proof.
  repeat split.
  - subst q. reflexivity.
  - subst q. apply extract_job.
  - subst q. reflexivity.
  - subst q. apply extract_table_nodot.
  - intros pre b -> Hb. subst q. apply extract_table_last, Hb.
  - unfold kind_of. now rewrite !startswith_false.
  - apply extract_other; now apply startswith_false.
Qed.

(** C4: query normalisation is a function defined on every query, and it
    follows the prefix rules in order, in both implementations: for a
    query [job:r] the base name is [r]; for a query [table:r] it is the
    part of [r] behind its last ['.'], and [r] itself when [r] has no
    ['.']; for any other query it is the query unchanged, and the kind is
    [FileName]. *)
Theorem C4_base_name_rules (q : string) :
  BaseNameRules Trace._extract_base_name q /\
  BaseNameRules Traceit._extract_base_name q.
Proof.
  split; [apply base_name_rules_trace|].
  pose proof (base_name_rules_trace q) as H.
  unfold BaseNameRules in *. exact H.
Qed.

(** The examples of the specification, through the rules of C4. *)
Lemma C4_base_name_rules_witness :
  Trace._extract_base_name "job:daily_prices" = "daily_prices" /\
  Trace._extract_base_name "table:analytics.pnl" = "pnl" /\
  Traceit._extract_base_name "table:pnl" = "pnl" /\
  (kind_of "file.py" = FileName /\
   Traceit._extract_base_name "file.py" = "file.py").
Proof.
  split; [|split; [|split]].
  - destruct (C4_base_name_rules "job:daily_prices") as [[Hj _] _].
    exact (proj2 (Hj "daily_prices" eq_refl)).
  - destruct (C4_base_name_rules "table:analytics.pnl") as [[_ [Ht _]] _].
    destruct (Ht "analytics.pnl" eq_refl) as [_ [_ Hlast]].
    apply (Hlast "analytics" "pnl" eq_refl).
    apply NoDot_of_contains. reflexivity.
  - destruct (C4_base_name_rules "table:pnl") as [_ [_ [Ht _]]].
    destruct (Ht "pnl" eq_refl) as [_ [Hno _]].
    apply Hno. apply NoDot_of_contains. reflexivity.
  - destruct (C4_base_name_rules "file.py") as [_ [_ [_ Ho]]].
    apply Ho; apply not_prefix_of_startswith; reflexivity.
Defined.

(** C10: the two filesystem clients compute the same base name for every
    query. *)
Theorem C10_base_name_agree (q : string) :
  Trace._extract_base_name q = Traceit._extract_base_name q.
Proof. unfold Trace._extract_base_name, Traceit._extract_base_name. reflexivity. Qed.

Lemma build_table (r : string) :
  Sourcegraph._build_search_query ("table:" +:+ r)
  = "type:file " +:+ Sourcegraph.dquote +:+ r +:+ Sourcegraph.dquote
    +:+ " (lang:sql OR lang:python)".
Proof. reflexivity. Qed.

(** C2, as stated, fails: for [table:analytics.pnl] the filesystem client
    matches against [pnl], but the query built for the remote search
    quotes [analytics.pnl], and is not the query that quotes [pnl]. *)
Lemma C2_counterexample :
  Trace._extract_base_name "table:analytics.pnl" = "pnl" /\
  Sourcegraph._build_search_query "table:analytics.pnl"
  = "type:file " +:+ Sourcegraph.dquote +:+ "analytics.pnl"
    +:+ Sourcegraph.dquote +:+ " (lang:sql OR lang:python)" /\
  Sourcegraph._build_search_query "table:analytics.pnl"
  <> "type:file " +:+ Sourcegraph.dquote +:+ "pnl"
     +:+ Sourcegraph.dquote +:+ " (lang:sql OR lang:python)".
Proof.
  split; [reflexivity|]. split; [reflexivity|].
  intros H. discriminate H.
Qed.

(** C2, amended: for a query [table:schema.name], where [name] has no
    ['.'], the filesystem clients match against [name], the last segment;
    the remote client's search query quotes the whole remainder
    [schema.name]. *)
Theorem C2_table_query (schema name : string) :
  NoDot name ->
  let q := "table:" +:+ schema +:+ String "." name in
  Trace._extract_base_name q = name /\
  Traceit._extract_base_name q = name /\
  Sourcegraph._build_search_query q
  = "type:file " +:+ Sourcegraph.dquote +:+ (schema +:+ String "." name)
    +:+ Sourcegraph.dquote +:+ " (lang:sql OR lang:python)".
Proof.
  intros H q. split; [|split].
  - apply extract_table_last, H.
  - rewrite <- extract_agree. apply extract_table_last, H.
  - apply build_table.
Qed.

Lemma C2_table_query_witness :
  NoDot "pnl" /\
  Trace._extract_base_name "table:analytics.pnl" = "pnl" /\
  Traceit._extract_base_name "table:analytics.pnl" = "pnl" /\
  Sourcegraph._build_search_query "table:analytics.pnl"
  = "type:file " +:+ Sourcegraph.dquote +:+ "analytics.pnl"
    +:+ Sourcegraph.dquote +:+ " (lang:sql OR lang:python)".
Proof.
  assert (NoDot "pnl") as H by (apply NoDot_of_contains; reflexivity).
  split; [exact H | exact (C2_table_query "analytics" "pnl" H)].
Defined.

End Normalisation.

(** ** The walk *)

Section Walk.

Lemma os_walk_dir (keep : Path -> string -> bool) (top : Path)
    (es : list (string * Node)) :
  os_walk keep top (Dir true es)
  = (top, List.filter (keep top) (dir_names es), file_names es)
    :: walk_children keep top es.
Proof.
  simpl. f_equal. unfold walk_children.
  induction es as [|[name child] r IH]; simpl; [reflexivity|].
  destruct (is_dir child && keep top name); simpl; now rewrite IH.
Qed.

Lemma in_walk_children (keep : Path -> string -> bool) top es item :
  In item (walk_children keep top es) <->
  exists name child,
    In (name, child) es /\ is_dir child = true /\ keep top name = true /\
    In item (os_walk keep (top ++ [name]) child).
Proof.
  unfold walk_children. rewrite in_flat_map. split.
  - intros [[name child] [Hin H]]. simpl in H.
    destruct (is_dir child) eqn:Ed, (keep top name) eqn:Ek; simpl in H;
      try contradiction.
    exists name, child. auto.
  - intros (name & child & Hin & Hd & Hk & H).
    exists (name, child). simpl. rewrite Hd, Hk. auto.
Qed.

(** Every directory that the walk lists is the top, or was reached by a
    last step that [keep] allowed. *)
Lemma os_walk_steps (keep : Path -> string -> bool) (n : Node) :
  forall top root dirs files,
    In (root, dirs, files) (os_walk keep top n) ->
    exists names,
      root = top ++ names /\
      (names = [] \/
       exists parent name,
         names = parent ++ [name] /\ keep (top ++ parent) name = true).
Proof.
  induction n as [|rd es IH] using Node_nested_ind; intros top root dirs files H.
  - contradiction.
  - destruct rd; [|contradiction].
    rewrite os_walk_dir in H. destruct H as [H|H].
    + injection H as <- _ _. exists []. rewrite app_nil_r. auto.
    + apply in_walk_children in H as (name & child & Hin & _ & Hk & H).
      rewrite List.Forall_forall in IH.
      destruct (IH (name, child) Hin _ _ _ _ H) as (names & -> & Hn).
      exists (name :: names). split.
      * now rewrite <- app_assoc.
      * right. destruct Hn as [->|(parent & nm & -> & Hp)].
        -- exists [], name. rewrite app_nil_r. auto.
        -- exists (name :: parent), nm. split; [reflexivity|].
           now rewrite <- app_assoc in Hp.
Qed.

(** What a listed directory yields for its files: the top's own files
    for the first item. *)
Lemma os_walk_top (keep : Path -> string -> bool) top es :
  In (top, List.filter (keep top) (dir_names es), file_names es)
     (os_walk keep top (Dir true es)).
Proof. rewrite os_walk_dir. now left. Qed.

(** A kept, listable sub-directory of the top is listed in turn. *)
Lemma os_walk_child (keep : Path -> string -> bool) top es name es' :
  In (name, Dir true es') es -> keep top name = true ->
  In (top ++ [name], List.filter (keep (top ++ [name])) (dir_names es'),
      file_names es')
     (os_walk keep top (Dir true es)).
Proof.
  intros Hin Hk. rewrite os_walk_dir. right.
  apply in_walk_children. exists name, (Dir true es').
  repeat split; try assumption. apply os_walk_top.
Qed.

(** The walk of the top lists the top once, with its own entries. *)
Lemma os_walk_at_top (keep : Path -> string -> bool) top es dirs files :
  In (top, dirs, files) (os_walk keep top (Dir true es)) ->
  files = file_names es.
Proof.
  rewrite os_walk_dir. intros [H|H].
  - now injection H.
  - apply in_walk_children in H as (name & child & _ & _ & _ & H).
    apply os_walk_steps in H as (names & E & _).
    rewrite <- app_assoc in E. apply (f_equal (@length string)) in E.
    rewrite length_app in E. simpl in E. lia.
Qed.

End Walk.

(** ** Matching files *)

Section Matching.

Lemma any_pattern_spec (ps : list Pattern) (file : string) :
  any_pattern ps file = true <-> exists p, In p ps /\ p file = true.
Proof. unfold any_pattern. apply existsb_exists. Qed.

Lemma path_last_inj (d d' : Path) (f f' : string) :
  d ++ [f] = d' ++ [f'] -> d = d' /\ f = f'.
Proof. apply app_inj_tail. Qed.

Lemma in_matches_trace self base root dirs files p :
  In p (Trace.matches_of self base (root, dirs, files)) <->
  exists file,
    In file files /\ p = root ++ [file] /\
    PyStr.contains (PyStr.lower base) (PyStr.lower file) = true /\
    any_pattern (Trace.compiled_patterns self) file = true.
Proof.
  unfold Trace.matches_of. rewrite in_flat_map. split.
  - intros (file & Hin & H). exists file.
    destruct (PyStr.contains _ _); [|contradiction].
    destruct (any_pattern _ _); [|contradiction].
    destruct H as [<-|[]]. auto.
  - intros (file & Hin & -> & Hc & Ha). exists file.
    rewrite Hc, Ha. split; [assumption | now left].
Qed.

Lemma in_matches_traceit self base root dirs files p :
  In p (Traceit.matches_of self base (root, dirs, files)) <->
  exists file,
    In file files /\ p = root ++ [file] /\
    PyStr.contains (PyStr.lower base) (PyStr.lower file) = true /\
    any_pattern (Traceit.compiled_patterns self) file = true.
Proof.
  unfold Traceit.matches_of. rewrite in_flat_map. split.
  - intros (file & Hin & H). exists file.
    destruct (PyStr.contains _ _); [|contradiction].
    destruct (any_pattern _ _); [|contradiction].
    destruct H as [<-|[]]. auto.
  - intros (file & Hin & -> & Hc & Ha). exists file.
    rewrite Hc, Ha. split; [assumption | now left].
Qed.

(** What [_find_matching_files] returns: the paths of the files met by
    the walk that pass both tests. *)
Lemma in_find_trace self tree base p :
  In p (Trace._find_matching_files self tree base) <->
  exists dir file,
    p = dir ++ [file] /\
    Encountered (os_walk Trace.keep_dir (Trace.root_path self) tree) dir file /\
    PyStr.contains (PyStr.lower base) (PyStr.lower file) = true /\
    any_pattern (Trace.compiled_patterns self) file = true.
Proof.
  unfold Trace._find_matching_files, Encountered. rewrite in_flat_map. split.
  - intros ([[root dirs] files] & Hin & H).
    apply in_matches_trace in H as (file & Hf & -> & Hc & Ha).
    exists root, file. eauto 8.
  - intros (dir & file & -> & (dirs & files & Hin & Hf) & Hc & Ha).
    exists (dir, dirs, files). split; [assumption|].
    apply in_matches_trace. eauto.
Qed.

Lemma in_find_traceit self tree base max_depth p :
  In p (Traceit._find_matching_files self tree base max_depth) <->
  exists dir file,
    p = dir ++ [file] /\
    Encountered (os_walk (Traceit.keep_dir self max_depth)
                         (Traceit.root_path self) tree) dir file /\
    PyStr.contains (PyStr.lower base) (PyStr.lower file) = true /\
    any_pattern (Traceit.compiled_patterns self) file = true.
Proof.
  unfold Traceit._find_matching_files, Encountered. rewrite in_flat_map. split.
  - intros ([[root dirs] files] & Hin & H).
    apply in_matches_traceit in H as (file & Hf & -> & Hc & Ha).
    exists root, file. eauto 8.
  - intros (dir & file & -> & (dirs & files & Hin & Hf) & Hc & Ha).
    exists (dir, dirs, files). split; [assumption|].
    apply in_matches_traceit. eauto.
Qed.

(** The two tests of the specification against the two of the code. *)
Lemma both_tests (ps : list Pattern) (base file : string) :
  PyStr.contains (PyStr.lower base) (PyStr.lower file) = true /\
  any_pattern ps file = true <->
  Substring (PyStr.lower base) (PyStr.lower file) /\
  exists p, In p ps /\ p file = true.
Proof. now rewrite contains_spec, any_pattern_spec. Qed.

(** *** Lower case against sameness up to case *)

(** The code of [lower_char c], as a function of the code of [c]. *)
Lemma lower_char_code (c : ascii) :
  nat_of_ascii (PyStr.lower_char c)
  = if ((65 <=? nat_of_ascii c) && (nat_of_ascii c <=? 90))%nat
    then (nat_of_ascii c + 32)%nat else nat_of_ascii c.
Proof.
  unfold PyStr.lower_char.
  destruct ((65 <=? nat_of_ascii c)%nat && (nat_of_ascii c <=? 90)%nat) eqn:E;
    [|reflexivity].
  apply andb_true_iff in E as [E1 E2].
  apply Nat.leb_le in E1, E2. apply nat_ascii_embedding. lia.
Qed.

Lemma nat_of_ascii_inj (c d : ascii) :
  nat_of_ascii c = nat_of_ascii d -> c = d.
Proof.
  intros H. rewrite <- (ascii_nat_embedding c), <- (ascii_nat_embedding d).
  now rewrite H.
Qed.

(** Two characters have the same lower case exactly when they are the
    same letter up to case. *)
Lemma lower_char_same (c d : ascii) :
  PyStr.lower_char c = PyStr.lower_char d <-> SameLetter c d.
Proof.
  unfold SameLetter. split.
  - intros H. apply (f_equal nat_of_ascii) in H.
    rewrite !lower_char_code in H.
    destruct (Nat.leb_spec 65 (nat_of_ascii c)),
             (Nat.leb_spec (nat_of_ascii c) 90),
             (Nat.leb_spec 65 (nat_of_ascii d)),
             (Nat.leb_spec (nat_of_ascii d) 90); simpl in H;
      first [ left; apply nat_of_ascii_inj; lia
            | right; left; lia
            | right; right; lia ].
  - intros H. apply nat_of_ascii_inj. rewrite !lower_char_code.
    destruct H as [->|[[Hc Hd]|[Hd Hc]]]; [reflexivity| |].
    + rewrite Hd.
      destruct (Nat.leb_spec 65 (nat_of_ascii c)),
               (Nat.leb_spec (nat_of_ascii c) 90),
               (Nat.leb_spec 65 (nat_of_ascii c + 32)),
               (Nat.leb_spec (nat_of_ascii c + 32) 90); simpl; lia.
    + rewrite Hc.
      destruct (Nat.leb_spec 65 (nat_of_ascii d)),
               (Nat.leb_spec (nat_of_ascii d) 90),
               (Nat.leb_spec 65 (nat_of_ascii d + 32)),
               (Nat.leb_spec (nat_of_ascii d + 32) 90); simpl; lia.
Qed.

Lemma lower_same (s : string) : forall t,
  PyStr.lower s = PyStr.lower t <-> SameIgnoringCase s t.
Proof.
  induction s as [|c s IH]; intros [|d t]; simpl.
  - split; [constructor | reflexivity].
  - split; [discriminate | inversion 1].
  - split; [discriminate | inversion 1].
  - split.
    + intros H. injection H as Hc Hs.
      constructor; [now apply lower_char_same | now apply IH].
    + inversion 1; subst. f_equal; [now apply lower_char_same | now apply IH].
Qed.





End Matching.

(** ** Depth of the traversal *)

Section Depth.

(** Every item of a walk is the listing of one directory, with [dirs] as
    the caller's edit left it. *)
Lemma os_walk_item (keep : Path -> string -> bool) (n : Node) :
  forall top root dirs files,
    In (root, dirs, files) (os_walk keep top n) ->
    exists es,
      dirs = List.filter (keep root) (dir_names es) /\ files = file_names es.
Proof.
  induction n as [|rd es IH] using Node_nested_ind; intros top root dirs files H.
  - contradiction.
  - destruct rd; [|contradiction].
    rewrite os_walk_dir in H. destruct H as [H|H].
    + injection H as <- <- <-. now exists es.
    + apply in_walk_children in H as (name & child & Hin & _ & _ & H).
      rewrite List.Forall_forall in IH. exact (IH (name, child) Hin _ _ _ _ H).
Qed.

Lemma current_depth_app self (names : list string) :
  Traceit.current_depth self (Traceit.root_path self ++ names)
  = Z.of_nat (length names).
Proof. unfold Traceit.current_depth. rewrite length_app. lia. Qed.

Lemma keep_dir_depth self max_depth root d :
  Traceit.keep_dir self max_depth root d = true ->
  (Traceit.current_depth self root < max_depth)%Z.
Proof.
  unfold Traceit.keep_dir.
  destruct (Z.geb_spec (Traceit.current_depth self root) max_depth);
    [discriminate | lia].
Qed.

Lemma keep_dir_hidden self max_depth root d :
  Traceit.keep_dir self max_depth root d = true ->
  PyStr.startswith d "." = false.
Proof.
  unfold Traceit.keep_dir.
  destruct (_ >=? _)%Z; [discriminate|].
  now destruct (PyStr.startswith d ".").
Qed.

(** No listed directory lies more than [max_depth] levels below the
    root. *)
Lemma traceit_walk_depth self max_depth tree root dirs files :
  In (root, dirs, files)
     (os_walk (Traceit.keep_dir self max_depth) (Traceit.root_path self) tree) ->
  exists n,
    LevelsBelow (Traceit.root_path self) root n /\
    (Z.of_nat n <= Z.max 0 max_depth)%Z.
Proof.
  intros H. apply os_walk_steps in H as (names & -> & Hn).
  exists (length names). split; [now exists names|].
  destruct Hn as [->|(parent & name & -> & Hk)]; [simpl; lia|].
  apply keep_dir_depth in Hk. rewrite current_depth_app in Hk.
  rewrite length_app. simpl. lia.
Qed.

(** The loop over the matching files: without a failing time conversion
    it appends the references of the files in order; a failing one ends
    it with what was collected before. *)
Lemma traceit_refs_loop_ok st files : forall acc,
  (forall p, In p files -> stat_iso st p <> TimeFails) ->
  Traceit.refs_loop st files acc = (acc ++ references_of st files, false).
Proof.
  induction files as [|p files IH]; intros acc H; simpl.
  - now rewrite app_nil_r.
  - assert (stat_iso st p <> TimeFails) as Hp by (apply H; now left).
    assert (forall q, In q files -> stat_iso st q <> TimeFails) as Hr
      by (intros q Hq; apply H; now right).
    destruct (stat_iso st p) as [t| |]; [| |congruence].
    + rewrite (IH _ Hr). now rewrite <- app_assoc.
    + exact (IH _ Hr).
Qed.

Lemma traceit_refs_loop_abort st before p after : forall acc,
  (forall q, In q before -> stat_iso st q <> TimeFails) ->
  stat_iso st p = TimeFails ->
  Traceit.refs_loop st (before ++ p :: after) acc
  = (acc ++ references_of st before, true).
Proof.
  induction before as [|q before IH]; intros acc H Hp; simpl.
  - rewrite Hp. now rewrite app_nil_r.
  - assert (stat_iso st q <> TimeFails) as Hq by (apply H; now left).
    assert (forall q', In q' before -> stat_iso st q' <> TimeFails) as Hr
      by (intros q' Hq'; apply H; now right).
    destruct (stat_iso st q) as [t| |]; [| |congruence].
    + rewrite (IH _ Hr Hp). now rewrite <- app_assoc.
    + exact (IH _ Hr Hp).
Qed.

Lemma refs_loop_agree st files : forall acc,
  Trace.refs_loop st files acc = Traceit.refs_loop st files acc.
Proof.
  induction files as [|p files IH]; intros acc; simpl; [reflexivity|].
  destruct (stat_iso st p); auto.
Qed.

Lemma in_references_of st files r :
  In r (references_of st files) <->
  In (afs_path r) files /\
  stat_iso st (afs_path r) = Modified (afs_last_modified r) /\
  afs_type r = "afs".
Proof.
  unfold references_of. rewrite in_flat_map. split.
  - intros (p & Hin & H). destruct (stat_iso st p) eqn:E; try contradiction.
    destruct H as [<-|[]]. simpl. auto.
  - intros (Hin & Hs & Ht). exists (afs_path r). split; [exact Hin|].
    rewrite Hs. left. destruct r; simpl in *. now subst.
Qed.

Lemma in_refs_loop st files : forall acc r,
  In r (fst (Traceit.refs_loop st files acc)) ->
  In r acc \/ In r (references_of st files).
Proof.
  induction files as [|p files IH]; intros acc r; simpl; [now left|].
  unfold references_of in *. simpl.
  destruct (stat_iso st p) as [t| |]; simpl.
  - intros H. apply IH in H as [H|H]; [|now right; right].
    apply in_app_or in H as [H|[<-|[]]]; [now left | now right; left].
  - intros H. apply IH in H as [H|H]; [now left | now right].
  - now left.
Qed.

Lemma in_search self st alive query max_depth r :
  In r (Traceit.search self st alive query max_depth) ->
  exists tree,
    root_node st = Some tree /\
    In (afs_path r)
       (Traceit._find_matching_files self tree
          (Traceit._extract_base_name query) max_depth).
Proof.
  unfold Traceit.search, Traceit.search_worker.
  destruct alive; [contradiction|].
  destruct (negb _); [contradiction|].
  destruct (root_node st) as [tree|]; [|contradiction].
  destruct (Traceit.refs_loop st _ []) as [refs raised] eqn:E.
  destruct raised; [contradiction|].
  intros H. exists tree. split; [reflexivity|].
  replace refs with (fst (Traceit.refs_loop st
    (Traceit._find_matching_files self tree
       (Traceit._extract_base_name query) max_depth) []))
    in H by now rewrite E.
  apply in_refs_loop in H as [[]|H].
  now apply in_references_of in H.
Qed.

(** C5, as stated, fails: with the default [max_depth] of 1 and a root
    whose only entry is the directory [a], holding [x.py], the traversal
    descends into [a] and returns [a/x.py], which is not among the root's
    immediate contents. *)
Lemma C5_counterexample :
  let self := Traceit.init ["/"; "afs"] None in
  let entries := [("a", Dir true [("x.py", File)])] in
  Traceit.default_max_depth = 1%Z /\
  file_names entries = [] /\
  Traceit._find_matching_files self (Dir true entries) "x"
    Traceit.default_max_depth
  = [["/"; "afs"; "a"; "x.py"]].
Proof. repeat split. Qed.

(** C5, amended: the traversal prunes descent by depth.  [max_depth]
    counts the directory levels below the root that are still listed: no
    listed directory lies deeper, and a directory at that depth has its
    [dirs] emptied.  Hence every match is a file of a directory at most
    [max_depth] levels below the root.  With [max_depth = 1], the
    default, each listable, non-hidden immediate sub-directory of the
    root is listed as well, and nothing below it.  With [max_depth = 0]
    the search only returns files that are entries of the root itself,
    never one that exists only in a sub-directory. *)
Theorem C5_depth_pruning (self : Traceit.AFSSearcher) (tree : Node)
    (max_depth : Z) :
  let top := Traceit.root_path self in
  let walk := os_walk (Traceit.keep_dir self max_depth) top tree in
  (forall root dirs files,
     In (root, dirs, files) walk ->
     (exists n, LevelsBelow top root n /\ (Z.of_nat n <= Z.max 0 max_depth)%Z) /\
     ((Traceit.current_depth self root >= max_depth)%Z -> dirs = [])) /\
  (forall base p,
     In p (Traceit._find_matching_files self tree base max_depth) ->
     exists dir file n,
       p = dir ++ [file] /\ LevelsBelow top dir n /\
       (Z.of_nat n <= Z.max 0 max_depth)%Z) /\
  (max_depth = 1%Z ->
   forall es name es',
     tree = Dir true es -> In (name, Dir true es') es ->
     PyStr.startswith name "." = false ->
     In (top ++ [name], [], file_names es') walk) /\
  (max_depth = 0%Z ->
   forall st still_alive query r,
     root_node st = Some tree ->
     In r (Traceit.search self st still_alive query max_depth) ->
     exists es file,
       tree = Dir true es /\ In file (file_names es) /\
       afs_path r = top ++ [file]).
Proof.
  intros top walk. split; [|split; [|split]].
  - intros root dirs files H. split.
    + exact (traceit_walk_depth _ _ _ _ _ _ H).
    + intros Hd. apply os_walk_item in H as (es & -> & _).
      induction (dir_names es) as [|d l IH]; simpl; [reflexivity|].
      unfold Traceit.keep_dir at 1.
      destruct (Z.geb_spec (Traceit.current_depth self root) max_depth);
        [exact IH | lia].
  - intros base p H.
    apply in_find_traceit in H as (dir & file & -> & (dirs & files & H & _) & _).
    destruct (traceit_walk_depth _ _ _ _ _ _ H) as (n & Hl & Hn).
    exists dir, file, n. auto.
  - intros -> es name es' -> Hin Hhid.
    assert (Traceit.keep_dir self 1 top name = true) as Hk.
    { unfold Traceit.keep_dir, top. replace (Traceit.root_path self)
        with (Traceit.root_path self ++ []) at 1 by apply app_nil_r.
      rewrite current_depth_app, Hhid. reflexivity. }
    assert (forall l,
              List.filter (Traceit.keep_dir self 1 (top ++ [name])) l = [])
      as Hnil.
    { induction l as [|d l IH]; simpl; [reflexivity|].
      unfold Traceit.keep_dir at 1. unfold top. rewrite current_depth_app.
      simpl. exact IH. }
    pose proof (os_walk_child _ top es name es' Hin Hk) as H.
    rewrite Hnil in H. exact H.
  - intros -> st alive query r Hroot H.
    apply in_search in H as (tree' & Hroot' & H).
    rewrite Hroot in Hroot'. injection Hroot' as <-.
    apply in_find_traceit in H as (dir & file & E & (dirs & files & H & Hf) & _).
    destruct (traceit_walk_depth _ _ _ _ _ _ H) as (n & (names & -> & Hlen) & Hn).
    assert (names = []) as -> by (destruct names; [reflexivity | simpl in *; lia]).
    rewrite app_nil_r in *.
    destruct tree as [|[|] es]; try contradiction.
    apply os_walk_at_top in H as ->.
    exists es, file. auto.
Qed.

End Depth.

(** ** Witnesses and the empty base name *)

Section FilesystemExamples.


Lemma C5_depth_pruning_witness :
  let self := Traceit.init ["/"; "afs"] None in
  let r := {| afs_path := ["/"; "afs"; "Test_File.py"];
              afs_last_modified := "2024-01-01T00:00:00";
              afs_type := "afs" |} in
  (In ("a", Dir true [("x.py", File)]) example_entries /\
   PyStr.startswith "a" "." = false /\
   In (["/"; "afs"] ++ ["a"], [], ["x.py"])
      (os_walk (Traceit.keep_dir self 1) ["/"; "afs"]
               (Dir true example_entries))) /\
  (In r (Traceit.search self example_storage false "test_file" 0) /\
   exists es file,
     Dir true example_entries = Dir true es /\ In file (file_names es) /\
     afs_path r = ["/"; "afs"] ++ [file]).
Proof.
  intros self r. split.
  - assert (In ("a", Dir true [("x.py", File)]) example_entries) as Hin
      by (right; right; left; reflexivity).
    split; [exact Hin|]. split; [reflexivity|].
    pose proof (C5_depth_pruning self (Dir true example_entries) 1) as H.
    cbv zeta in H. destruct H as (_ & _ & H & _).
    exact (H eq_refl example_entries "a" [("x.py", File)] eq_refl Hin eq_refl).
  - assert (In r (Traceit.search self example_storage false "test_file" 0))
      as Hin by (left; reflexivity).
    split; [exact Hin|].
    pose proof (C5_depth_pruning self (Dir true example_entries) 0) as H.
    cbv zeta in H. destruct H as (_ & _ & _ & H).
    exact (H eq_refl example_storage false "test_file" r eq_refl Hin).
Defined.

(** C1, as stated, fails: for the queries [job:] and [table:] the base
    name is empty, and the search of a root holding [a.py] returns the
    reference to [a.py] instead of nothing. *)
Lemma C1_counterexample :
  let st := {| exists_raises := false;
               root_node := Some (Dir true [("a.py", File)]);
               stat_iso := fun _ => Modified "2024-01-01T00:00:00" |} in
  let r := {| afs_path := ["/"; "afs"; "a.py"];
              afs_last_modified := "2024-01-01T00:00:00";
              afs_type := "afs" |} in
  Trace._extract_base_name "job:" = EmptyString /\
  Traceit._extract_base_name "table:" = EmptyString /\
  Trace.search (Trace.init ["/"; "afs"] None) st "job:" = inr [r] /\
  Traceit.search (Traceit.init ["/"; "afs"] None) st false "table:" 1 = [r].
Proof. repeat split. Qed.

(** C1, amended: for the queries [job:] and [table:], whose remainder is
    empty, the base name is the empty string, and the traversal of either
    filesystem client then reports a file it meets if and only if the
    file's name matches at least one of the configured patterns: the
    empty base name occurs in every name. *)
Theorem C1_empty_base_name (query : string) (dir : Path) (file : string) :
  query = "job:" \/ query = "table:" ->
  Trace._extract_base_name query = EmptyString /\
  Traceit._extract_base_name query = EmptyString /\
  (forall self tree,
     Encountered (os_walk Trace.keep_dir (Trace.root_path self) tree)
                 dir file ->
     (In (dir ++ [file])
         (Trace._find_matching_files self tree
            (Trace._extract_base_name query)) <->
      exists p, In p (Trace.compiled_patterns self) /\ p file = true)) /\
  (forall self tree max_depth,
     Encountered (os_walk (Traceit.keep_dir self max_depth)
                          (Traceit.root_path self) tree) dir file ->
     (In (dir ++ [file])
         (Traceit._find_matching_files self tree
            (Traceit._extract_base_name query) max_depth) <->
      exists p, In p (Traceit.compiled_patterns self) /\ p file = true)).
Proof.
  intros Hq.
  assert (Trace._extract_base_name query = EmptyString) as E
    by (destruct Hq as [->| ->]; reflexivity).
  assert (Traceit._extract_base_name query = EmptyString) as E'
    by (destruct Hq as [->| ->]; reflexivity).
  rewrite E, E'. split; [reflexivity|]. split; [reflexivity|].
  split.
  - intros self tree Henc. rewrite in_find_trace, <- any_pattern_spec. split.
    + intros (dir' & file' & Ep & _ & _ & Ha).
      apply path_last_inj in Ep as [_ <-]. exact Ha.
    + intros Ha. exists dir, file. simpl. rewrite contains_empty. auto.
  - intros self tree max_depth Henc.
    rewrite in_find_traceit, <- any_pattern_spec. split.
    + intros (dir' & file' & Ep & _ & _ & Ha).
      apply path_last_inj in Ep as [_ <-]. exact Ha.
    + intros Ha. exists dir, file. simpl. rewrite contains_empty. auto.
Qed.

Lemma C1_empty_base_name_witness :
  let self := Traceit.init ["/"; "afs"] None in
  ("job:" = "job:" \/ "job:" = "table:") /\
  Encountered (os_walk (Traceit.keep_dir self 1) (Traceit.root_path self)
                       (Dir true example_entries))
              ["/"; "afs"] "Test_File.py" /\
  (In (["/"; "afs"] ++ ["Test_File.py"])
      (Traceit._find_matching_files self (Dir true example_entries)
         (Traceit._extract_base_name "job:") 1) <->
   exists p, In p (Traceit.compiled_patterns self) /\ p "Test_File.py" = true).
Proof.
  intros self.
  assert (Encountered (os_walk (Traceit.keep_dir self 1)
                          (Traceit.root_path self) (Dir true example_entries))
                      ["/"; "afs"] "Test_File.py") as Henc.
  { exists ["a"], ["Test_File.py"; "test_file.txt"].
    split; left; reflexivity. }
  split; [left; reflexivity|]. split; [exact Henc|].
  destruct (C1_empty_base_name "job:" ["/"; "afs"] "Test_File.py"
              (or_introl eq_refl)) as (_ & _ & _ & H).
  exact (H self (Dir true example_entries) 1%Z Henc).
Defined.

End FilesystemExamples.

(** ** The request loop *)

Section Retry.

Import Sourcegraph.

(** [k] failed attempts that are retried: the loop sleeps after each and
    goes on with the next one. *)
Lemma request_loop_retries (max_retries : Z) (net : Transport) (k : nat) :
  forall remaining attempt eff,
    (forall i, (i < k)%nat ->
       exists e, attempt_once (net (posts eff + i)%nat) = inl e /\
                 is_RequestException e = true) ->
    (k <= remaining)%nat ->
    (Z.of_nat (attempt + k) < max_retries \/ k = 0%nat)%Z ->
    request_loop max_retries net remaining attempt eff
    = request_loop max_retries net (remaining - k) (attempt + k)
        {| sleeps := sleeps eff
                     ++ map (fun i => (2 ^ Z.of_nat i)%Z) (seq attempt k);
           posts := (posts eff + k)%nat |}.
Proof.
  induction k as [|k IH]; intros remaining attempt eff Hfail Hrem Hlt.
  - simpl. rewrite app_nil_r, Nat.sub_0_r, !Nat.add_0_r. now destruct eff.
  - destruct remaining as [|remaining]; [lia|].
    destruct (Hfail 0%nat ltac:(lia)) as (e & He & Hre).
    rewrite Nat.add_0_r in He. simpl request_loop at 1. rewrite He, Hre.
    destruct (Z.ltb_spec (Z.of_nat attempt) (max_retries - 1)); [|lia].
    rewrite IH.
    + simpl. rewrite <- app_assoc. simpl.
      repeat f_equal; lia.
    + intros i Hi. simpl. destruct (Hfail (S i) ltac:(lia)) as (e' & He' & Hre').
      exists e'. split; [|exact Hre'].
      rewrite Nat.add_succ_r in He'. exact He'.
    + lia.
    + destruct k; [right; reflexivity | left; lia].
Qed.

Lemma make_request_after (max_retries : Z) (net : Transport) (k : nat) :
  (Z.of_nat k < max_retries)%Z ->
  (forall i, (i < k)%nat ->
     exists e, attempt_once (net i) = inl e /\ is_RequestException e = true) ->
  _make_request max_retries net
  = request_loop max_retries net (Z.to_nat max_retries - k) k
      {| sleeps := backoff k; posts := k |}.
Proof.
  intros Hk Hfail. unfold _make_request.
  rewrite (request_loop_retries max_retries net k).
  - reflexivity.
  - exact Hfail.
  - lia.
  - destruct k; [right; reflexivity | left; simpl; lia].
Qed.

(** C3, as stated, fails: with [max_retries = 3], a first reply with
    status 404 does not stop the loop; it sleeps one second, posts again
    and returns the second reply. *)
Lemma C3_counterexample :
  let net : Transport := fun n =>
    match n with
    | O => inr {| status_code := 404; json := inr VNone |}
    | _ => inr {| status_code := 200; json := inr (VStr "ok") |}
    end in
  _make_request 3 net = (inr (VStr "ok"), {| sleeps := [1%Z]; posts := 2 |}).
Proof. reflexivity. Qed.

(** C3, amended: the request loop retries on every exception of the
    [requests] hierarchy: timeout, connection error and any HTTP error
    status, 4xx as well as 5xx, with the delays 1, 2, 4, ... seconds.
    After [k] such failures, with [k < max_retries]: a success is
    returned at once; an exception outside the hierarchy is raised at
    once; an exception of the hierarchy on the last attempt is raised
    without a further delay.  In each case exactly the [k] delays
    [backoff k] were slept and [k + 1] requests posted. *)
Theorem C3_retry_policy (max_retries : Z) (net : Transport) (k : nat) :
  (Z.of_nat k < max_retries)%Z ->
  (forall i, (i < k)%nat ->
     exists e, attempt_once (net i) = inl e /\ is_RequestException e = true) ->
  let done := {| sleeps := backoff k; posts := S k |} in
  (forall response,
     (400 <= status_code response < 600)%Z ->
     attempt_once (inr response) = inl (HTTPError (status_code response)) /\
     is_RequestException (HTTPError (status_code response)) = true) /\
  is_RequestException Timeout = true /\
  is_RequestException ConnectionError = true /\
  (forall data,
     attempt_once (net k) = inr data ->
     _make_request max_retries net = (inr data, done)) /\
  (forall e,
     attempt_once (net k) = inl e -> is_RequestException e = false ->
     _make_request max_retries net = (inl e, done)) /\
  (forall e,
     attempt_once (net k) = inl e -> is_RequestException e = true ->
     Z.of_nat k = (max_retries - 1)%Z ->
     _make_request max_retries net = (inl e, done)).
Proof.
  intros Hk Hfail done.
  pose proof (make_request_after max_retries net k Hk Hfail) as E.
  destruct (Z.to_nat max_retries - k)%nat as [|remaining] eqn:Er; [lia|].
  split; [|split; [reflexivity|split; [reflexivity|split; [|split]]]].
  - intros response [Hlo Hhi]. split; [|reflexivity]. simpl.
    destruct (Z.leb_spec 400 (status_code response)); [|lia].
    destruct (Z.ltb_spec (status_code response) 600); [|lia]. reflexivity.
  - intros data Hd. rewrite E. simpl. now rewrite Hd.
  - intros e He Hre. rewrite E. simpl. now rewrite He, Hre.
  - intros e He Hre Hlast. rewrite E. simpl. rewrite He, Hre.
    destruct (Z.ltb_spec (Z.of_nat k) (max_retries - 1)); [lia|]. reflexivity.
Qed.

(** A transport that fails twice, with a timeout and a status 503, then
    succeeds: with [max_retries = 3] the success value is returned after
    the two delays of 1 and 2 seconds. *)
Lemma C3_retry_policy_witness :
  let net : Transport := fun n =>
    match n with
    | 0%nat => inl Timeout
    | 1%nat => inr {| status_code := 503; json := inr VNone |}
    | _ => inr {| status_code := 200; json := inr (VStr "ok") |}
    end in
  (Z.of_nat 2 < 3)%Z /\
  _make_request 3 net = (inr (VStr "ok"), {| sleeps := [1; 2]%Z; posts := 3 |}).
Proof.
  intros net. split; [lia|].
  assert (forall i, (i < 2)%nat ->
            exists e, attempt_once (net i) = inl e /\
                      is_RequestException e = true) as Hfail.
  { intros i Hi. destruct i as [|[|i]]; [| |lia].
    - exists Timeout. split; reflexivity.
    - exists (HTTPError 503). split; reflexivity. }
  destruct (C3_retry_policy 3 net 2 ltac:(lia) Hfail) as (_ & _ & _ & H & _).
  exact (H (VStr "ok") eq_refl).
Defined.

End Retry.

(** ** The response parser *)

Section Parser.

Import Sourcegraph.

Lemma eq_str_true (v : PyVal) (s : string) :
  eq_str v s = true <-> v = VStr s.
Proof.
  destruct v; simpl; try (split; [discriminate | congruence]).
  rewrite String.eqb_eq. split; congruence.
Qed.

(** Only a file match yields a reference, which then has [None] for
    [last_modified] and [author]. *)
Lemma parse_result_some (result : PyVal) (ref : CodeRef) :
  parse_result result = inr (Some ref) ->
  IsFileMatch result /\
  last_modified ref = VNone /\ author ref = VNone /\ type ref = "code".
Proof.
  unfold parse_result, IsFileMatch.
  destruct result as [| | | | |m]; simpl; try discriminate.
  destruct (eq_str (default VNone (m !! "__typename")) "FileMatch") eqn:Et;
    [|discriminate].
  apply eq_str_true in Et.
  destruct (py_get (default (VDict ∅) (m !! "file")) "path" _) as [|p];
    [destruct (default (VDict ∅) (m !! "repository")); discriminate|].
  destruct (default (VDict ∅) (m !! "repository")) as [| | | | |rp];
    simpl; try discriminate.
  destruct (default (VDict ∅) (m !! "file")) as [| | | | |f];
    simpl; try discriminate.
  intros H. injection H as <-. split; [|auto].
  exists m. split; [reflexivity|].
  destruct (m !! "__typename") as [t|]; simpl in Et; [now subst | discriminate].
Qed.

(** A file match whose [file] and [repository] are dictionaries, or are
    missing, yields its reference, with the empty string for each missing
    field. *)
Lemma parse_result_file_match (m f rp : gmap string PyVal) :
  m !! "__typename" = Some (VStr "FileMatch") ->
  default (VDict ∅) (m !! "file") = VDict f ->
  default (VDict ∅) (m !! "repository") = VDict rp ->
  parse_result (VDict m) = inr (Some (reference_of f rp)).
Proof.
  intros Ht Hf Hr. unfold parse_result. simpl.
  rewrite Ht, Hf, Hr. reflexivity.
Qed.

Lemma in_parse_loop (items : list PyVal) :
  forall acc ref,
    In ref (parse_loop items acc) ->
    In ref acc \/
    exists result, In result items /\ parse_result result = inr (Some ref).
Proof.
  induction items as [|result rest IH]; intros acc ref H; simpl in H.
  - now left.
  - destruct (parse_result result) as [e|[r|]] eqn:E.
    + now left.
    + apply IH in H as [H|(x & Hx & Hr)].
      * apply in_app_or in H as [H|[<-|[]]]; [now left|].
        right. exists result. split; [now left | exact E].
      * right. exists x. split; [now right | exact Hr].
    + apply IH in H as [H|(x & Hx & Hr)]; [now left|].
      right. exists x. split; [now right | exact Hr].
Qed.

(** An absent key on the way to the results gives the empty list. *)
Lemma parse_missing (response : gmap string PyVal) :
  (response !! "data" = None ->
   _parse_search_results (VDict response) = []) /\
  (forall data,
     response !! "data" = Some (VDict data) ->
     (data !! "search" = None ->
      _parse_search_results (VDict response) = []) /\
     (forall search,
        data !! "search" = Some (VDict search) ->
        (search !! "results" = None ->
         _parse_search_results (VDict response) = []) /\
        (forall results,
           search !! "results" = Some (VDict results) ->
           results !! "results" = None ->
           _parse_search_results (VDict response) = []))).
Proof.
  unfold _parse_search_results, results_of. simpl. split.
  - intros ->. reflexivity.
  - intros data ->. simpl. split.
    + intros ->. reflexivity.
    + intros search ->. simpl. split.
      * intros ->. reflexivity.
      * intros results -> Hr. simpl. rewrite Hr. reflexivity.
Qed.

(** *** Lists of results *)

Lemma dict_or_missing_default (m : gmap string PyVal) (key : string) :
  DictOrMissing m key ->
  default (VDict ∅) (m !! key) = VDict (sub_dict m key).
Proof.
  unfold DictOrMissing, sub_dict. intros [->|[d ->]]; reflexivity.
Qed.

Lemma parse_result_dict (m : gmap string PyVal) :
  (is_file_match m = true ->
   DictOrMissing m "file" /\ DictOrMissing m "repository") ->
  parse_result (VDict m)
  = inr (if is_file_match m
         then Some (reference_of (sub_dict m "file") (sub_dict m "repository"))
         else None).
Proof.
  intros H. unfold parse_result, is_file_match in *. simpl.
  destruct (eq_str (default VNone (m !! "__typename")) "FileMatch");
    [|reflexivity].
  destruct (H eq_refl) as [Hf Hr].
  rewrite (dict_or_missing_default m "file" Hf).
  rewrite (dict_or_missing_default m "repository" Hr). reflexivity.
Qed.

Lemma parse_result_malformed (result : PyVal) :
  Malformed result -> exists e, parse_result result = inl e.
Proof.
  intros [H|(m & -> & Hfm & H)].
  - destruct result; try (eexists; reflexivity). now destruct (H m).
  - unfold parse_result, is_file_match in *. simpl. rewrite Hfm.
    unfold DictOrMissing in H.
    destruct (m !! "file") as [[| | | | |f]|] eqn:Ef; simpl;
      try (eexists; reflexivity);
      (destruct (m !! "repository") as [[| | | | |rp]|] eqn:Er; simpl;
       try (eexists; reflexivity));
      exfalso; destruct H as [H|H]; apply H;
      solve [left; reflexivity | right; eexists; reflexivity].
Qed.

Lemma parse_loop_dicts (ms : list (gmap string PyVal)) :
  forall acc,
    (forall m, In m ms -> is_file_match m = true ->
               DictOrMissing m "file" /\ DictOrMissing m "repository") ->
    parse_loop (map VDict ms) acc
    = acc ++ map (fun m => reference_of (sub_dict m "file")
                                        (sub_dict m "repository"))
                 (List.filter is_file_match ms).
Proof.
  induction ms as [|m ms IH]; intros acc H; simpl.
  - now rewrite app_nil_r.
  - rewrite parse_result_dict by (apply H; now left).
    destruct (is_file_match m);
      rewrite IH by (intros m' Hin Hfm; apply H; [now right | exact Hfm]).
    + now rewrite <- app_assoc.
    + reflexivity.
Qed.

Lemma parse_loop_stops (good rest : list PyVal) (bad : PyVal) :
  Malformed bad ->
  forall acc, parse_loop (good ++ bad :: rest) acc = parse_loop good acc.
Proof.
  intros Hbad. destruct (parse_result_malformed bad Hbad) as [e He].
  induction good as [|x good IH]; intros acc; simpl.
  - now rewrite He.
  - destruct (parse_result x) as [|[ref|]]; [reflexivity | apply IH | apply IH].
Qed.

End Parser.

Section ParserClaims.

Import Sourcegraph.

(** C7: the parser returns a list for every response value (it is a
    function without error result).  Every reference it returns comes
    from an element of the results that is typed [FileMatch], and has
    [last_modified] and [author] set to [None].  An absent [data],
    [search] or [results] key gives the empty list.  For a list of
    results of any length, the parser returns one reference for each
    [FileMatch] dictionary whose [file] and [repository] are dictionaries
    or are missing, in the order of the results, and none for a
    dictionary of another type; this goes on to the end of the list, or
    to the first element on which the loop raises (an element that is no
    dictionary, or a file match whose [file] or [repository] is present
    and is no dictionary, [None] for one), where the parser returns what
    it has collected.  The reference of a file match has [path], [url]
    and [repo] as found in [file] and [repository], and the empty string
    for each of them that is missing, be it the key or the whole
    dictionary. *)
Theorem C7_parse_search_results (response : PyVal) :
  (forall ref,
     In ref (_parse_search_results response) ->
     last_modified ref = VNone /\ author ref = VNone /\
     exists search_results items result,
       results_of response = inr search_results /\
       py_iter search_results = inr items /\
       In result items /\ IsFileMatch result /\
       parse_result result = inr (Some ref)) /\
  (forall m,
     response = VDict m ->
     (m !! "data" = None -> _parse_search_results response = []) /\
     (forall data,
        m !! "data" = Some (VDict data) ->
        (data !! "search" = None -> _parse_search_results response = []) /\
        (forall search,
           data !! "search" = Some (VDict search) ->
           (search !! "results" = None ->
            _parse_search_results response = []) /\
           (forall results,
              search !! "results" = Some (VDict results) ->
              results !! "results" = None ->
              _parse_search_results response = [])))) /\
  (forall (ms : list (gmap string PyVal)) (rest : list PyVal),
     results_of response = inr (VList (map VDict ms ++ rest)) ->
     (forall m, In m ms -> is_file_match m = true ->
                DictOrMissing m "file" /\ DictOrMissing m "repository") ->
     (rest = [] \/ exists bad rest', rest = bad :: rest' /\ Malformed bad) ->
     _parse_search_results response
     = map (fun m => reference_of (sub_dict m "file")
                                  (sub_dict m "repository"))
           (List.filter is_file_match ms)) /\
  (forall m : gmap string PyVal,
     let ref := reference_of (sub_dict m "file") (sub_dict m "repository") in
     last_modified ref = VNone /\ author ref = VNone /\
     (m !! "file" = None -> path ref = VStr EmptyString) /\
     (forall f, m !! "file" = Some (VDict f) ->
        (forall p, f !! "path" = Some p -> path ref = p) /\
        (f !! "path" = None -> path ref = VStr EmptyString)) /\
     (m !! "repository" = None -> repo ref = VStr EmptyString) /\
     (forall rp, m !! "repository" = Some (VDict rp) ->
        (forall r, rp !! "name" = Some r -> repo ref = r) /\
        (rp !! "name" = None -> repo ref = VStr EmptyString))).
Proof.
  split; [|split; [|split]].
  - intros ref H. unfold _parse_search_results in H.
    destruct (results_of response) as [|search_results] eqn:Er; [contradiction|].
    destruct (py_iter search_results) as [|items] eqn:Ei; [contradiction|].
    apply in_parse_loop in H as [[]|(result & Hin & Hp)].
    destruct (parse_result_some _ _ Hp) as (Hfm & Hl & Ha & _).
    split; [exact Hl|]. split; [exact Ha|].
    exists search_results, items, result. auto.
  - intros m ->. destruct (parse_missing m) as [H0 H1].
    split; [exact H0|]. intros data Hd. destruct (H1 data Hd) as [H2 H3].
    split; [exact H2|]. intros search Hs. destruct (H3 search Hs) as [H4 H5].
    split; [exact H4|]. intros results Hr. exact (H5 results Hr).
  - intros ms rest Hr Hwf Hrest.
    unfold _parse_search_results. rewrite Hr. simpl.
    destruct Hrest as [->|(bad & rest' & -> & Hbad)].
    + rewrite app_nil_r. now rewrite parse_loop_dicts by exact Hwf.
    + rewrite (parse_loop_stops _ _ _ Hbad).
      now rewrite parse_loop_dicts by exact Hwf.
  - intros m ref. subst ref. unfold reference_of, sub_dict. simpl.
    split; [reflexivity|]. split; [reflexivity|].
    split; [|split; [|split]].
    + intros ->. reflexivity.
    + intros f ->. split; [intros p ->|intros ->]; reflexivity.
    + intros ->. reflexivity.
    + intros rp ->. split; [intros r ->|intros ->]; reflexivity.
Qed.

(** A response with five results: a repository, the file match of the
    repository's parser test, a file match without [file] and
    [repository], a file match whose [file] is [None], and the file match
    of the test again.  The parser returns the references of the second
    and of the third, the latter with empty strings; the fourth ends the
    loop, so that the fifth is not reported. *)
Lemma C7_parse_search_results_witness :
  (forall m, In m [repository_entry; test_entry; bare_match] ->
             is_file_match m = true ->
             DictOrMissing m "file" /\ DictOrMissing m "repository") /\
  Malformed (VDict null_file_match) /\
  _parse_search_results
    (response_of
       (VList (map VDict [repository_entry; test_entry; bare_match]
               ++ [VDict null_file_match; VDict test_entry])))
  = [{| path := VStr "test/file.py";
        repo := VStr "test-repo";
        url := VStr "https://sourcegraph.com/test/file.py";
        last_modified := VNone;
        author := VNone;
        type := "code" |};
     {| path := VStr EmptyString;
        repo := VStr EmptyString;
        url := VStr EmptyString;
        last_modified := VNone;
        author := VNone;
        type := "code" |}].
Proof.
  assert (forall m, In m [repository_entry; test_entry; bare_match] ->
                    is_file_match m = true ->
                    DictOrMissing m "file" /\ DictOrMissing m "repository")
    as Hwf.
  { intros m [<-|[<-|[<-|[]]]] Hfm; try discriminate Hfm.
    - split; right; eexists; reflexivity.
    - split; left; reflexivity. }
  assert (Malformed (VDict null_file_match)) as Hbad.
  { right. exists null_file_match. split; [reflexivity|].
    split; [reflexivity|]. left. intros [H|[d H]]; discriminate H. }
  split; [exact Hwf|]. split; [exact Hbad|].
  destruct (C7_parse_search_results
              (response_of
                 (VList (map VDict [repository_entry; test_entry; bare_match]
                         ++ [VDict null_file_match; VDict test_entry]))))
    as (_ & _ & H & _).
  rewrite (H [repository_entry; test_entry; bare_match]
             [VDict null_file_match; VDict test_entry] eq_refl Hwf).
  - reflexivity.
  - right. exists (VDict null_file_match), [VDict test_entry]. auto.
Defined.

End ParserClaims.

(** ** The fallback summary *)

Section Fallback.

Context {CodeRefT AfsRefT : Type}.
Variable build_prompt : string -> list CodeRefT -> list AfsRefT -> string.
Variable parse_summary : string -> Summary.

(** Without a client, [summarize] returns the fixed summary and sends
    nothing. *)
Lemma summarize_no_client self query
    (code_refs : list CodeRefT) (afs_refs : list AfsRefT) :
  client self = None ->
  summarize build_prompt parse_summary self query code_refs afs_refs
  = ({| risk_level := "UNKNOWN";
        impact_summary := "LLM summarization not available";
        suggested_next_steps := [] |}, []).
Proof. intros H. unfold summarize. now rewrite H. Qed.

(** No client is constructed for another provider, or without the
    [openai] package. *)
Lemma init_no_client (available : bool) (OpenAI : Client)
    (provider model : string) :
  provider <> "openai" \/ available = false ->
  client (ImpactSummarizer_init available OpenAI provider model) = None.
Proof.
  intros [H| ->]; simpl.
  - destruct (String.eqb_spec provider "openai"); [contradiction|reflexivity].
  - now rewrite andb_false_r.
Qed.

End Fallback.

(** C8, as stated, fails: a summarizer that could construct no client
    (here the provider is not [openai]) is asked for the summary of two
    code references and one AFS reference; the impact summary it returns
    is the fixed text, which does not state the counts.  The summary step
    of [main] hands this summary on unchanged. *)
Lemma C8_counterexample :
  let summarizer :=
    ImpactSummarizer_init true (fun _ _ => inr "unused") "anthropic" "gpt-4" in
  let build := fun (_ : string) (_ _ : list nat) => EmptyString in
  let parse := fun text => {| risk_level := "UNKNOWN"; impact_summary := text;
                              suggested_next_steps := [] |} in
  let code_refs := [1; 2]%nat in
  let afs_refs := [3]%nat in
  client summarizer = None /\
  summarize build parse summarizer "file.py" code_refs afs_refs
  = ({| risk_level := "UNKNOWN";
        impact_summary := "LLM summarization not available";
        suggested_next_steps := [] |}, []) /\
  summary_step build parse true false true summarizer "file.py"
    code_refs afs_refs
  = (Some {| risk_level := "UNKNOWN";
             impact_summary := "LLM summarization not available";
             suggested_next_steps := [] |}, []) /\
  "LLM summarization not available"
  <> count_template (length code_refs) (length afs_refs).
Proof.
  split; [reflexivity|]. split; [reflexivity|]. split; [reflexivity|].
  intros H. discriminate H.
Qed.

(** C8, amended: a summarizer without client returns, from [summarize],
    the summary with risk level [UNKNOWN], the fixed impact summary
    [LLM summarization not available] and no suggested next steps, and
    sends nothing over the network.  The summary step of [main] (lines
    173 to 194), when a summary is to be generated: with the LLM disabled
    in the configuration it builds the summary with risk level [UNKNOWN],
    an impact summary stating the numbers of code references and of AFS
    references found, and no suggested next steps; with the LLM enabled
    and a summarizer without client it hands on the fixed summary of
    [summarize]; in both cases nothing is sent over the network.  The
    statement is about the step, not about [main] reaching it. *)
Theorem C8_fallback_summary {CodeRefT AfsRefT : Type}
    (build_prompt : string -> list CodeRefT -> list AfsRefT -> string)
    (parse_summary : string -> Summary)
    (summarizer : ImpactSummarizer)
    (query : string) (code_refs : list CodeRefT) (afs_refs : list AfsRefT) :
  (client summarizer = None ->
   summarize build_prompt parse_summary summarizer query code_refs afs_refs
   = ({| risk_level := "UNKNOWN";
         impact_summary := "LLM summarization not available";
         suggested_next_steps := [] |}, [])) /\
  (forall generate_summary output_json,
     generate_summary || negb output_json = true ->
     summary_step build_prompt parse_summary generate_summary output_json
       false summarizer query code_refs afs_refs
     = (Some {| risk_level := "UNKNOWN";
                impact_summary :=
                  count_template (length code_refs) (length afs_refs);
                suggested_next_steps := [] |}, []) /\
     (client summarizer = None ->
      summary_step build_prompt parse_summary generate_summary output_json
        true summarizer query code_refs afs_refs
      = (Some {| risk_level := "UNKNOWN";
                 impact_summary := "LLM summarization not available";
                 suggested_next_steps := [] |}, []))).
Proof.
  split; [apply summarize_no_client|].
  intros generate_summary output_json Hgen.
  unfold summary_step. rewrite Hgen. split; [reflexivity|].
  intros Hc. now rewrite summarize_no_client.
Qed.

Lemma C8_fallback_summary_witness :
  let summarizer :=
    ImpactSummarizer_init false (fun _ _ => inr "unused") "openai" "gpt-4" in
  let build := fun (_ : string) (_ _ : list nat) => EmptyString in
  let parse := fun text => {| risk_level := "UNKNOWN"; impact_summary := text;
                              suggested_next_steps := [] |} in
  client summarizer = None /\
  true || negb false = true /\
  summarize build parse summarizer "file.py" [1; 2]%nat [3]%nat
  = ({| risk_level := "UNKNOWN";
        impact_summary := "LLM summarization not available";
        suggested_next_steps := [] |}, []) /\
  summary_step build parse true false false summarizer "file.py"
    [1; 2]%nat [3]%nat
  = (Some {| risk_level := "UNKNOWN";
             impact_summary := "Found 2 code references and 1 AFS references";
             suggested_next_steps := [] |}, []) /\
  summary_step build parse true false true summarizer "file.py"
    [1; 2]%nat [3]%nat
  = (Some {| risk_level := "UNKNOWN";
             impact_summary := "LLM summarization not available";
             suggested_next_steps := [] |}, []).
Proof.
  intros summarizer build parse.
  split; [reflexivity|]. split; [reflexivity|].
  destruct (C8_fallback_summary build parse summarizer "file.py"
              [1; 2]%nat [3]%nat) as [H0 H].
  destruct (H true false eq_refl) as [H1 H2].
  split; [exact (H0 eq_refl)|]. split; [exact H1 | exact (H2 eq_refl)].
Defined.

(** ** Configuration defaults *)

Section Defaults.

Import Config.

(** Merging the defaults of one section into the user's dictionary: the
    user's keys win, key by key. *)
Lemma merge_section_union (l : list (string * PyVal)) :
  forall m : gmap string PyVal,
    merge_section l (VDict m) = inr (VDict (m ∪ list_to_map l)).
Proof.
  induction l as [|[k v] l IH]; intros m; simpl.
  - now rewrite (right_id_L ∅ (∪)).
  - destruct (m !! k) as [x|] eqn:Ek.
    + rewrite bool_decide_eq_true_2 by eauto. rewrite IH. do 2 f_equal.
      apply map_eq. intros j. rewrite !lookup_union.
      destruct (decide (k = j)) as [<-|Hne].
      * rewrite Ek, lookup_insert_eq. now destruct (list_to_map l !! k).
      * now rewrite lookup_insert_ne.
    + rewrite bool_decide_eq_false_2 by (intros [? ?]; congruence).
      rewrite IH. do 2 f_equal.
      apply map_eq. intros j. rewrite !lookup_union.
      destruct (decide (k = j)) as [<-|Hne].
      * rewrite Ek, !lookup_insert_eq. now destruct (list_to_map l !! k).
      * now rewrite !lookup_insert_ne.
Qed.

Lemma merge_section_dict (d m : gmap string PyVal) :
  merge_section (map_to_list d) (VDict m) = inr (VDict (m ∪ d)).
Proof. now rewrite merge_section_union, list_to_map_to_list. Qed.

Lemma merge_defaults_ok (defs : list (string * PyVal)) :
  forall config : gmap string PyVal,
    NoDup (map fst defs) ->
    (forall key dv, In (key, dv) defs -> exists d, dv = VDict d) ->
    (forall key v, In key (map fst defs) -> config !! key = Some v ->
                   exists m, v = VDict m) ->
    exists config',
      merge_defaults defs config = inr config' /\
      (forall key, ~ In key (map fst defs) -> config' !! key = config !! key) /\
      (forall key d, In (key, VDict d) defs ->
                     config' !! key = Some (merged_section config key d)).
Proof.
  induction defs as [|[k dv] rest IH]; intros config Hnd Hdefs Hwf.
  - exists config. simpl. repeat split; auto. intros ? ? [].
  - apply NoDup_cons in Hnd as [Hk Hnd]. simpl in Hk.
    rewrite list_elem_of_In in Hk.
    destruct (Hdefs k dv (or_introl eq_refl)) as [d ->].
    assert (exists section,
               (match config !! k with
                | None => merge_defaults rest (<[k := VDict d]> config)
                | Some section =>
                    match merge_section (map_to_list d) section with
                    | inl e => inl e
                    | inr section' =>
                        merge_defaults rest (<[k := section']> config)
                    end
                end) = merge_defaults rest (<[k := section]> config) /\
               section = merged_section config k d) as (section & Estep & Esec).
    { unfold merged_section. destruct (config !! k) as [v|] eqn:Ek.
      - destruct (Hwf k v (or_introl eq_refl) Ek) as [m ->].
        rewrite merge_section_dict. eauto.
      - eauto. }
    simpl. rewrite Estep.
    destruct (IH (<[k := section]> config) Hnd) as (config' & E & Hout & Hin).
    + intros key dv' H. apply (Hdefs key dv'). now right.
    + intros key v Hkey Hv.
      assert (k <> key) as Hne by (intros ->; contradiction).
      rewrite lookup_insert_ne in Hv by exact Hne.
      apply (Hwf key v); [now right | exact Hv].
    + exists config'. split; [exact E|]. split.
      * intros key Hkey. simpl in Hkey.
        rewrite Hout by tauto. apply lookup_insert_ne. tauto.
      * intros key d' [H|H].
        -- injection H as <- <-. rewrite Hout by exact Hk.
           rewrite lookup_insert_eq. now rewrite Esec.
        -- assert (k <> key) as Hne.
           { intros ->. apply Hk. apply in_map_iff. now exists (key, VDict d'). }
           rewrite (Hin key d' H). unfold merged_section.
           now rewrite lookup_insert_ne.
Qed.

End Defaults.

Section DefaultsClaims.

Import Config.

Lemma defaults_names (llm_api_key : string) :
  map fst (defaults llm_api_key) = section_names.
Proof. reflexivity. Qed.

Lemma section_names_nodup : NoDup section_names.
Proof.
  unfold section_names.
  repeat (apply NoDup_cons; split;
          [rewrite list_elem_of_In; simpl; intuition discriminate|]).
  apply NoDup_nil. exact I.
Qed.

Lemma defaults_are_dicts (llm_api_key : string) (key : string) (dv : PyVal) :
  In (key, dv) (defaults llm_api_key) -> exists d, dv = VDict d.
Proof.
  unfold defaults. simpl.
  intros [H|[H|[H|[H|[H|[]]]]]]; injection H as _ <-; eauto.
Qed.



Lemma test_config_sections (key : string) (v : PyVal) :
  In key section_names -> test_config !! key = Some v -> exists m, v = VDict m.
Proof.
  unfold section_names. simpl.
  intros [<-|[<-|[<-|[<-|[<-|[]]]]]] H; vm_compute in H;
    try discriminate; injection H as <-; eauto.
Qed.


End DefaultsClaims.

(* ================================================================== *)
(** * Part IV: further properties of the code                          *)
(* ================================================================== *)

(** ** Which directories a walk lists *)

Section WalkCharacterisation.

Lemma all_kept_app (keep : Path -> string -> bool) (top : Path)
    (a b : list string) :
  all_kept keep top (a ++ b)
  = all_kept keep top a && all_kept keep (top ++ a) b.
Proof.
  revert top. induction a as [|x a IH]; intros top; simpl.
  - now rewrite app_nil_r.
  - rewrite IH, <- app_assoc. simpl. now rewrite andb_assoc.
Qed.

Lemma os_walk_sound (keep : Path -> string -> bool) (n : Node) :
  forall top root dirs files,
    In (root, dirs, files) (os_walk keep top n) ->
    exists names es,
      root = top ++ names /\ Listing n names es /\
      all_kept keep top names = true /\
      dirs = List.filter (keep root) (dir_names es) /\
      files = file_names es.
Proof.
  induction n as [|rd es IH] using Node_nested_ind; intros top root dirs files H.
  - contradiction.
  - destruct rd; [|contradiction].
    rewrite os_walk_dir in H. destruct H as [H|H].
    + injection H as <- <- <-. exists [], es.
      rewrite app_nil_r. repeat split. constructor.
    + apply in_walk_children in H as (name & child & Hin & _ & Hk & H).
      rewrite List.Forall_forall in IH.
      destruct (IH (name, child) Hin _ _ _ _ H)
        as (names & es' & -> & Hl & Ha & Hd & Hf).
      exists (name :: names), es'. rewrite <- app_assoc in *. simpl in *.
      repeat split; try assumption.
      * econstructor; eassumption.
      * now rewrite Hk.
Qed.

Lemma os_walk_complete (keep : Path -> string -> bool) (n : Node)
    (names : list string) (es : list (string * Node)) :
  Listing n names es ->
  forall top,
    all_kept keep top names = true ->
    In (top ++ names, List.filter (keep (top ++ names)) (dir_names es),
        file_names es)
       (os_walk keep top n).
Proof.
  induction 1 as [es|es name child names es' Hin Hl IH]; intros top Hk.
  - rewrite app_nil_r. apply os_walk_top.
  - simpl in Hk. apply andb_true_iff in Hk as [Hk Hrest].
    rewrite os_walk_dir. right. apply in_walk_children.
    exists name, child. repeat split; try assumption.
    + now destruct Hl.
    + specialize (IH (top ++ [name]) Hrest).
      now rewrite <- app_assoc in IH.
Qed.

Lemma all_kept_trace (top : Path) (names : list string) :
  all_kept Trace.keep_dir top names = true <->
  Forall (fun name => hidden name = false) names.
Proof.
  revert top. induction names as [|x l IH]; intros top; simpl.
  - split; [constructor | reflexivity].
  - rewrite andb_true_iff, IH, List.Forall_cons_iff.
    unfold Trace.keep_dir, hidden. now rewrite negb_true_iff.
Qed.

Lemma all_kept_traceit self (max_depth : Z) (names done : list string) :
  all_kept (Traceit.keep_dir self max_depth)
           (Traceit.root_path self ++ done) names = true <->
  Forall (fun name => hidden name = false) names /\
  (names = [] \/ (Z.of_nat (length done + length names) <= max_depth)%Z).
Proof.
  revert done. induction names as [|x l IH]; intros done; simpl.
  - split; [split; [constructor | now left] | reflexivity].
  - rewrite andb_true_iff, <- app_assoc, IH, List.Forall_cons_iff.
    unfold Traceit.keep_dir at 1. rewrite current_depth_app.
    unfold hidden. rewrite length_app. simpl.
    destruct (Z.geb_spec (Z.of_nat (length done)) max_depth) as [Hge|Hlt].
    + split; [intros [? _]; discriminate|].
      intros [_ [?|?]]; [discriminate | lia].
    + rewrite negb_true_iff. split.
      * intros (Hx & Hl & Hb). repeat split; try assumption.
        right. destruct Hb as [->|Hb]; simpl; lia.
      * intros ((Hx & Hl) & [Hb|Hb]); [discriminate|].
        repeat split; try assumption.
        destruct l; [now left | right]. simpl length in *. lia.
Qed.

End WalkCharacterisation.

(** ** What the filesystem searches return *)

Section SearchResults.

(** X1: the unlimited traversal of [trace] returns exactly the files
    that lie under the root behind a chain of listable directories none
    of which is hidden, and that pass both tests. *)
Theorem trace_find_exact self (tree : Node) (base : string) (p : Path) :
  In p (Trace._find_matching_files self tree base) <->
  exists names es file,
    p = Trace.root_path self ++ names ++ [file] /\
    Listing tree names es /\
    Forall (fun name => hidden name = false) names /\
    In file (file_names es) /\
    Substring (PyStr.lower base) (PyStr.lower file) /\
    exists pat, In pat (Trace.compiled_patterns self) /\ pat file = true.
Proof.
  rewrite in_find_trace. split.
  - intros (dir & file & -> & (dirs & files & Hw & Hf) & Ht).
    apply os_walk_sound in Hw as (names & es & -> & Hl & Hk & _ & ->).
    apply all_kept_trace in Hk. apply both_tests in Ht.
    exists names, es, file. rewrite <- app_assoc. auto.
  - intros (names & es & file & -> & Hl & Hk & Hf & Ht).
    apply both_tests in Ht. destruct Ht as [Hc Ha].
    exists (Trace.root_path self ++ names), file.
    rewrite <- app_assoc. repeat split; try assumption.
    eexists _, _. split; [|exact Hf].
    apply os_walk_complete; [exact Hl|]. now apply all_kept_trace.
Qed.

Lemma traceit_find_spec self (tree : Node) (base : string)
    (max_depth : Z) (p : Path) :
  In p (Traceit._find_matching_files self tree base max_depth) <->
  exists names es file,
    p = Traceit.root_path self ++ names ++ [file] /\
    Listing tree names es /\
    Forall (fun name => hidden name = false) names /\
    (Z.of_nat (length names) <= Z.max 0 max_depth)%Z /\
    In file (file_names es) /\
    Substring (PyStr.lower base) (PyStr.lower file) /\
    exists pat, In pat (Traceit.compiled_patterns self) /\ pat file = true.
Proof.
  rewrite in_find_traceit. split.
  - intros (dir & file & -> & (dirs & files & Hw & Hf) & Ht).
    apply os_walk_sound in Hw as (names & es & -> & Hl & Hk & _ & ->).
    replace (Traceit.root_path self) with (Traceit.root_path self ++ [])
      in Hk by apply app_nil_r.
    apply all_kept_traceit in Hk as [Hh Hb]. apply both_tests in Ht.
    exists names, es, file. rewrite <- app_assoc.
    repeat split; try tauto.
    destruct Hb as [->|Hb]; simpl in *; lia.
  - intros (names & es & file & -> & Hl & Hh & Hb & Hf & Ht).
    apply both_tests in Ht. destruct Ht as [Hc Ha].
    exists (Traceit.root_path self ++ names), file.
    rewrite <- app_assoc. repeat split; try assumption.
    eexists _, _. split; [|exact Hf].
    apply os_walk_complete; [exact Hl|].
    replace (Traceit.root_path self) with (Traceit.root_path self ++ [])
      by apply app_nil_r.
    apply all_kept_traceit. split; [exact Hh|].
    destruct names; [now left | right]. simpl in *. lia.
Qed.

(** X2: the depth-limited traversal of [traceit] returns exactly the
    files that lie under the root behind a chain of listable, non-hidden
    directories, at most [max_depth] of them, and that pass both tests.
    A [max_depth] below 0 acts as 0. *)
Theorem traceit_find_exact self (tree : Node) (base : string)
    (max_depth : Z) (p : Path) :
  In p (Traceit._find_matching_files self tree base max_depth) <->
  exists names es file,
    p = Traceit.root_path self ++ names ++ [file] /\
    Listing tree names es /\
    Forall (fun name => hidden name = false) names /\
    (Z.of_nat (length names) <= Z.max 0 max_depth)%Z /\
    In file (file_names es) /\
    Substring (PyStr.lower base) (PyStr.lower file) /\
    exists pat, In pat (Traceit.compiled_patterns self) /\ pat file = true.
Proof. apply traceit_find_spec; assumption. Qed.

(** X3: raising [max_depth] never loses a match. *)
Theorem traceit_find_monotone self (tree : Node) (base : string)
    (d d' : Z) (p : Path) :
  (d <= d')%Z ->
  In p (Traceit._find_matching_files self tree base d) ->
  In p (Traceit._find_matching_files self tree base d').
Proof.
  intros Hd. rewrite !traceit_find_spec.
  intros (names & es & file & Hp & Hl & Hh & Hb & Hrest).
  exists names, es, file. repeat split; try tauto. lia.
Qed.

End SearchResults.

Section SearchWitnesses.

Lemma trace_find_exact_witness :
  In ["/"; "afs"; "a"; "x.py"]
     (Trace._find_matching_files (Trace.init ["/"; "afs"] None)
        (Dir true example_entries) "X").
Proof.
  apply (proj2 (trace_find_exact (Trace.init ["/"; "afs"] None)
                  (Dir true example_entries) "X" ["/"; "afs"; "a"; "x.py"])).
  exists ["a"], [("x.py", File)], "x.py".
  split; [reflexivity|]. split.
  { apply (Listing_step _ "a" (Dir true [("x.py", File)])).
    - right; right; left; reflexivity.
    - constructor. }
  split; [repeat constructor|]. split; [left; reflexivity|].
  split; [apply contains_spec; reflexivity|].
  exists (ext_pattern ".py"). split; [left; reflexivity | reflexivity].
Defined.

Lemma traceit_find_exact_witness :
  In ["/"; "afs"; "a"; "x.py"]
     (Traceit._find_matching_files (Traceit.init ["/"; "afs"] None)
        (Dir true example_entries) "X" 1).
Proof.
  apply (proj2 (traceit_find_exact (Traceit.init ["/"; "afs"] None)
                  (Dir true example_entries) "X" 1
                  ["/"; "afs"; "a"; "x.py"])).
  exists ["a"], [("x.py", File)], "x.py".
  split; [reflexivity|]. split.
  { apply (Listing_step _ "a" (Dir true [("x.py", File)])).
    - right; right; left; reflexivity.
    - constructor. }
  split; [repeat constructor|]. split; [simpl; lia|].
  split; [left; reflexivity|].
  split; [apply contains_spec; reflexivity|].
  exists (ext_pattern ".py"). split; [left; reflexivity | reflexivity].
Defined.

Lemma traceit_find_monotone_witness :
  (0 <= 1)%Z /\
  In ["/"; "afs"; "Test_File.py"]
     (Traceit._find_matching_files (Traceit.init ["/"; "afs"] None)
        (Dir true example_entries) "test" 0) /\
  In ["/"; "afs"; "Test_File.py"]
     (Traceit._find_matching_files (Traceit.init ["/"; "afs"] None)
        (Dir true example_entries) "test" 1).
Proof.
  assert (In ["/"; "afs"; "Test_File.py"]
            (Traceit._find_matching_files (Traceit.init ["/"; "afs"] None)
               (Dir true example_entries) "test" 0)) as H
    by (left; reflexivity).
  split; [lia|]. split; [exact H|].
  exact (traceit_find_monotone _ _ _ 0 1 _ ltac:(lia) H).
Defined.

End SearchWitnesses.

(** ** References and unreachable roots *)

Section References.

Lemma traceit_refs_loop_raised st files : forall acc,
  (exists p, In p files /\ stat_iso st p = TimeFails) ->
  snd (Traceit.refs_loop st files acc) = true.
Proof.
  induction files as [|q files IH]; intros acc (p & Hin & Hp);
    [contradiction|]. simpl.
  destruct (stat_iso st q) as [t| |] eqn:E; [| |reflexivity].
  - apply IH. destruct Hin as [->|Hin]; [congruence | eauto].
  - apply IH. destruct Hin as [->|Hin]; [congruence | eauto].
Qed.

(** X4: what a search returns, once the root is there.  When no
    matching file has a time conversion that fails, both implementations
    return the references of the matching files whose [stat] succeeds,
    in order, each with the time found and the type [afs]; a file whose
    [stat] fails is left out and does not stop the search.  When the time
    conversion of a matching file fails, [trace] returns the references
    collected before the first such file, and [traceit] returns the empty
    list.  For [traceit] this is when the worker did not overrun the
    timeout and the root can be listed. *)
Theorem search_refs_exact (st : Storage) (query : string) :
  exists_raises st = false ->
  (forall self tree,
     root_node st = Some tree ->
     let files := Trace._find_matching_files self tree
                    (Trace._extract_base_name query) in
     ((forall p, In p files -> stat_iso st p <> TimeFails) ->
      Trace.search self st query = inr (references_of st files)) /\
     (forall before p after,
        files = before ++ p :: after ->
        (forall q, In q before -> stat_iso st q <> TimeFails) ->
        stat_iso st p = TimeFails ->
        Trace.search self st query = inr (references_of st before))) /\
  (forall self es max_depth,
     root_node st = Some (Dir true es) ->
     let files := Traceit._find_matching_files self (Dir true es)
                    (Traceit._extract_base_name query) max_depth in
     ((forall p, In p files -> stat_iso st p <> TimeFails) ->
      Traceit.search self st false query max_depth = references_of st files) /\
     ((exists p, In p files /\ stat_iso st p = TimeFails) ->
      Traceit.search self st false query max_depth = [])) /\
  (forall files r,
     In r (references_of st files) <->
     In (afs_path r) files /\
     stat_iso st (afs_path r) = Modified (afs_last_modified r) /\
     afs_type r = "afs").
Proof.
  intros Hex. split; [|split].
  - intros self tree Hroot files. unfold Trace.search.
    rewrite Hex, Hroot. fold files. rewrite refs_loop_agree. split.
    + intros H. now rewrite traceit_refs_loop_ok.
    + intros before p after -> Hb Hp.
      now rewrite (traceit_refs_loop_abort _ _ _ _ _ Hb Hp).
  - intros self es max_depth Hroot files.
    unfold Traceit.search, Traceit.search_worker, Traceit._ping_afs_location.
    rewrite Hex, Hroot. simpl. fold files. split.
    + intros H. now rewrite traceit_refs_loop_ok.
    + intros H. apply (traceit_refs_loop_raised st files []) in H.
      destruct (Traceit.refs_loop st files []) as [refs raised].
      simpl in H. now rewrite H.
  - intros files r. apply in_references_of.
Qed.

(** X5: when [exists] answers, a root that is missing, is not a
    directory or cannot be listed gives the empty list in both
    implementations.  When [exists] raises on the root, [search] of
    [trace] raises as well, and [search] of [traceit] returns the empty
    list.  A search of [traceit] whose worker overran the timeout returns
    the empty list, whatever the worker found. *)
Theorem search_unreachable (st : Storage) (query : string) :
  (exists_raises st = false ->
   (root_node st = None \/ root_node st = Some File \/
    exists es, root_node st = Some (Dir false es)) ->
   (forall self, Trace.search self st query = inr []) /\
   (forall self still_alive max_depth,
      Traceit.search self st still_alive query max_depth = [])) /\
  (exists_raises st = true ->
   (forall self,
      Trace.search self st query = inl (OtherError "PermissionError")) /\
   (forall self still_alive max_depth,
      Traceit.search self st still_alive query max_depth = [])) /\
  (forall self st' max_depth,
     Traceit.search self st' true query max_depth = []).
Proof.
  split; [|split].
  - intros Hex H. split.
    + intros self. unfold Trace.search, Trace._find_matching_files.
      rewrite Hex. destruct H as [->|[->|[es ->]]]; reflexivity.
    + intros self alive max_depth.
      unfold Traceit.search, Traceit.search_worker, Traceit._ping_afs_location.
      rewrite Hex. destruct alive; [reflexivity|].
      destruct H as [->|[->|[es ->]]]; reflexivity.
  - intros Hex. split.
    + intros self. unfold Trace.search. now rewrite Hex.
    + intros self alive max_depth.
      unfold Traceit.search, Traceit.search_worker, Traceit._ping_afs_location.
      rewrite Hex. now destruct alive.
  - reflexivity.
Qed.

Lemma search_unreachable_witness :
  let st := {| exists_raises := false;
               root_node := None;
               stat_iso := fun _ => StatFails |} in
  (root_node st = None \/ root_node st = Some File \/
   exists es, root_node st = Some (Dir false es)) /\
  Trace.search (Trace.init ["/"; "nonexistent"] None) st "test.py" = inr [] /\
  Traceit.search (Traceit.init ["/"; "nonexistent"] None) st false
    "test.py" 1 = [] /\
  exists_raises forbidden_storage = true /\
  Trace.search (Trace.init ["/"; "afs"] None) forbidden_storage "test.py"
  = inl (OtherError "PermissionError") /\
  Traceit.search (Traceit.init ["/"; "afs"] None) forbidden_storage false
    "test.py" 1 = [].
Proof.
  intros st.
  assert (root_node st = None \/ root_node st = Some File \/
          exists es, root_node st = Some (Dir false es)) as H
    by (left; reflexivity).
  split; [exact H|].
  destruct (proj1 (search_unreachable st "test.py") eq_refl H) as (H1 & H2).
  split; [apply H1|]. split; [apply H2|]. split; [reflexivity|].
  destruct (proj1 (proj2 (search_unreachable forbidden_storage "test.py"))
              eq_refl) as (H3 & H4).
  split; [apply H3 | apply H4].
Defined.

(** In the root of [failing_storage] the query [py] matches the four
    files: [b.py] is skipped, and [c.py] ends the loop, so that [trace]
    returns the reference to [a.py] and [traceit] nothing; [d.py] is
    reported by neither.  In the root of [example_storage] both return
    the reference to [Test_File.py]. *)
Lemma search_refs_exact_witness :
  let r := fun name => {| afs_path := ["/"; "afs"; name];
                          afs_last_modified := "2024-01-01T00:00:00";
                          afs_type := "afs" |} in
  Trace.search (Trace.init ["/"; "afs"] None) failing_storage "py"
  = inr [r "a.py"] /\
  Traceit.search (Traceit.init ["/"; "afs"] None) failing_storage false "py" 1
  = [] /\
  Trace.search (Trace.init ["/"; "afs"] None) example_storage "job:test_file"
  = inr [r "Test_File.py"] /\
  Traceit.search (Traceit.init ["/"; "afs"] None) example_storage false
    "job:test_file" 1
  = [r "Test_File.py"].
Proof.
  intros r.
  destruct (search_refs_exact failing_storage "py" eq_refl) as (HT & HI & _).
  destruct (search_refs_exact example_storage "job:test_file" eq_refl)
    as (HT' & HI' & _).
  split; [|split; [|split]].
  - destruct (HT (Trace.init ["/"; "afs"] None) _ eq_refl) as [_ H].
    rewrite (H [["/"; "afs"; "a.py"]; ["/"; "afs"; "b.py"]]
               ["/"; "afs"; "c.py"] [["/"; "afs"; "d.py"]] eq_refl).
    + reflexivity.
    + intros q [<-|[<-|[]]]; discriminate.
    + reflexivity.
  - destruct (HI (Traceit.init ["/"; "afs"] None) _ 1%Z eq_refl) as [_ H].
    apply H. exists ["/"; "afs"; "c.py"].
    split; [right; right; left; reflexivity | reflexivity].
  - destruct (HT' (Trace.init ["/"; "afs"] None) _ eq_refl) as [H _].
    rewrite H; [reflexivity | intros p _; discriminate].
  - destruct (HI' (Traceit.init ["/"; "afs"] None) _ 1%Z eq_refl) as [H _].
    rewrite H; [reflexivity | intros p _; discriminate].
Defined.

End References.

(** ** The depth limit against the unlimited walk *)

Section Unlimited.

Lemma height_child (rd : bool) (es : list (string * Node))
    (name : string) (child : Node) :
  In (name, child) es -> (S (height child) <= height (Dir rd es))%nat.
Proof.
  simpl. induction es as [|e r IH]; [contradiction|].
  intros [->|H]; simpl; [lia|]. specialize (IH H). lia.
Qed.

Lemma height_is_dir (child : Node) :
  is_dir child = true -> (1 <= height child)%nat.
Proof. destruct child; [discriminate | simpl; lia]. Qed.

Lemma in_dir_names (es : list (string * Node)) (name : string) :
  In name (dir_names es) ->
  exists child, In (name, child) es /\ is_dir child = true.
Proof.
  unfold dir_names. rewrite in_map_iff.
  intros ([n child] & <- & H). apply filter_In in H as [Hin Hd].
  exists child. auto.
Qed.

Lemma flat_map_agree {A B : Type} (f g : A -> list B) (l : list A) :
  (forall a, In a l -> f a = g a) -> flat_map f l = flat_map g l.
Proof.
  induction l as [|a l IH]; intros H; simpl; [reflexivity|].
  rewrite (H a) by now left. rewrite IH; [reflexivity|].
  intros b Hb. apply H. now right.
Qed.

(** Where the limit is not reached, the two edits of [dirs] agree. *)
Lemma keep_dir_agree self (max_depth : Z) (done : list string) (d : string) :
  (Z.of_nat (length done) < max_depth)%Z ->
  Traceit.keep_dir self max_depth (Traceit.root_path self ++ done) d
  = Trace.keep_dir (Traceit.root_path self ++ done) d.
Proof.
  intros H. unfold Traceit.keep_dir, Trace.keep_dir.
  rewrite current_depth_app.
  destruct (Z.geb_spec (Z.of_nat (length done)) max_depth); [lia|reflexivity].
Qed.

Lemma walk_unlimited self (max_depth : Z) (n : Node) :
  forall done,
    (Z.of_nat (length done) + Z.of_nat (height n) <= max_depth + 1)%Z ->
    os_walk (Traceit.keep_dir self max_depth)
            (Traceit.root_path self ++ done) n
    = os_walk Trace.keep_dir (Traceit.root_path self ++ done) n.
Proof.
  induction n as [|rd es IH] using Node_nested_ind; intros done Hh;
    [reflexivity|].
  destruct rd; [|reflexivity]. rewrite !os_walk_dir.
  rewrite List.Forall_forall in IH.
  assert (forall name child,
            In (name, child) es -> is_dir child = true ->
            (Z.of_nat (length done) < max_depth)%Z) as Hlt.
  { intros name child Hin Hd.
    pose proof (height_child true es name child Hin).
    pose proof (height_is_dir child Hd). lia. }
  f_equal.
  - f_equal. f_equal. apply filter_ext_in. intros name Hin.
    apply in_dir_names in Hin as (child & Hin & Hd).
    apply keep_dir_agree. eauto.
  - unfold walk_children. apply flat_map_agree. intros [name child] Hin.
    simpl. destruct (is_dir child) eqn:Hd; [|reflexivity]. simpl.
    rewrite keep_dir_agree by eauto.
    destruct (Trace.keep_dir _ name); [|reflexivity].
    rewrite <- !app_assoc. apply (IH (name, child) Hin).
    pose proof (height_child true es name child Hin).
    rewrite length_app. simpl length. simpl snd. lia.
Qed.

Lemma find_unlimited_eq (selfT : Traceit.AFSSearcher)
    (self : Trace.AFSSearcher) (tree : Node) (base : string)
    (max_depth : Z) :
  Traceit.root_path selfT = Trace.root_path self ->
  Traceit.compiled_patterns selfT = Trace.compiled_patterns self ->
  (Z.of_nat (height tree) <= max_depth + 1)%Z ->
  Traceit._find_matching_files selfT tree base max_depth
  = Trace._find_matching_files self tree base.
Proof.
  intros Hr Hp Hh.
  unfold Traceit._find_matching_files, Trace._find_matching_files.
  pose proof (walk_unlimited selfT max_depth tree []) as Hw.
  rewrite app_nil_r in Hw. rewrite Hw by (simpl; lia). rewrite Hr.
  apply flat_map_ext. intros [[root dirs] files].
  unfold Traceit.matches_of, Trace.matches_of. now rewrite Hp.
Qed.

(** X6: when the tree has no more than [max_depth + 1] levels of
    directories, the root's level included, the depth-limited search of
    [traceit] returns what the unlimited search of [trace] returns for
    the same root and patterns, in the same order. *)
Theorem traceit_find_unlimited (selfT : Traceit.AFSSearcher)
    (self : Trace.AFSSearcher) (tree : Node) (base : string)
    (max_depth : Z) :
  Traceit.root_path selfT = Trace.root_path self ->
  Traceit.compiled_patterns selfT = Trace.compiled_patterns self ->
  (Z.of_nat (height tree) <= max_depth + 1)%Z ->
  Traceit._find_matching_files selfT tree base max_depth
  = Trace._find_matching_files self tree base.
Proof. apply find_unlimited_eq; assumption. Qed.

Lemma traceit_find_unlimited_witness :
  (Z.of_nat (height (Dir true example_entries)) <= 1 + 1)%Z /\
  Traceit._find_matching_files (Traceit.init ["/"; "afs"] None)
    (Dir true example_entries) "e" 1
  = Trace._find_matching_files (Trace.init ["/"; "afs"] None)
      (Dir true example_entries) "e".
Proof.
  assert (Z.of_nat (height (Dir true example_entries)) <= 1 + 1)%Z as H
    by (simpl; lia).
  split; [exact H|].
  exact (traceit_find_unlimited (Traceit.init ["/"; "afs"] None)
           (Trace.init ["/"; "afs"] None) (Dir true example_entries) "e" 1
           eq_refl eq_refl H).
Defined.

End Unlimited.

(** ** The base name within the query *)

Section BaseNameShape.

Lemma index_last_split (s b : string) :
  PyStr.index_last (PyStr.split "." s) = Some b ->
  NoDot b /\ exists pre, s = pre +:+ b.
Proof.
  revert b. induction s as [|c s IH]; intros b; simpl.
  - intros H. injection H as <-. split.
    + intros pre post E. destruct pre; discriminate.
    + now exists EmptyString.
  - destruct (Ascii.eqb_spec c ".") as [->|Hne].
    + rewrite index_last_cons by apply split_nonempty. intros H.
      destruct (IH b H) as [Hn [pre ->]]. split; [exact Hn|].
      now exists (String "." pre).
    + pose proof (split_nonempty "." s) as Hs.
      destruct (PyStr.split "." s) as [|h [|h' t]] eqn:E; [congruence| |].
      * intros H. injection H as <-.
        destruct (IH h eq_refl) as [Hn [pre Hp]]. split.
        -- intros pre' post E'. destruct pre' as [|x pre'].
           ++ simpl in E'. injection E' as -> _. congruence.
           ++ simpl in E'. injection E' as _ E'. exact (Hn pre' post E').
        -- assert (NoDot s) as Hns.
           { intros p q ->. pose proof (split_app_two "." p q) as H2.
             rewrite E in H2. simpl in H2. lia. }
           rewrite split_NoDot in E by exact Hns. injection E as <-.
           now exists EmptyString.
      * intros H. change (PyStr.index_last (String c h :: h' :: t))
          with (PyStr.index_last (h' :: t)) in H.
        assert (PyStr.index_last (h :: h' :: t) = Some b) as H' by exact H.
        destruct (IH b H') as [Hn [pre ->]]. split; [exact Hn|].
        now exists (String c pre).
Qed.

Lemma slice_from_suffix (n : nat) (s : string) :
  exists pre, s = pre +:+ PyStr.slice_from n s.
Proof.
  revert s. induction n as [|n IH]; intros s; simpl.
  - now exists EmptyString.
  - destruct s as [|c s]; [now exists EmptyString|].
    destruct (IH s) as [pre H]. exists (String c pre). simpl. now rewrite <- H.
Qed.

(** X7: for every query the base name is a tail of the query: nothing is
    added or rewritten, text is only cut off in front.  For a query that
    begins with [table:] (and so not with [job:]) the base name holds no
    ['.']. *)
Theorem base_name_suffix (query : string) :
  (exists pre, query = pre +:+ Trace._extract_base_name query) /\
  (forall r, query = "table:" +:+ r ->
             NoDot (Trace._extract_base_name query)).
Proof.
  split.
  - unfold Trace._extract_base_name.
    destruct (PyStr.startswith query "job:"); [apply slice_from_suffix|].
    destruct (PyStr.startswith query "table:"); [|now exists EmptyString].
    destruct (PyStr.index_last (PyStr.split "." (PyStr.slice_from 6 query)))
      as [b|] eqn:E; simpl.
    + apply index_last_split in E as [_ [pre E]].
      destruct (slice_from_suffix 6 query) as [pre' H].
      exists (pre' +:+ pre). rewrite app_assoc_s, <- E. exact H.
    + exists query. symmetry. apply app_empty_r.
  - intros r ->. rewrite extract_table.
    destruct (PyStr.index_last (PyStr.split "." r)) as [b|] eqn:E; simpl.
    + now apply index_last_split in E.
    + intros pre post H. destruct pre; discriminate.
Qed.

Lemma base_name_suffix_witness :
  NoDot (Trace._extract_base_name "table:analytics.reports.pnl").
Proof.
  exact (proj2 (base_name_suffix "table:analytics.reports.pnl")
           "analytics.reports.pnl" eq_refl).
Defined.

End BaseNameShape.

(** ** The request loop, for any transport *)

Section RequestEffects.

Import Sourcegraph.

Lemma backoff_S (k : nat) : backoff (S k) = backoff k ++ [(2 ^ Z.of_nat k)%Z].
Proof. unfold backoff. now rewrite seq_S, map_app. Qed.

Lemma request_loop_S (max_retries : Z) (net : Transport)
    (remaining attempt : nat) (eff : Effects) :
  request_loop max_retries net (S remaining) attempt eff
  = match attempt_once (net (posts eff)) with
    | inr data => (inr data, {| sleeps := sleeps eff; posts := S (posts eff) |})
    | inl e =>
        if is_RequestException e && (Z.of_nat attempt <? max_retries - 1)%Z
        then request_loop max_retries net remaining (S attempt)
               {| sleeps := sleeps eff ++ [(2 ^ Z.of_nat attempt)%Z];
                  posts := S (posts eff) |}
        else (inl e, {| sleeps := sleeps eff; posts := S (posts eff) |})
    end.
Proof.
  simpl. destruct (attempt_once (net (posts eff))); [|reflexivity].
  destruct (is_RequestException e); [|reflexivity].
  now destruct (_ <? _)%Z.
Qed.

Lemma request_loop_effects (max_retries : Z) (net : Transport) :
  forall remaining attempt eff res eff',
    (attempt + S remaining)%nat = Z.to_nat max_retries ->
    posts eff = attempt -> sleeps eff = backoff attempt ->
    request_loop max_retries net (S remaining) attempt eff = (res, eff') ->
    (1 <= posts eff' <= Z.to_nat max_retries)%nat /\
    sleeps eff' = backoff (Nat.pred (posts eff')) /\
    (forall e, res = inl e -> is_RequestException e = true ->
               posts eff' = Z.to_nat max_retries).
Proof.
  induction remaining as [|remaining IH]; intros attempt eff res eff' Hn Hp Hs;
    rewrite request_loop_S;
    (destruct (attempt_once (net (posts eff))) as [e|data];
     [destruct (is_RequestException e) eqn:Hre;
      [destruct (Z.ltb_spec (Z.of_nat attempt) (max_retries - 1)) as [Hlt|Hge]|]
     |]); simpl andb; cbv iota.
  - lia.
  - intros H. injection H as <- <-. simpl. rewrite Hp.
    repeat split; try lia; try assumption.
  - intros H. injection H as <- <-. simpl. rewrite Hp.
    repeat split; try lia; try assumption.
  - intros H. injection H as <- <-. simpl. rewrite Hp.
    repeat split; try lia; try assumption.
  - intros H. apply IH in H; simpl.
    + exact H.
    + lia.
    + now rewrite Hp.
    + now rewrite Hs, backoff_S.
  - intros H. injection H as <- <-. simpl. rewrite Hp.
    repeat split; try lia; try assumption.
  - intros H. injection H as <- <-. simpl. rewrite Hp.
    repeat split; try lia; try assumption.
    all: try (intros e' He'; injection He' as <-; congruence).
  - intros H. injection H as <- <-. simpl. rewrite Hp.
    repeat split; try lia; try assumption; try discriminate.
Qed.

Lemma make_request_invariants (max_retries : Z) (net : Transport) :
  let res := fst (_make_request max_retries net) in
  let eff := snd (_make_request max_retries net) in
  (posts eff <= Z.to_nat max_retries)%nat /\
  sleeps eff = backoff (Nat.pred (posts eff)) /\
  (forall e, res = inl e -> is_RequestException e = true ->
             posts eff = Z.to_nat max_retries) /\
  ((max_retries <= 0)%Z -> res = inr (VDict ∅) /\ posts eff = 0%nat).
Proof.
  intros res eff. subst res eff. unfold _make_request.
  destruct (Z.to_nat max_retries) as [|remaining] eqn:En.
  - simpl. repeat split; try lia; try discriminate.
  - destruct (request_loop max_retries net (S remaining) 0
                {| sleeps := []; posts := 0 |}) as [res eff] eqn:E.
    apply request_loop_effects in E as (Hp & Hs & He);
      [|simpl; lia|reflexivity|reflexivity].
    simpl. rewrite <- En. repeat split; try lia; try assumption.
Qed.

(** X8: whatever the transport does, [_make_request] posts at most
    [max_retries] requests; the delays it sleeps are the nominal schedule
    1, 2, 4, ..., one between two consecutive requests; and when it
    raises an exception of the [requests] hierarchy, all [max_retries]
    attempts have been made.  With [max_retries <= 0] nothing is posted
    and the empty dictionary is returned. *)
Theorem make_request_effects (max_retries : Z) (net : Transport) :
  let res := fst (_make_request max_retries net) in
  let eff := snd (_make_request max_retries net) in
  (posts eff <= Z.to_nat max_retries)%nat /\
  sleeps eff = backoff (Nat.pred (posts eff)) /\
  (forall e, res = inl e -> is_RequestException e = true ->
             posts eff = Z.to_nat max_retries) /\
  ((max_retries <= 0)%Z -> res = inr (VDict ∅) /\ posts eff = 0%nat).
Proof. apply make_request_invariants; assumption. Qed.

Lemma make_request_effects_witness :
  let net : Transport := fun _ => inl ConnectionError in
  fst (_make_request 3 net) = inl ConnectionError /\
  is_RequestException ConnectionError = true /\
  posts (snd (_make_request 3 net)) = Z.to_nat 3 /\
  sleeps (snd (_make_request 3 net)) = [1; 2]%Z.
Proof.
  intros net.
  destruct (make_request_effects 3 net) as (_ & Hs & He & _).
  assert (fst (_make_request 3 net) = inl ConnectionError) as Hr
    by reflexivity.
  split; [exact Hr|]. split; [reflexivity|].
  split; [exact (He ConnectionError Hr eq_refl)|].
  rewrite Hs. rewrite (He ConnectionError Hr eq_refl). reflexivity.
Defined.

(** X9: [search_references] turns every failure of the request into the
    empty list: when [_make_request] raises, whatever the exception, and
    when [max_retries <= 0], where no request is posted at all. *)
Theorem search_references_failure (max_retries : Z) (net : Transport) :
  ((exists e, fst (_make_request max_retries net) = inl e) \/
   (max_retries <= 0)%Z) ->
  search_references max_retries net = [].
Proof.
  unfold search_references. intros [[e ->]|H]; [reflexivity|].
  destruct (make_request_invariants max_retries net) as (_ & _ & _ & H0).
  destruct (H0 H) as [-> _]. reflexivity.
Qed.

Lemma search_references_failure_witness :
  let net : Transport := fun _ =>
    inr {| status_code := 500; json := inr VNone |} in
  (exists e, fst (_make_request 2 net) = inl e) /\
  search_references 2 net = [].
Proof.
  intros net.
  assert (exists e, fst (_make_request 2 net) = inl e) as H
    by (exists (HTTPError 500); reflexivity).
  split; [exact H|].
  exact (search_references_failure 2 net (or_introl H)).
Defined.

End RequestEffects.

(** ** The parser on whole result lists *)

Section ParserLists.

Import Sourcegraph.

(** X10: for a response whose results are dictionaries, each file match
    among them having a [file] and a [repository] that are dictionaries
    or are missing, the parser returns one reference per file match, in
    the order of the results, and skips every other element. *)
Theorem parse_well_formed_results (response : PyVal)
    (ms : list (gmap string PyVal)) :
  results_of response = inr (VList (map VDict ms)) ->
  (forall m, In m ms -> is_file_match m = true ->
             DictOrMissing m "file" /\ DictOrMissing m "repository") ->
  _parse_search_results response
  = map (fun m => reference_of (sub_dict m "file") (sub_dict m "repository"))
        (List.filter is_file_match ms) /\
  length (_parse_search_results response)
  = length (List.filter is_file_match ms).
Proof.
  intros Hr Hwf. unfold _parse_search_results. rewrite Hr. simpl.
  rewrite parse_loop_dicts by exact Hwf. simpl.
  split; [reflexivity | apply length_map].
Qed.

(** X11: when an element of the results makes the loop raise, the parser
    returns the references of the elements before it and drops every
    element after it, file matches included: the result is that of the
    response cut off before the malformed element. *)
Theorem parse_stops_at_malformed (response response' : PyVal)
    (good rest : list PyVal) (bad : PyVal) :
  results_of response = inr (VList (good ++ bad :: rest)) ->
  results_of response' = inr (VList good) ->
  Malformed bad ->
  _parse_search_results response = _parse_search_results response'.
Proof.
  intros Hr Hr' Hbad. unfold _parse_search_results. rewrite Hr, Hr'. simpl.
  now apply parse_loop_stops.
Qed.

(** X12: a results value that is not a list gives the empty list, be it
    [None], a number, a string or a dictionary. *)
Theorem parse_results_not_a_list (response v : PyVal) :
  results_of response = inr v ->
  (forall l, v <> VList l) ->
  _parse_search_results response = [].
Proof.
  intros Hr Hv. unfold _parse_search_results. rewrite Hr.
  destruct v as [| | |s|l|m]; simpl; try reflexivity.
  - destruct (list_ascii_of_string s); reflexivity.
  - now destruct (Hv l).
  - destruct (map_to_list m); reflexivity.
Qed.

End ParserLists.

Section ParserListWitnesses.

Import Sourcegraph.

Lemma parse_well_formed_results_witness :
  length (_parse_search_results
            (response_of (VList (map VDict [repository_entry; test_entry;
                                            repository_entry]))))
  = 1%nat.
Proof.
  refine (proj2 (parse_well_formed_results
                   (response_of (VList (map VDict [repository_entry;
                                                   test_entry;
                                                   repository_entry])))
                   [repository_entry; test_entry; repository_entry]
                   eq_refl _)).
  intros m [<-|[<-|[<-|[]]]] Hfm; try discriminate Hfm.
  split; right; eexists; reflexivity.
Defined.

Lemma parse_stops_at_malformed_witness :
  Malformed VNone /\
  _parse_search_results
    (response_of (VList ([VDict test_entry] ++ VNone :: [VDict test_entry])))
  = _parse_search_results (response_of (VList [VDict test_entry])).
Proof.
  assert (Malformed VNone) as H by (left; intros m; discriminate).
  split; [exact H|].
  exact (parse_stops_at_malformed
           (response_of (VList ([VDict test_entry] ++ VNone
                                  :: [VDict test_entry])))
           (response_of (VList [VDict test_entry]))
           [VDict test_entry] [VDict test_entry] VNone eq_refl eq_refl H).
Defined.

Lemma parse_results_not_a_list_witness :
  _parse_search_results (response_of (VStr "unavailable")) = [].
Proof.
  refine (parse_results_not_a_list (response_of (VStr "unavailable"))
            (VStr "unavailable") eq_refl _).
  intros l. discriminate.
Defined.

End ParserListWitnesses.

(** ** The remote search query *)

Section BuildQuery.

Import Sourcegraph.

Lemma chars_app (a b : string) :
  list_ascii_of_string (a +:+ b)
  = list_ascii_of_string a ++ list_ascii_of_string b.
Proof. induction a as [|c a IH]; simpl; [reflexivity | now rewrite IH]. Qed.

Lemma chars_inj (a b : string) :
  list_ascii_of_string a = list_ascii_of_string b -> a = b.
Proof.
  intros H. rewrite <- (string_of_list_ascii_of_string a),
    <- (string_of_list_ascii_of_string b). now rewrite H.
Qed.

(** the characters of a string, last first *)
Lemma rev_chars_inj (a b : string) :
  rev (list_ascii_of_string a) = rev (list_ascii_of_string b) -> a = b.
Proof.
  intros H. apply chars_inj.
  rewrite <- (rev_involutive (list_ascii_of_string a)), H.
  apply rev_involutive.
Qed.

Lemma build_cases (q : string) :
  (exists r, q = "job:" +:+ r /\
     _build_search_query q
     = "type:file " +:+ dquote +:+ r +:+ dquote
       +:+ " (lang:python OR lang:yaml OR lang:json)") \/
  (exists r, q = "table:" +:+ r /\
     _build_search_query q
     = "type:file " +:+ dquote +:+ r +:+ dquote
       +:+ " (lang:sql OR lang:python)") \/
  _build_search_query q = "type:file " +:+ dquote +:+ q +:+ dquote.
Proof.
  unfold _build_search_query.
  destruct (PyStr.startswith q "job:") eqn:Ej.
  - left. apply startswith_spec in Ej as [r ->]. now exists r.
  - destruct (PyStr.startswith q "table:") eqn:Et.
    + right; left. apply startswith_spec in Et as [r ->]. now exists r.
    + right; right. reflexivity.
Qed.

(** X13: [_build_search_query] is injective: two different queries never
    give the same search query, so the kind and the name can be read
    back from what is sent. *)
Theorem build_search_query_injective (q1 q2 : string) :
  _build_search_query q1 = _build_search_query q2 -> q1 = q2.
Proof.
  intros H. apply (f_equal (fun s => rev (list_ascii_of_string s))) in H.
  destruct (build_cases q1) as [(r1 & -> & E1)|[(r1 & -> & E1)|E1]];
    destruct (build_cases q2) as [(r2 & -> & E2)|[(r2 & -> & E2)|E2]];
    rewrite E1, E2 in H; clear E1 E2;
    rewrite !chars_app, !rev_app_distr in H; simpl in H;
    rewrite <- ?app_assoc in H; simpl in H;
    try discriminate H.
  - injection H as H. apply app_inv_tail in H.
    apply rev_chars_inj in H. now subst.
  - injection H as H. apply app_inv_tail in H.
    apply rev_chars_inj in H. now subst.
  - injection H as H. apply app_inv_tail in H.
    now apply rev_chars_inj in H.
Qed.

Lemma build_search_query_injective_witness :
  _build_search_query "job:pnl" <> _build_search_query "table:pnl".
Proof.
  intros H. apply build_search_query_injective in H. discriminate H.
Defined.

End BuildQuery.

(** ** Reading the configuration after the defaults *)

Section ConfigReads.

Import Config.

Lemma split_two (key subkey : string) :
  NoDot key -> NoDot subkey ->
  PyStr.split "." (key +:+ String "." subkey) = [key; subkey].
Proof.
  intros Hk Hs. induction key as [|c key IH]; simpl.
  - now rewrite split_NoDot.
  - apply NoDot_cons in Hk as [Hc Hk].
    destruct (Ascii.eqb_spec c "."%char) as [->|_]; [congruence|].
    now rewrite (IH Hk).
Qed.

Lemma section_names_no_dot (key : string) :
  In key section_names -> NoDot key.
Proof.
  unfold section_names. simpl.
  intros [<-|[<-|[<-|[<-|[<-|[]]]]]]; apply NoDot_of_contains; reflexivity.
Qed.

Lemma defaults_key_in_names (llm_api_key key : string) (dv : PyVal) :
  In (key, dv) (defaults llm_api_key) -> In key section_names.
Proof.
  intros H. rewrite <- (defaults_names llm_api_key).
  apply in_map_iff. now exists (key, dv).
Qed.

(** What [_set_defaults] leaves, from the lemma on [merge_defaults]. *)
Lemma set_defaults_result (llm_api_key : string)
    (config config' : gmap string PyVal) :
  SectionsAreDicts config ->
  _set_defaults llm_api_key config = inr config' ->
  (forall key, ~ In key section_names -> config' !! key = config !! key) /\
  (forall key d, In (key, VDict d) (defaults llm_api_key) ->
                 config' !! key = Some (merged_section config key d)).
Proof.
  intros Hwf E. unfold _set_defaults in E.
  destruct (merge_defaults_ok (defaults llm_api_key) config)
    as (c & Ec & Hout & Hin).
  - rewrite defaults_names. exact section_names_nodup.
  - apply defaults_are_dicts.
  - rewrite defaults_names. exact Hwf.
  - rewrite Ec in E. injection E as <-. split; [|exact Hin].
    intros key Hk. apply Hout. now rewrite defaults_names.
Qed.

Lemma lookup_merged (config : gmap string PyVal) (key subkey : string)
    (d : gmap string PyVal) :
  (forall v, config !! key = Some v -> exists m, v = VDict m) ->
  exists m,
    merged_section config key d = VDict m /\
    m !! subkey = match lookup2 config key subkey with
                  | Some v => Some v
                  | None => d !! subkey
                  end.
Proof.
  intros Hwf. unfold merged_section, lookup2.
  destruct (config !! key) as [v|] eqn:E.
  - destruct (Hwf v eq_refl) as [m ->]. exists (m ∪ d). split; [reflexivity|].
    rewrite lookup_union. now destruct (m !! subkey), (d !! subkey).
  - now exists d.
Qed.

Lemma get_dotted_after_defaults (llm_api_key : string)
    (config config' : gmap string PyVal) (key subkey : string)
    (d : gmap string PyVal) (dv fallback : PyVal) :
  SectionsAreDicts config ->
  _set_defaults llm_api_key config = inr config' ->
  In (key, VDict d) (defaults llm_api_key) ->
  d !! subkey = Some dv ->
  NoDot subkey ->
  get config' (key +:+ String "." subkey) fallback
  = default dv (lookup2 config key subkey).
Proof.
  intros Hwf E Hin Hd Hs.
  pose proof (defaults_key_in_names _ _ _ Hin) as Hkey.
  destruct (set_defaults_result _ _ _ Hwf E) as [_ Hsec].
  destruct (lookup_merged config key subkey d (fun v => Hwf key v Hkey))
    as (m & Em & Hm).
  unfold get. rewrite split_two by (auto using section_names_no_dot).
  simpl. rewrite (Hsec key d Hin), Em, Hm.
  destruct (lookup2 config key subkey); [reflexivity|].
  now rewrite Hd.
Qed.

(** X14: once the defaults are set, [get] on a dotted key
    [section.subkey] that the defaults document returns the user's value
    when the user's file supplies it and the documented default
    otherwise; the fallback passed to [get] is never returned. *)
Theorem get_after_defaults (llm_api_key : string)
    (config config' : gmap string PyVal) (key subkey : string)
    (d : gmap string PyVal) (dv fallback : PyVal) :
  SectionsAreDicts config ->
  _set_defaults llm_api_key config = inr config' ->
  In (key, VDict d) (defaults llm_api_key) ->
  d !! subkey = Some dv ->
  NoDot subkey ->
  get config' (key +:+ String "." subkey) fallback
  = default dv (lookup2 config key subkey).
Proof. apply get_dotted_after_defaults; assumption. Qed.

End ConfigReads.

Section ConfigGetters.

Import Config ConfigLoad.

Ltac getter_after_defaults Hwf E key subkey :=
  refine (get_dotted_after_defaults _ _ _ key subkey _ _ _ Hwf E _ _ _);
  [ repeat first [left; reflexivity | right]
  | reflexivity
  | apply NoDot_of_contains; reflexivity ].

(** X15: once the defaults are set, every getter of a documented key
    returns the value of the user's file when it supplies the key, and
    the documented default otherwise. *)
Theorem getters_after_defaults (llm_api_key : string)
    (config config' : gmap string PyVal) :
  SectionsAreDicts config ->
  _set_defaults llm_api_key config = inr config' ->
  get_sourcegraph_endpoint config'
  = default (VStr "https://sourcegraph.example.com/.api/graphql")
            (lookup2 config "sourcegraph" "endpoint") /\
  get_sourcegraph_token config'
  = default (VStr EmptyString) (lookup2 config "sourcegraph" "token") /\
  get_afs_root_path config'
  = default (VStr "/afs/project") (lookup2 config "afs" "root_path") /\
  get_afs_search_patterns config'
  = default (VList [VStr ".*\.py$"; VStr ".*\.sql$"; VStr ".*\.ipynb$"])
            (lookup2 config "afs" "search_patterns") /\
  is_llm_enabled config'
  = default (VBool false) (lookup2 config "llm" "enabled") /\
  get_log_level config'
  = default (VStr "INFO") (lookup2 config "logging" "level") /\
  get_max_workers config'
  = default (VInt 4) (lookup2 config "performance" "max_workers") /\
  get_request_timeout config'
  = default (VInt 30) (lookup2 config "performance" "request_timeout") /\
  get_max_retries config'
  = default (VInt 3) (lookup2 config "performance" "max_retries").
Proof.
  intros Hwf E.
  unfold get_sourcegraph_endpoint, get_sourcegraph_token, get_afs_root_path,
    get_afs_search_patterns, is_llm_enabled, get_log_level, get_max_workers,
    get_request_timeout, get_max_retries.
  repeat apply conj.
  - getter_after_defaults Hwf E "sourcegraph" "endpoint".
  - getter_after_defaults Hwf E "sourcegraph" "token".
  - getter_after_defaults Hwf E "afs" "root_path".
  - getter_after_defaults Hwf E "afs" "search_patterns".
  - getter_after_defaults Hwf E "llm" "enabled".
  - getter_after_defaults Hwf E "logging" "level".
  - getter_after_defaults Hwf E "performance" "max_workers".
  - getter_after_defaults Hwf E "performance" "request_timeout".
  - getter_after_defaults Hwf E "performance" "max_retries".
Qed.

End ConfigGetters.

(** ** Setting the defaults twice, and on a section that is no mapping *)

Section ConfigRobustness.

Import Config ConfigLoad.

Lemma merged_section_dict (config : gmap string PyVal) (key : string)
    (d : gmap string PyVal) :
  (forall v, config !! key = Some v -> exists m, v = VDict m) ->
  exists m, merged_section config key d = VDict m /\ m ∪ d = m.
Proof.
  intros Hwf. unfold merged_section.
  destruct (config !! key) as [v|] eqn:E.
  - destruct (Hwf v eq_refl) as [m ->]. exists (m ∪ d). split; [reflexivity|].
    apply map_eq. intros j. rewrite !lookup_union.
    now destruct (m !! j), (d !! j).
  - exists d. split; [reflexivity|].
    apply map_eq. intros j. rewrite lookup_union. now destruct (d !! j).
Qed.

(** X16: setting the defaults is idempotent: on a configuration that
    already went through [_set_defaults] it succeeds and changes
    nothing. *)
Theorem set_defaults_idempotent (llm_api_key : string)
    (config config' : gmap string PyVal) :
  SectionsAreDicts config ->
  _set_defaults llm_api_key config = inr config' ->
  _set_defaults llm_api_key config' = inr config'.
Proof.
  intros Hwf E.
  destruct (set_defaults_result _ _ _ Hwf E) as [Hout Hsec].
  assert (forall key, In key section_names ->
            exists d m, In (key, VDict d) (defaults llm_api_key) /\
                        config' !! key = Some (VDict m) /\ m ∪ d = m) as Hin.
  { intros key Hkey. rewrite <- (defaults_names llm_api_key) in Hkey.
    apply in_map_iff in Hkey as ([k dv] & Hk & Hd). simpl in Hk. subst k.
    destruct (defaults_are_dicts _ _ _ Hd) as [d ->].
    destruct (merged_section_dict config key d) as (m & Em & Hm).
    - intros v. apply Hwf. exact (defaults_key_in_names _ _ _ Hd).
    - exists d, m. rewrite (Hsec key d Hd), Em. auto. }
  assert (SectionsAreDicts config') as Hwf'.
  { intros key v Hkey Hv. destruct (Hin key Hkey) as (d & m & _ & Em & _).
    rewrite Em in Hv. injection Hv as <-. eauto. }
  destruct (_set_defaults llm_api_key config') as [e|config''] eqn:E'.
  - unfold _set_defaults in E'.
    destruct (merge_defaults_ok (defaults llm_api_key) config')
      as (c & Ec & _).
    + rewrite defaults_names. exact section_names_nodup.
    + apply defaults_are_dicts.
    + rewrite defaults_names. exact Hwf'.
    + congruence.
  - destruct (set_defaults_result _ _ _ Hwf' E') as [Hout' Hsec'].
    f_equal. apply map_eq. intros key.
    destruct (in_dec string_dec key section_names) as [Hkey|Hkey].
    + destruct (Hin key Hkey) as (d & m & Hd & Em & Hm).
      rewrite (Hsec' key d Hd). unfold merged_section. now rewrite Em, Hm.
    + now apply Hout'.
Qed.

Lemma merge_section_scalar (l : list (string * PyVal)) (v : PyVal) :
  Scalar v -> l <> [] -> merge_section l v = inl TypeError.
Proof.
  intros Hv Hl. destruct l as [|[k x] l]; [congruence|].
  destruct v; simpl in *; try contradiction; reflexivity.
Qed.

Lemma merge_section_error (l : list (string * PyVal)) :
  forall section e, merge_section l section = inl e -> e = TypeError.
Proof.
  induction l as [|[k x] l IH]; intros section e; simpl; [discriminate|].
  destruct section; simpl; try (intros H; now injection H);
    repeat match goal with
           | |- context [if ?b then _ else _] => destruct b
           end; try apply IH; try (intros H; now injection H).
Qed.

Lemma merge_defaults_scalar (defs : list (string * PyVal)) :
  forall (config : gmap string PyVal) key d v,
    NoDup (map fst defs) ->
    In (key, VDict d) defs -> d <> ∅ ->
    config !! key = Some v -> Scalar v ->
    merge_defaults defs config = inl TypeError.
Proof.
  induction defs as [|[k dv] rest IH]; intros config key d v Hnd Hin Hd Hc Hv;
    [contradiction|].
  apply NoDup_cons in Hnd as [Hk Hnd]. rewrite list_elem_of_In in Hk.
  simpl in Hk. destruct Hin as [Hin|Hin].
  - injection Hin as -> ->. simpl. rewrite Hc.
    rewrite merge_section_scalar; [reflexivity | exact Hv |].
    intros H. apply Hd. now apply map_to_list_empty_iff.
  - assert (k <> key) as Hne.
    { intros ->. apply Hk. apply in_map_iff. now exists (key, VDict d). }
    simpl. destruct (config !! k) as [section|] eqn:Ek.
    + destruct dv; try (eapply IH; eassumption).
      destruct (merge_section (map_to_list m) section) as [e|section'] eqn:Em.
      * now rewrite (merge_section_error _ _ _ Em).
      * eapply IH; try eassumption. now rewrite lookup_insert_ne.
    + eapply IH; try eassumption. now rewrite lookup_insert_ne.
Qed.

Lemma defaults_nonempty (llm_api_key key : string) (d : gmap string PyVal) :
  In (key, VDict d) (defaults llm_api_key) -> d <> ∅.
Proof.
  unfold defaults. simpl.
  intros [H|[H|[H|[H|[H|[]]]]]]; injection H as _ <-;
    apply insert_non_empty.
Qed.

(** X17: when the user's file gives one of the default sections the
    value [None] (a section left empty), a boolean or a number, setting
    the defaults raises [TypeError], whatever the rest of the file
    holds. *)
Theorem set_defaults_scalar_section (llm_api_key : string)
    (config : gmap string PyVal) (key : string) (v : PyVal) :
  In key section_names ->
  config !! key = Some v ->
  Scalar v ->
  _set_defaults llm_api_key config = inl TypeError.
Proof.
  intros Hkey Hc Hv. rewrite <- (defaults_names llm_api_key) in Hkey.
  apply in_map_iff in Hkey as ([k dv] & Hk & Hd). simpl in Hk. subst k.
  destruct (defaults_are_dicts _ _ _ Hd) as [d ->].
  unfold _set_defaults.
  apply (merge_defaults_scalar _ config key d v); try assumption.
  - rewrite defaults_names. exact section_names_nodup.
  - exact (defaults_nonempty _ _ _ Hd).
Qed.

End ConfigRobustness.

(** ** The constructor *)

Section ConfigInit.

Import Config ConfigLoad.

Lemma set_defaults_empty (llm_api_key : string) :
  _set_defaults llm_api_key ∅ = inr (list_to_map (defaults llm_api_key)).
Proof.
  destruct (_set_defaults llm_api_key ∅) as [e|config'] eqn:E.
  - unfold _set_defaults in E.
    destruct (merge_defaults_ok (defaults llm_api_key) ∅) as (c & Ec & _).
    + rewrite defaults_names. exact section_names_nodup.
    + apply defaults_are_dicts.
    + intros key v _ H. rewrite lookup_empty in H. discriminate.
    + congruence.
  - assert (SectionsAreDicts ∅) as Hwf
      by (intros key v _ H; rewrite lookup_empty in H; discriminate).
    destruct (set_defaults_result _ _ _ Hwf E) as [Hout Hsec].
    f_equal. apply map_eq. intros key.
    destruct (in_dec string_dec key section_names) as [Hkey|Hkey].
    + unfold section_names in Hkey. simpl in Hkey.
      destruct Hkey as [<-|[<-|[<-|[<-|[<-|[]]]]]];
        (erewrite Hsec by (repeat first [left; reflexivity | right]));
        reflexivity.
    + rewrite (Hout key Hkey), lookup_empty. symmetry.
      apply not_elem_of_list_to_map_1.
      rewrite list_elem_of_In, defaults_names. exact Hkey.
Qed.

(** X18: which file the constructor reads.  With an explicit path the
    result depends on that file alone: the [config.yaml] of the current
    directory and of the home directory are not consulted, even when the
    named file does not exist.  Without a path, the file of the current
    directory is used when it exists, else the one of the home directory,
    else none. *)
Theorem init_path_precedence (llm_api_key : string) (files : Files)
    (current_dir_config home_config : string) :
  (forall p files' current_dir_config' home_config',
     files p = files' p ->
     init llm_api_key files current_dir_config home_config (Some p)
     = init llm_api_key files' current_dir_config' home_config' (Some p)) /\
  (is_Some (files current_dir_config) ->
   init llm_api_key files current_dir_config home_config None
   = init llm_api_key files current_dir_config home_config
       (Some current_dir_config)) /\
  (files current_dir_config = None -> is_Some (files home_config) ->
   init llm_api_key files current_dir_config home_config None
   = init llm_api_key files current_dir_config home_config
       (Some home_config)) /\
  (files current_dir_config = None -> files home_config = None ->
   init llm_api_key files current_dir_config home_config None
   = _set_defaults llm_api_key ∅).
Proof.
  unfold init, resolve, load. repeat apply conj.
  - intros p files' c' h' ->. reflexivity.
  - intros H. now rewrite bool_decide_eq_true_2.
  - intros Hc Hh. rewrite Hc.
    rewrite bool_decide_eq_false_2 by (intros [? ?]; discriminate).
    now rewrite bool_decide_eq_true_2.
  - intros -> ->.
    now rewrite !bool_decide_eq_false_2 by (intros [? ?]; discriminate).
Qed.

(** X19: when the file the constructor settles on does not exist, or is
    empty (loaded as [None]) or holds an empty mapping, the configuration
    is exactly the documented defaults. *)
Theorem init_without_content (llm_api_key : string) (files : Files)
    (current_dir_config home_config : string) (config_path : option string) :
  (config_path = None /\ files current_dir_config = None /\
   files home_config = None) \/
  (exists p, config_path = Some p /\
             (files p = None \/ files p = Some VNone \/
              files p = Some (VDict ∅))) ->
  init llm_api_key files current_dir_config home_config config_path
  = inr (list_to_map (defaults llm_api_key)).
Proof.
  rewrite <- set_defaults_empty. unfold init, resolve, load.
  intros [(-> & -> & ->)|(p & -> & H)].
  - now rewrite !bool_decide_eq_false_2 by (intros [? ?]; discriminate).
  - destruct (String.eqb p EmptyString); [reflexivity|].
    destruct H as [->|[->| ->]]; reflexivity.
Qed.

End ConfigInit.

Section ConfigWitnesses.

Import Config ConfigLoad.

Lemma test_config_wf : SectionsAreDicts test_config.
Proof. exact test_config_sections. Qed.

Lemma get_after_defaults_witness :
  exists config',
    _set_defaults EmptyString test_config = inr config' /\
    get config' "afs.root_path" (VStr "unused") = VStr "/custom/afs/path" /\
    get config' "logging.level" (VStr "unused") = VStr "INFO".
Proof.
  destruct (_set_defaults EmptyString test_config) as [e|config'] eqn:E;
    [vm_compute in E; discriminate E|].
  exists config'. split; [reflexivity|]. split.
  - refine (get_after_defaults EmptyString test_config config' "afs"
              "root_path" _ (VStr "/afs/project") _ test_config_wf E _ _ _).
    + right; left; reflexivity.
    + reflexivity.
    + apply NoDot_of_contains; reflexivity.
  - refine (get_after_defaults EmptyString test_config config' "logging"
              "level" _ (VStr "INFO") _ test_config_wf E _ _ _).
    + do 3 right; left; reflexivity.
    + reflexivity.
    + apply NoDot_of_contains; reflexivity.
Defined.

Lemma getters_after_defaults_witness :
  exists config',
    _set_defaults EmptyString test_config = inr config' /\
    get_sourcegraph_endpoint config'
    = VStr "https://custom.sourcegraph.com/.api/graphql" /\
    get_max_retries config' = VInt 3.
Proof.
  destruct (_set_defaults EmptyString test_config) as [e|config'] eqn:E;
    [vm_compute in E; discriminate E|].
  exists config'. split; [reflexivity|].
  destruct (getters_after_defaults EmptyString test_config config'
              test_config_wf E) as (H1 & _ & _ & _ & _ & _ & _ & _ & H9).
  split; [exact H1 | exact H9].
Defined.

Lemma set_defaults_idempotent_witness :
  exists config',
    _set_defaults EmptyString test_config = inr config' /\
    _set_defaults EmptyString config' = inr config'.
Proof.
  destruct (_set_defaults EmptyString test_config) as [e|config'] eqn:E;
    [vm_compute in E; discriminate E|].
  exists config'. split; [reflexivity|].
  exact (set_defaults_idempotent EmptyString test_config config'
           test_config_wf E).
Defined.

Lemma set_defaults_scalar_section_witness :
  _set_defaults EmptyString
    (<["llm" := VNone]> test_config) = inl TypeError.
Proof.
  refine (set_defaults_scalar_section EmptyString _ "llm" VNone _ _ I).
  - do 2 right; left; reflexivity.
  - reflexivity.
Defined.

Lemma init_path_precedence_witness :
  is_Some (test_files "./config.yaml") /\
  init EmptyString test_files "./config.yaml" "~/.trace/config.yaml" None
  = init EmptyString test_files "./config.yaml" "~/.trace/config.yaml"
      (Some "./config.yaml").
Proof.
  assert (is_Some (test_files "./config.yaml")) as H
    by (exists (VDict test_config); reflexivity).
  split; [exact H|].
  destruct (init_path_precedence EmptyString test_files "./config.yaml"
              "~/.trace/config.yaml") as (_ & H2 & _).
  exact (H2 H).
Defined.

Lemma init_without_content_witness :
  init EmptyString test_files "./config.yaml" "~/.trace/config.yaml"
    (Some "missing.yaml")
  = inr (list_to_map (defaults EmptyString)).
Proof.
  refine (init_without_content EmptyString test_files "./config.yaml"
            "~/.trace/config.yaml" (Some "missing.yaml") _).
  right. exists "missing.yaml". split; [reflexivity | left; reflexivity].
Defined.

End ConfigWitnesses.

(** ** The reply of the model *)

Section ParseSummary.

Import SummaryText.

Lemma fold_left_invariant {A B : Type} (P : A -> Prop) (f : A -> B -> A)
    (l : list B) :
  (forall a b, In b l -> P a -> P (f a b)) ->
  forall a, P a -> P (fold_left f l a).
Proof.
  induction l as [|b l IH]; intros Hf a Ha; simpl; [exact Ha|].
  apply IH.
  - intros a' b' Hb. apply Hf. now right.
  - apply Hf; [now left | exact Ha].
Qed.

(** X20: a reply none of whose lines begins with [RISK_LEVEL:],
    [IMPACT:] or [STEPS:] is not an error: the summary has risk level
    [UNKNOWN], the whole reply as impact summary and no steps.  A marker
    that is not at the very start of a line, after a blank for instance,
    is not seen. *)
Theorem parse_summary_no_marker (summary_text : string) :
  (forall line,
     In line (PyStr.split (ascii_of_nat 10) summary_text) ->
     PyStr.startswith line "RISK_LEVEL:" = false /\
     PyStr.startswith line "IMPACT:" = false /\
     PyStr.startswith line "STEPS:" = false) ->
  _parse_summary summary_text
  = {| risk_level := "UNKNOWN";
       impact_summary := summary_text;
       suggested_next_steps := [] |}.
Proof.
  intros H. unfold _parse_summary.
  apply (fold_left_invariant
           (fun acc => acc = {| risk_level := "UNKNOWN";
                                impact_summary := summary_text;
                                suggested_next_steps := [] |}));
    [|reflexivity].
  intros acc line Hin ->. destruct (H line Hin) as (Hr & Hi & Hs).
  unfold parse_line. now rewrite Hr, Hi, Hs.
Qed.

Lemma parse_summary_no_marker_witness :
  _parse_summary " RISK_LEVEL: high; it depends"
  = {| risk_level := "UNKNOWN";
       impact_summary := " RISK_LEVEL: high; it depends";
       suggested_next_steps := [] |}.
Proof.
  apply parse_summary_no_marker.
  intros line [<-|[]]. repeat split.
Defined.

Lemma upper_char_idem (c : ascii) : upper_char (upper_char c) = upper_char c.
Proof.
  destruct c as [[] [] [] [] [] [] [] []]; reflexivity.
Qed.

Lemma upper_idem (s : string) : upper (upper s) = upper s.
Proof.
  induction s as [|c s IH]; simpl; [reflexivity|].
  now rewrite upper_char_idem, IH.
Qed.

Lemma lstrip_shape (s : string) :
  lstrip s = EmptyString \/
  exists c t, lstrip s = String c t /\ is_space c = false.
Proof.
  induction s as [|c s IH]; simpl; [now left|].
  destruct (is_space c) eqn:E; [exact IH|]. right. eauto.
Qed.

Lemma rstrip_idem (s : string) : rstrip (rstrip s) = rstrip s.
Proof.
  induction s as [|c s IH]; simpl; [reflexivity|].
  destruct (rstrip s) as [|d r] eqn:E.
  - destruct (is_space c) eqn:Ec; simpl; [reflexivity|]. now rewrite Ec.
  - simpl. simpl in IH. now rewrite IH.
Qed.

Lemma rstrip_head (c : ascii) (t : string) :
  is_space c = false ->
  exists r, rstrip (String c t) = String c r.
Proof.
  intros Hc. simpl. destruct (rstrip t); [rewrite Hc|]; eauto.
Qed.

Lemma strip_idem (s : string) : strip (strip s) = strip s.
Proof.
  unfold strip. destruct (lstrip_shape s) as [->|(c & t & -> & Hc)];
    [reflexivity|].
  destruct (rstrip_head c t Hc) as [r Hr]. rewrite Hr.
  simpl lstrip. rewrite Hc, <- Hr. apply rstrip_idem.
Qed.

Lemma steps_of_clean (steps_text : string) :
  Forall (fun s => s <> EmptyString /\ strip s = s) (steps_of steps_text).
Proof.
  unfold steps_of. apply List.Forall_forall. intros s Hs.
  apply in_flat_map in Hs as (x & _ & Hx).
  destruct (strip x) as [|c t] eqn:E; [contradiction|].
  destruct Hx as [<-|[]]. split; [discriminate|].
  rewrite <- E. apply strip_idem.
Qed.

(** X21: for every ASCII reply, the risk level of the parsed summary is
    in upper case, and every suggested next step is non-empty and carries
    no blank at either end. *)
Theorem parse_summary_normalised (summary_text : string) :
  IsAscii summary_text ->
  upper (risk_level (_parse_summary summary_text))
  = risk_level (_parse_summary summary_text) /\
  Forall (fun s => s <> EmptyString /\ strip s = s)
         (suggested_next_steps (_parse_summary summary_text)).
Proof.
  intros _. unfold _parse_summary.
  apply (fold_left_invariant
           (fun acc => upper (risk_level acc) = risk_level acc /\
                       Forall (fun s => s <> EmptyString /\ strip s = s)
                              (suggested_next_steps acc))).
  - intros acc line _ [Hr Hs]. unfold parse_line.
    destruct (PyStr.startswith line "RISK_LEVEL:");
      [simpl; split; [apply upper_idem | exact Hs]|].
    destruct (PyStr.startswith line "IMPACT:"); [simpl; auto|].
    destruct (PyStr.startswith line "STEPS:"); [|auto].
    simpl. split; [exact Hr | apply steps_of_clean].
  - split; [reflexivity | constructor].
Qed.

(** A reply with a risk level in small letters and steps with blanks
    around them and an empty step between them. *)
Lemma parse_summary_normalised_witness :
  let reply := "RISK_LEVEL: high" +:+ nl +:+ "STEPS:  notify owners ;; rerun " in
  IsAscii reply /\
  risk_level (_parse_summary reply) = "HIGH" /\
  suggested_next_steps (_parse_summary reply) = ["notify owners"; "rerun"] /\
  upper (risk_level (_parse_summary reply)) = risk_level (_parse_summary reply) /\
  Forall (fun s => s <> EmptyString /\ strip s = s)
         (suggested_next_steps (_parse_summary reply)).
Proof.
  intros reply.
  assert (IsAscii reply) as H by reflexivity.
  split; [exact H|]. split; [reflexivity|]. split; [reflexivity|].
  exact (parse_summary_normalised reply H).
Defined.

End ParseSummary.

(** ** A reply in the requested format *)

Section ReplyFormat.

Import SummaryText.

Lemma lacks_cons (c d : ascii) (s : string) :
  Lacks c (String d s) <-> d <> c /\ Lacks c s.
Proof. unfold Lacks. simpl. tauto. Qed.

Lemma lacks_app (c : ascii) (a b : string) :
  Lacks c (a +:+ b) <-> Lacks c a /\ Lacks c b.
Proof. unfold Lacks. rewrite chars_app, in_app_iff. tauto. Qed.

Lemma split_lacks (c : ascii) (s : string) :
  Lacks c s -> PyStr.split c s = [s].
Proof.
  induction s as [|d s IH]; intros H; simpl; [reflexivity|].
  apply lacks_cons in H as [Hd Hs].
  destruct (Ascii.eqb_spec d c) as [->|_]; [congruence|].
  now rewrite (IH Hs).
Qed.

Lemma split_app_sep (c : ascii) (a b : string) :
  Lacks c a -> PyStr.split c (a +:+ String c b) = a :: PyStr.split c b.
Proof.
  induction a as [|d a IH]; intros H; simpl.
  - now rewrite Ascii.eqb_refl.
  - apply lacks_cons in H as [Hd Ha].
    destruct (Ascii.eqb_spec d c) as [->|_]; [congruence|].
    now rewrite (IH Ha).
Qed.

Lemma replace_from_skip (old new a rest : string) :
  replace_from old new (String.length a) (a +:+ rest)
  = replace_from old new 0 rest.
Proof.
  induction a as [|c a IH]; simpl; [|exact IH].
  destruct rest; reflexivity.
Qed.

Lemma replace_from_0 (old new : string) (c : ascii) (s : string) :
  replace_from old new 0 (String c s)
  = if PyStr.startswith (String c s) old
    then new +:+ replace_from old new (String.length old - 1) s
    else String c (replace_from old new 0 s).
Proof. reflexivity. Qed.

Lemma replace_prefix (c : ascii) (old' new rest : string) :
  replace (String c old') new (String c old' +:+ rest)
  = new +:+ replace (String c old') new rest.
Proof.
  unfold replace.
  change (String c old' +:+ rest) with (String c (old' +:+ rest)).
  rewrite replace_from_0.
  change (String c (old' +:+ rest)) with (String c old' +:+ rest).
  rewrite startswith_app.
  replace (String.length (String c old') - 1)%nat with (String.length old')
    by (simpl; lia).
  now rewrite replace_from_skip.
Qed.

Lemma replace_absent (old new s : string) :
  PyStr.contains old s = false -> replace old new s = s.
Proof.
  unfold replace. induction s as [|c s IH]; intros H; simpl; [reflexivity|].
  simpl in H. apply orb_false_iff in H as [Hs Hc].
  rewrite Hs. now rewrite (IH Hc).
Qed.

Lemma strip_fixed (s : string) :
  strip s = s -> s <> EmptyString ->
  (exists c t, s = String c t /\ is_space c = false) /\ rstrip s = s.
Proof.
  unfold strip. intros H Hne.
  destruct (lstrip_shape s) as [E|(c & t & E & Hc)].
  - rewrite E in H. simpl in H. congruence.
  - destruct (rstrip_head c t Hc) as [r Hr]. rewrite E, Hr in H.
    assert (lstrip s = s) as El.
    { rewrite <- H. simpl. now rewrite Hc. }
    split; [exists c, r; auto|]. rewrite El in E. rewrite <- E in Hr.
    rewrite <- H at 2. rewrite <- Hr. now rewrite E.
Qed.

Lemma rstrip_app (a b : string) :
  rstrip b <> EmptyString -> rstrip (a +:+ b) = a +:+ rstrip b.
Proof.
  intros Hb. induction a as [|c a IH]; simpl; [reflexivity|].
  rewrite IH. destruct (a +:+ rstrip b) eqn:E; [|reflexivity].
  destruct a; simpl in E; [congruence | discriminate].
Qed.

Lemma strip_blank (s : string) : strip (String " " s) = strip s.
Proof. reflexivity. Qed.

End ReplyFormat.

Section ReplyRoundTrip.

Import SummaryText.

Lemma marker_line (c : ascii) (marker' rest : string) :
  c <> " "%char ->
  ~ Substring (String c marker') rest ->
  strip (replace (String c marker') EmptyString
           (String c marker' +:+ String " " rest))
  = strip rest.
Proof.
  intros Hc Hrest. rewrite replace_prefix. simpl String.append.
  rewrite replace_absent; [apply strip_blank|].
  simpl. destruct (Ascii.eqb_spec c " "%char) as [->|_]; [congruence|].
  simpl. destruct (PyStr.contains (String c marker') rest) eqn:E;
    [|reflexivity].
  apply contains_spec in E. contradiction.
Qed.

Lemma join_cons (sep x y : string) (rest : list string) :
  join sep (x :: y :: rest) = x +:+ sep +:+ join sep (y :: rest).
Proof. reflexivity. Qed.

Lemma clean_step_head (s : string) :
  CleanStep s ->
  (exists c t, s = String c t /\ is_space c = false) /\ rstrip s = s.
Proof. intros (Hne & (_ & Hs) & _). now apply strip_fixed. Qed.

Lemma join_clean (l : list string) :
  Forall CleanStep l -> l <> [] ->
  join "; " l <> EmptyString /\
  OneLineStripped (join "; " l).
Proof.
  induction l as [|x [|y rest] IH]; intros Hl Hne; [congruence| |].
  - apply List.Forall_inv in Hl. destruct Hl as (H1 & H2 & _). now split.
  - pose proof (List.Forall_inv Hl) as Hx.
    apply List.Forall_inv_tail in Hl.
    destruct (IH Hl ltac:(discriminate)) as (Hj & Hnl & Hs).
    destruct (clean_step_head x Hx) as [(c & t & -> & Hc) _].
    destruct Hx as (_ & (Hxnl & _) & _).
    rewrite join_cons. remember (join "; " (y :: rest)) as J eqn:EJ.
    split; [discriminate|]. split.
    + rewrite !lacks_app. repeat split; try assumption.
      unfold Lacks. simpl. intuition discriminate.
    + unfold strip.
      assert (lstrip (String c t +:+ "; " +:+ J) = String c t +:+ "; " +:+ J)
        as -> by (simpl; now rewrite Hc).
      destruct (strip_fixed _ Hs Hj) as [_ Hr].
      rewrite <- (app_assoc_s (String c t) "; " J).
      rewrite rstrip_app by (now rewrite Hr).
      now rewrite Hr.
Qed.

Lemma step_of_blank (x : string) :
  CleanStep x ->
  match strip (String " " x) with
  | EmptyString => []
  | stripped => [stripped]
  end = [x].
Proof.
  intros (Hne & (_ & Hs) & _). rewrite strip_blank, Hs.
  destruct x; [congruence | reflexivity].
Qed.

Lemma steps_of_split (a b : string) :
  Lacks ";" a ->
  steps_of (a +:+ String ";" b)
  = match strip a with
    | EmptyString => []
    | stripped => [stripped]
    end ++ steps_of b.
Proof.
  intros H. unfold steps_of. now rewrite split_app_sep by exact H.
Qed.

Lemma steps_of_single (a : string) :
  Lacks ";" a ->
  steps_of a = match strip a with
               | EmptyString => []
               | stripped => [stripped]
               end.
Proof.
  intros H. unfold steps_of. rewrite split_lacks by exact H.
  simpl. apply app_nil_r.
Qed.

Lemma lacks_blank (c : ascii) (x : string) :
  c <> " "%char -> Lacks c x -> Lacks c (String " " x).
Proof. intros Hc Hx. apply lacks_cons. split; [congruence | exact Hx]. Qed.

Lemma step_of_clean (x : string) :
  CleanStep x ->
  match strip x with
  | EmptyString => []
  | stripped => [stripped]
  end = [x].
Proof.
  intros (Hne & (_ & Hs) & _). rewrite Hs.
  destruct x; [congruence | reflexivity].
Qed.

Lemma steps_after_blank (l : list string) :
  Forall CleanStep l -> l <> [] ->
  steps_of (String " " (join "; " l)) = l.
Proof.
  induction l as [|x [|y rest] IH]; intros Hl Hne; [congruence| |].
  - apply List.Forall_inv in Hl. simpl join.
    rewrite steps_of_single.
    + apply (step_of_blank x Hl).
    + apply lacks_blank; [discriminate | apply Hl].
  - pose proof (List.Forall_inv Hl) as Hx.
    apply List.Forall_inv_tail in Hl.
    rewrite join_cons.
    specialize (IH Hl ltac:(discriminate)).
    remember (join "; " (y :: rest)) as J eqn:EJ.
    change (String " " (x +:+ "; " +:+ J))
      with (String " " x +:+ String ";" (String " " J)).
    rewrite steps_of_split by (apply lacks_blank; [discriminate | apply Hx]).
    now rewrite (step_of_blank x Hx), IH.
Qed.

(** The steps of a joined list are read back. *)
Lemma steps_of_join (l : list string) :
  Forall CleanStep l ->
  steps_of (strip (String " " (join "; " l))) = l.
Proof.
  intros Hl. destruct l as [|x rest]; [reflexivity|].
  destruct (join_clean (x :: rest) Hl ltac:(discriminate)) as (Hj & _ & Hs).
  rewrite strip_blank, Hs.
  pose proof (List.Forall_inv Hl) as Hx.
  apply List.Forall_inv_tail in Hl.
  destruct rest as [|y rest].
  - simpl join. rewrite steps_of_single by (apply Hx).
    apply (step_of_clean x Hx).
  - rewrite join_cons.
    pose proof (steps_after_blank (y :: rest) Hl ltac:(discriminate)) as Ht.
    remember (join "; " (y :: rest)) as J eqn:EJ.
    change (x +:+ "; " +:+ J) with (x +:+ String ";" (String " " J)).
    rewrite steps_of_split by (apply Hx).
    now rewrite (step_of_clean x Hx), Ht.
Qed.

End ReplyRoundTrip.

Section ReplyFormatTheorem.

Import SummaryText.

Lemma lines_three (a b c : string) :
  Lacks (ascii_of_nat 10) a -> Lacks (ascii_of_nat 10) b ->
  Lacks (ascii_of_nat 10) c ->
  PyStr.split (ascii_of_nat 10) (a +:+ nl +:+ b +:+ nl +:+ c) = [a; b; c].
Proof.
  intros Ha Hb Hc. unfold nl.
  change (a +:+ String (ascii_of_nat 10) EmptyString +:+ b
          +:+ String (ascii_of_nat 10) EmptyString +:+ c)
    with (a +:+ String (ascii_of_nat 10) (b +:+ String (ascii_of_nat 10) c)).
  now rewrite !split_app_sep, split_lacks.
Qed.

Lemma lacks_marker (marker text : string) :
  Lacks (ascii_of_nat 10) marker -> Lacks (ascii_of_nat 10) text ->
  Lacks (ascii_of_nat 10) (marker +:+ String " " text).
Proof.
  intros Hm Ht. apply lacks_app. split; [exact Hm|].
  apply lacks_blank; [discriminate | exact Ht].
Qed.

(** X22: an ASCII reply in the format that the prompt asks for is read
    back: three lines [RISK_LEVEL: level], [IMPACT: impact] and
    [STEPS: step; step; ...] give the level in upper case, the impact and
    the list of the steps, provided the texts are ASCII, each text is on
    one line without blank at either end, no text repeats its own marker,
    and the steps are non-empty and hold no [;]. *)
Theorem parse_summary_format (level impact : string) (steps : list string) :
  IsAscii level -> IsAscii impact -> Forall IsAscii steps ->
  OneLineStripped level ->
  OneLineStripped impact ->
  Forall CleanStep steps ->
  ~ Substring "RISK_LEVEL:" level ->
  ~ Substring "IMPACT:" impact ->
  ~ Substring "STEPS:" (join "; " steps) ->
  _parse_summary
    (("RISK_LEVEL:" +:+ String " " level) +:+ nl
     +:+ ("IMPACT:" +:+ String " " impact) +:+ nl
     +:+ ("STEPS:" +:+ String " " (join "; " steps)))
  = {| risk_level := upper level;
       impact_summary := impact;
       suggested_next_steps := steps |}.
Proof.
  intros _ _ _ [Hln Hls] [Hin His] Hsteps Hlm Him Hsm.
  assert (Lacks (ascii_of_nat 10) (join "; " steps)) as Hjn.
  { destruct steps as [|x rest]; [intros []|].
    now destruct (join_clean (x :: rest) Hsteps ltac:(discriminate))
      as (_ & Hn & _). }
  unfold _parse_summary. rewrite lines_three.
  - remember (join "; " steps) as J eqn:EJ.
    cbn [fold_left]. unfold parse_line at 3.
    replace (PyStr.startswith ("RISK_LEVEL:" +:+ String " " level)
               "RISK_LEVEL:") with true by reflexivity.
    cbn [risk_level impact_summary suggested_next_steps].
    unfold parse_line at 2.
    replace (PyStr.startswith ("IMPACT:" +:+ String " " impact)
               "RISK_LEVEL:") with false by reflexivity.
    replace (PyStr.startswith ("IMPACT:" +:+ String " " impact) "IMPACT:")
      with true by reflexivity.
    cbn [risk_level impact_summary suggested_next_steps].
    unfold parse_line.
    replace (PyStr.startswith ("STEPS:" +:+ String " " J) "RISK_LEVEL:")
      with false by reflexivity.
    replace (PyStr.startswith ("STEPS:" +:+ String " " J) "IMPACT:")
      with false by reflexivity.
    replace (PyStr.startswith ("STEPS:" +:+ String " " J) "STEPS:")
      with true by reflexivity.
    cbn [risk_level impact_summary suggested_next_steps].
    rewrite (marker_line "R" "ISK_LEVEL:" level) by (discriminate || exact Hlm).
    rewrite (marker_line "I" "MPACT:" impact) by (discriminate || exact Him).
    rewrite Hls, His. f_equal.
    rewrite replace_prefix. simpl String.append.
    rewrite replace_absent.
    + subst J. now apply steps_of_join.
    + simpl. destruct (PyStr.contains "STEPS:" J) eqn:E; [|reflexivity].
      apply contains_spec in E. contradiction.
  - apply lacks_marker; [|exact Hln]. unfold Lacks. simpl. intuition discriminate.
  - apply lacks_marker; [|exact Hin]. unfold Lacks. simpl. intuition discriminate.
  - apply lacks_marker; [|exact Hjn]. unfold Lacks. simpl. intuition discriminate.
Qed.

Lemma parse_summary_format_witness :
  IsAscii "high" /\ IsAscii "Two jobs read this table." /\
  Forall IsAscii ["notify owners"; "run the nightly job"] /\
  _parse_summary
    (("RISK_LEVEL:" +:+ String " " "high") +:+ nl
     +:+ ("IMPACT:" +:+ String " " "Two jobs read this table.") +:+ nl
     +:+ ("STEPS:" +:+ String " "
            (join "; " ["notify owners"; "run the nightly job"])))
  = {| risk_level := "HIGH";
       impact_summary := "Two jobs read this table.";
       suggested_next_steps := ["notify owners"; "run the nightly job"] |}.
Proof.
  assert (forall s, PyStr.contains (String (ascii_of_nat 10) EmptyString) s
                    = false -> Lacks (ascii_of_nat 10) s) as Hl.
  { intros s H Hin. apply in_split in Hin as (a & b & E).
    assert (PyStr.contains (String (ascii_of_nat 10) EmptyString) s = true)
      as C; [|congruence].
    apply contains_spec.
    exists (string_of_list_ascii a), (string_of_list_ascii b).
    apply chars_inj. rewrite !chars_app, !list_ascii_of_string_of_list_ascii.
    exact E. }
  assert (forall s, PyStr.contains ";" s = false -> Lacks ";" s) as Hsc.
  { intros s H Hin. apply in_split in Hin as (a & b & E).
    assert (PyStr.contains ";" s = true) as C; [|congruence].
    apply contains_spec.
    exists (string_of_list_ascii a), (string_of_list_ascii b).
    apply chars_inj. rewrite !chars_app, !list_ascii_of_string_of_list_ascii.
    exact E. }
  assert (forall m s, PyStr.contains m s = false -> ~ Substring m s) as Hsub.
  { intros m s H C. apply contains_spec in C. congruence. }
  assert (Forall IsAscii ["notify owners"; "run the nightly job"]) as Ha
    by (repeat constructor).
  split; [reflexivity|]. split; [reflexivity|]. split; [exact Ha|].
  apply (parse_summary_format "high" "Two jobs read this table."
           ["notify owners"; "run the nightly job"]).
  - reflexivity.
  - reflexivity.
  - exact Ha.
  - split; [apply Hl|]; reflexivity.
  - split; [apply Hl|]; reflexivity.
  - repeat constructor; try discriminate; try reflexivity;
      try (apply Hl; reflexivity); try (apply Hsc; reflexivity).
  - apply Hsub; reflexivity.
  - apply Hsub; reflexivity.
  - apply Hsub; reflexivity.
Defined.

End ReplyFormatTheorem.

(** ** The prompt and the calls of the summary step *)

Section PromptAndCalls.

Import SummaryText.

(** X23: the prompt is built from the first 20 references of each list
    only: references beyond the 20th never reach the model, and two
    lists that agree on their first 20 entries give the same prompt. *)
Theorem build_prompt_cap (str_of : PyVal -> string) (query : string)
    (code code' afs afs' : list (gmap string PyVal)) :
  firstn 20 code = firstn 20 code' ->
  firstn 20 afs = firstn 20 afs' ->
  _build_prompt str_of query code afs = _build_prompt str_of query code' afs'.
Proof. intros Hc Ha. unfold _build_prompt. now rewrite Hc, Ha. Qed.

Lemma build_prompt_cap_witness :
  let str_of := fun v => match v with VStr s => s | _ => EmptyString end in
  let ref := fun (s : string) => ({["path" := VStr s]} : gmap string PyVal) in
  _build_prompt str_of "file.py" (repeat (ref "a.py") 20 ++ [ref "late.py"])
    [ref "b.py"]
  = _build_prompt str_of "file.py" (repeat (ref "a.py") 20) [ref "b.py"].
Proof.
  intros str_of ref.
  exact (build_prompt_cap str_of "file.py"
           (repeat (ref "a.py") 20 ++ [ref "late.py"])
           (repeat (ref "a.py") 20) [ref "b.py"] [ref "b.py"]
           eq_refl eq_refl).
Defined.

(** X24: as shipped, [main] raises [TypeError] before any search: it
    constructs the filesystem searcher with the keyword [verbose], which
    [AFSSearcher.__init__] of [traceit/search_afs.py] does not take.
    This holds whatever the query, the options, the configuration and
    the storage, so that [main] returns no references and no summary,
    and sends nothing to the model.  The same construction without
    [verbose] returns the searcher. *)
Theorem main_raises {CodeRefT : Type}
    (build_prompt : string -> list CodeRefT -> list AfsRef -> string)
    (parse_summary : string -> Summary)
    (query : string) (output_json generate_summary : bool)
    (depth : option Z) (verbose : bool)
    (root_path : Path) (search_patterns : option (list Pattern))
    (llm_enabled : bool) (summarizer : ImpactSummarizer)
    (code_refs : list CodeRefT) (st : Storage) (still_alive : bool) :
  Cli.main build_prompt parse_summary query output_json generate_summary
    depth verbose root_path search_patterns llm_enabled summarizer
    code_refs st still_alive
  = inl TypeError /\
  Cli.construct_AFSSearcher ["root_path"; "search_patterns"; "verbose"]
    root_path search_patterns
  = inl TypeError /\
  Cli.construct_AFSSearcher ["root_path"; "search_patterns"]
    root_path search_patterns
  = inr (Traceit.init root_path search_patterns).
Proof. repeat split. Qed.

End PromptAndCalls.

(** ** The two filesystem clients against each other *)

Section ClientsAgree.

(** X25: when [exists] answers on the root and no time conversion
    fails, the search of [traceit], if its worker finishes in time and
    the storage holds no directory nested deeper than [max_depth] levels
    below the root, returns the same references, in the same order, as
    the search of [trace] with the same root and patterns; this includes
    the roots that are missing or cannot be listed. *)
Theorem search_agree (selfT : Traceit.AFSSearcher) (self : Trace.AFSSearcher)
    (st : Storage) (query : string) (max_depth : Z) :
  exists_raises st = false ->
  (forall p, stat_iso st p <> TimeFails) ->
  Traceit.root_path selfT = Trace.root_path self ->
  Traceit.compiled_patterns selfT = Trace.compiled_patterns self ->
  (forall tree, root_node st = Some tree ->
                (Z.of_nat (height tree) <= max_depth + 1)%Z) ->
  Trace.search self st query
  = inr (Traceit.search selfT st false query max_depth).
Proof.
  intros Hex Hok Hr Hp Hh.
  unfold Traceit.search, Traceit.search_worker, Traceit._ping_afs_location,
    Trace.search.
  rewrite Hex.
  destruct (root_node st) as [tree|] eqn:E; [|reflexivity].
  specialize (Hh tree eq_refl).
  destruct tree as [|[|] es]; simpl.
  - reflexivity.
  - rewrite (find_unlimited_eq selfT self _ _ _ Hr Hp Hh).
    rewrite refs_loop_agree.
    rewrite !traceit_refs_loop_ok by (intros p _; apply Hok).
    reflexivity.
  - reflexivity.
Qed.

Lemma search_agree_witness :
  let r := {| afs_path := ["/"; "afs"; "a"; "x.py"];
              afs_last_modified := "2024-01-01T00:00:00";
              afs_type := "afs" |} in
  exists_raises example_storage = false /\
  (forall p, stat_iso example_storage p <> TimeFails) /\
  (forall tree, root_node example_storage = Some tree ->
                (Z.of_nat (height tree) <= 1 + 1)%Z) /\
  Traceit.search (Traceit.init ["/"; "afs"] None) example_storage false
    "job:x" 1 = [r] /\
  Trace.search (Trace.init ["/"; "afs"] None) example_storage "job:x"
  = inr (Traceit.search (Traceit.init ["/"; "afs"] None) example_storage false
           "job:x" 1).
Proof.
  intros r.
  assert (forall p, stat_iso example_storage p <> TimeFails) as Hok
    by (intros p; discriminate).
  assert (forall tree, root_node example_storage = Some tree ->
                       (Z.of_nat (height tree) <= 1 + 1)%Z) as H.
  { intros tree E. injection E as <-. simpl. lia. }
  split; [reflexivity|]. split; [exact Hok|]. split; [exact H|].
  split; [reflexivity|].
  exact (search_agree (Traceit.init ["/"; "afs"] None)
           (Trace.init ["/"; "afs"] None) example_storage "job:x" 1
           eq_refl Hok eq_refl eq_refl H).
Defined.

Lemma lower_upper_char (c : ascii) :
  PyStr.lower_char (SummaryText.upper_char c) = PyStr.lower_char c.
Proof. destruct c as [[] [] [] [] [] [] [] []]; reflexivity. Qed.

Lemma lower_char_idem (c : ascii) :
  PyStr.lower_char (PyStr.lower_char c) = PyStr.lower_char c.
Proof. destruct c as [[] [] [] [] [] [] [] []]; reflexivity. Qed.

Lemma lower_upper (s : string) :
  PyStr.lower (SummaryText.upper s) = PyStr.lower s.
Proof.
  induction s as [|c s IH]; simpl; [reflexivity|].
  now rewrite lower_upper_char, IH.
Qed.

Lemma lower_idem (s : string) : PyStr.lower (PyStr.lower s) = PyStr.lower s.
Proof.
  induction s as [|c s IH]; simpl; [reflexivity|].
  now rewrite lower_char_idem, IH.
Qed.

Lemma find_by_lower_trace self tree (b b' : string) :
  PyStr.lower b = PyStr.lower b' ->
  Trace._find_matching_files self tree b
  = Trace._find_matching_files self tree b'.
Proof.
  intros H. unfold Trace._find_matching_files, Trace.matches_of.
  now rewrite H.
Qed.

Lemma find_by_lower_traceit self tree (b b' : string) (max_depth : Z) :
  PyStr.lower b = PyStr.lower b' ->
  Traceit._find_matching_files self tree b max_depth
  = Traceit._find_matching_files self tree b' max_depth.
Proof.
  intros H. unfold Traceit._find_matching_files, Traceit.matches_of.
  now rewrite H.
Qed.

(** X26: for ASCII base names, the case of the letters does not
    matter: two base names that are the same up to case give the same
    matches, and a base name, its lower case and its upper case are
    searched alike, in both implementations. *)
Theorem find_case_insensitive (base base' : string) :
  IsAscii base -> IsAscii base' ->
  SameIgnoringCase base base' ->
  (forall self tree,
     Trace._find_matching_files self tree base
     = Trace._find_matching_files self tree base' /\
     Trace._find_matching_files self tree (SummaryText.upper base)
     = Trace._find_matching_files self tree base /\
     Trace._find_matching_files self tree (PyStr.lower base)
     = Trace._find_matching_files self tree base) /\
  (forall self tree max_depth,
     Traceit._find_matching_files self tree base max_depth
     = Traceit._find_matching_files self tree base' max_depth /\
     Traceit._find_matching_files self tree (SummaryText.upper base) max_depth
     = Traceit._find_matching_files self tree base max_depth /\
     Traceit._find_matching_files self tree (PyStr.lower base) max_depth
     = Traceit._find_matching_files self tree base max_depth).
Proof.
  intros _ _ H. apply lower_same in H. split.
  - intros self tree. repeat split.
    + now apply find_by_lower_trace.
    + apply find_by_lower_trace, lower_upper.
    + apply find_by_lower_trace, lower_idem.
  - intros self tree max_depth. repeat split.
    + now apply find_by_lower_traceit.
    + apply find_by_lower_traceit, lower_upper.
    + apply find_by_lower_traceit, lower_idem.
Qed.

(** [Test_File] and [TEST_file] both find [Test_File.py]. *)
Lemma find_case_insensitive_witness :
  IsAscii "Test_File" /\ IsAscii "TEST_file" /\
  SameIgnoringCase "Test_File" "TEST_file" /\
  Traceit._find_matching_files (Traceit.init ["/"; "afs"] None)
    (Dir true example_entries) "TEST_file" 1
  = [["/"; "afs"; "Test_File.py"]] /\
  Traceit._find_matching_files (Traceit.init ["/"; "afs"] None)
    (Dir true example_entries) "Test_File" 1
  = Traceit._find_matching_files (Traceit.init ["/"; "afs"] None)
      (Dir true example_entries) "TEST_file" 1.
Proof.
  assert (SameIgnoringCase "Test_File" "TEST_file") as Hs.
  { repeat first
      [ apply Same_empty
      | apply Same_letter;
        [first [ left; reflexivity
               | right; left; vm_compute; lia
               | right; right; vm_compute; lia ] |] ]. }
  split; [reflexivity|]. split; [reflexivity|]. split; [exact Hs|].
  split; [reflexivity|].
  destruct (find_case_insensitive "Test_File" "TEST_file" eq_refl eq_refl Hs)
    as [_ H].
  exact (proj1 (H (Traceit.init ["/"; "afs"] None)
                  (Dir true example_entries) 1%Z)).
Defined.

End ClientsAgree.
